(** * export_portfolio_data: extraction of Plotly traces from a rendered page

    A shallow embedding of [scripts/export_portfolio_data.py].  The script
    reads one HTML file, finds the argument of the last [Plotly.newPlot(]
    call, decodes it with the streaming JSON decoder, normalises the [x],
    [y], [z] fields of every trace (plain arrays, or base64 buffers of
    little-endian float32) to numbers rounded at two decimals, and writes
    the mapping name -> coordinates as compact JSON.

    The three functions of the script, [extract_traces],
    [decode_binary_array] and [main], are translated below under their own
    names.  What they call from the Python runtime ([str.find],
    [str.rfind], slicing, [json.JSONDecoder.raw_decode], [base64.b64decode],
    [struct.unpack], [round], [json.dump]) is modelled first, one module per
    library. *)

From Stdlib Require Import ZArith NArith List Ascii String Bool Lia.
From Stdlib Require Import Floats.SpecFloat DecimalString.
From stdpp Require Import gmap strings.

Import ListNotations.
Local Open Scope Z_scope.
Local Open Scope list_scope.

(** ** Exceptions and results *)

(** The exception classes the script can meet.  [JSONDecodeError] is a
    subclass of [ValueError] in Python; the two are kept apart here. *)
Inductive exn : Type :=
| ValueError
| JSONDecodeError
| TypeError
| KeyError
| AttributeError
| BinasciiError
| StructError
| RecursionError
| FileNotFoundError
| UnicodeEncodeError.

Inductive result (A : Type) : Type :=
| Ok (a : A)
| Raise (e : exn).
Arguments Ok {A} a.
Arguments Raise {A} e.

Global Instance result_ret : MRet result := fun A a => Ok a.
Global Instance result_bind : MBind result := fun A B k r =>
  match r with
  | Ok a => k a
  | Raise e => Raise e
  end.

Fixpoint mapM_result {A B} (f : A -> result B) (l : list A) : result (list B) :=
  match l with
  | [] => Ok []
  | a :: l' => b ← f a; bs ← mapM_result f l'; Ok (b :: bs)
  end.

(** ** Python strings

    A [str] is a sequence of code points.  Literals of the script are
    written as Rocq strings and converted with [lit]. *)
Abbreviation char := N (only parsing).
Abbreviation str := (list N) (only parsing).

Definition ch (a : ascii) : char := N_of_ascii a.

Fixpoint lit (s : string) : str :=
  match s with
  | EmptyString => []
  | String a s' => ch a :: lit s'
  end.

(** [len(l)] *)
Definition len {A} (l : list A) : Z := Z.of_nat (length l).

(** The quotation mark, and a literal in which every apostrophe stands for a
    quotation mark. *)
Definition quote : char := 34%N.

Definition qlit (s : string) : str :=
  map (fun c => if N.eqb c (ch "'") then quote else c) (lit s).

Definition str_eqb (a b : str) : bool :=
  bool_decide (a = b).

Module Str.

(** [s.startswith(sub)] *)
Fixpoint prefixb (sub s : str) : bool :=
  match sub, s with
  | [], _ => true
  | _ :: _, [] => false
  | a :: sub', b :: s' => N.eqb a b && prefixb sub' s'
  end.

(** [s.find(sub)]: the lowest index at which [sub] starts, [-1] if none.
    The scan carries the index [i] of the head of [s]. *)
Fixpoint find_from (sub s : str) (i : Z) : Z :=
  if prefixb sub s then i
  else match s with
       | [] => -1
       | _ :: s' => find_from sub s' (i + 1)
       end.

Definition find (s sub : str) : Z := find_from sub s 0.

(** [s.rfind(sub)]: the highest index at which [sub] starts, [-1] if
    none. *)
Fixpoint rfind_from (sub s : str) (i : Z) : Z :=
  match s with
  | [] => if prefixb sub [] then i else -1
  | _ :: s' =>
      let r := rfind_from sub s' (i + 1) in
      if r =? -1 then (if prefixb sub s then i else -1) else r
  end.

Definition rfind (s sub : str) : Z := rfind_from sub s 0.

(** [s[i:]] with Python's treatment of a negative or too large index. *)
Definition slice_from (s : str) (i : Z) : str :=
  let i' := if i <? 0 then Z.max 0 (len s + i) else i in
  drop (Z.to_nat i') s.

(** [sub] starts at index [k] of [s]. *)
Definition occurs_at (sub s : str) (k : Z) : Prop :=
  0 <= k <= len s /\ prefixb sub (drop (Z.to_nat k) s) = true.

End Str.

(** ** Python floats

    A Python [float] is an IEEE-754 binary64 number.  It is represented by
    the Standard Library's [spec_float], at precision 53 and maximal
    exponent 1024; a finite non-zero number [S754_finite s m e] stands for
    [(-1)^s * m * 2^e].  Conversions from decimal text and from float32 bit
    patterns, [round(x, ndigits)] and [repr(x)] follow CPython. *)
Module Float.

Definition prec : Z := 53.
Definition emax : Z := 1024.

(** [float(text)] for the decimal [(-1)^s * d * 10^e10]: the nearest
    binary64 number, ties to even, overflow to infinity. *)
Definition of_decimal (s : bool) (d : N) (e10 : Z) : spec_float :=
  match d with
  | N0 => S754_zero s
  | Npos p =>
      match e10 with
      | Zneg q =>
          let '(m, e, l) :=
            SFdiv_core_binary prec emax (Zpos p) 0 (10 ^ Zpos q) 0 in
          binary_round_aux prec emax s m e l
      | _ => binary_round prec emax s (Z.to_pos (Zpos p * 10 ^ e10)) 0
      end
  end.

(** The binary64 value of a float32 given by its 32-bit pattern (the
    conversion is exact). *)
Definition of_bits32 (w : Z) : spec_float :=
  let s := Z.testbit w 31 in
  let e := Z.land (Z.shiftr w 23) 255 in
  let f := Z.land w (2 ^ 23 - 1) in
  if e =? 255 then (if f =? 0 then S754_infinity s else S754_nan)
  else if e =? 0 then binary_normalize prec emax (cond_Zopp s f) (-149) s
  else binary_normalize prec emax (cond_Zopp s (f + 2 ^ 23)) (e - 150) s.

(** Nearest integer to [n / d] for [0 <= n], [0 < d], ties to even. *)
Definition div_half_even (n d : Z) : Z :=
  let q := n / d in
  match (2 * (n mod d) ?= d) with
  | Lt => q
  | Gt => q + 1
  | Eq => if Z.even q then q else q + 1
  end.

(** [|x| * 10^ndigits] as a fraction, for finite non-zero [x]. *)
Definition scaled (m : positive) (e ndigits : Z) : Z * Z :=
  let '(n2, d2) := match e with
                   | Zneg p => (1, 2 ^ Zpos p)
                   | _ => (2 ^ e, 1)
                   end in
  let '(n10, d10) := match ndigits with
                     | Zneg p => (1, 10 ^ Zpos p)
                     | _ => (10 ^ ndigits, 1)
                     end in
  (Zpos m * n2 * n10, d2 * d10).

(** [round(x, ndigits)] on a float: infinities and NaN round to
    themselves; otherwise the exact value is rounded to [ndigits]
    decimals (ties to even) and the decimal is converted back, as
    [double_round] does through [dtoa] and [strtod]. *)
Definition round (x : spec_float) (ndigits : Z) : spec_float :=
  match x with
  | S754_finite s m e =>
      let '(n, d) := scaled m e ndigits in
      of_decimal s (Z.to_N (div_half_even n d)) (- ndigits)
  | _ => x
  end.

Definition eqb (x y : spec_float) : bool :=
  match x, y with
  | S754_zero a, S754_zero b => Bool.eqb a b
  | S754_infinity a, S754_infinity b => Bool.eqb a b
  | S754_nan, S754_nan => true
  | S754_finite a m e, S754_finite b m' e' =>
      Bool.eqb a b && Pos.eqb m m' && Z.eqb e e'
  | _, _ => false
  end.

(** *** [repr]: the shortest decimal that converts back to the float *)

(** Decimal digits of a natural number, as characters. *)
Definition digits_of (n : N) : str :=
  lit (NilZero.string_of_uint (N.to_uint n)).

(** The least [j'] from [j] on with [num * 10^j' >= den]. *)
Fixpoint least_scale (fuel : nat) (num den j : Z) : Z :=
  match fuel with
  | O => j
  | S fuel' =>
      if den <=? num * 10 ^ j then j else least_scale fuel' num den (j + 1)
  end.

(** The [k] with [10^k <= num/den < 10^(k+1)]. *)
Definition exp10 (num den : Z) : Z :=
  if den <=? num
  then Z.of_nat (length (digits_of (Z.to_N (num / den)))) - 1
  else - least_scale (Z.to_nat (Z.log2 den) + 1) num den 1.

(** The decimals [c * 10^p] with [n] significant digits that bracket
    [num/den], kept when they convert back to [x]; the nearer one wins. *)
Definition candidate (x : spec_float) (num den : Z) (k : Z) (n : Z)
  : option (Z * Z) :=
  let p := k - n + 1 in
  let '(a, b) := match p with
                 | Zneg q => (num * 10 ^ Zpos q, den)
                 | _ => (num, den * 10 ^ p)
                 end in
  let lo := a / b in
  let r := a mod b in
  let hi := lo + 1 in
  let ok c := eqb (of_decimal false (Z.to_N c) p) x in
  match ok lo, ok hi with
  | true, true =>
      match (2 * r ?= b) with
      | Lt => Some (lo, p)
      | Gt => Some (hi, p)
      | Eq => Some (if Z.even lo then lo else hi, p)
      end
  | true, false => Some (lo, p)
  | false, true => Some (hi, p)
  | false, false => None
  end.

Fixpoint shortest (fuel : nat) (x : spec_float) (num den k n : Z)
  : Z * Z :=
  match fuel with
  | O => (div_half_even num den, 0)
  | S fuel' =>
      match candidate x num den k n with
      | Some cp => cp
      | None => shortest fuel' x num den k (n + 1)
      end
  end.

Fixpoint strip_zeros (fuel : nat) (c p : Z) : Z * Z :=
  match fuel with
  | O => (c, p)
  | S fuel' =>
      if (c mod 10 =? 0) && negb (c =? 0)
      then strip_zeros fuel' (c / 10) (p + 1)
      else (c, p)
  end.

Definition zeros (n : Z) : str := repeat (ch "0") (Z.to_nat n).

(** [float_repr_style] of CPython: positional notation when the decimal
    point falls within (-4, 16], exponent notation otherwise. *)
Definition format_repr (ds : str) (decpt : Z) : str :=
  if (decpt <=? -4) || (16 <? decpt) then
    let e := decpt - 1 in
    let es := digits_of (Z.to_N (Z.abs e)) in
    let es := if Z.abs e <? 10 then ch "0" :: es else es in
    let mant := match ds with
                | [] => []
                | d :: [] => [d]
                | d :: rest => d :: ch "." :: rest
                end in
    mant ++ [ch "e"; if e <? 0 then ch "-" else ch "+"] ++ es
  else if decpt <=? 0 then
    lit "0." ++ zeros (- decpt) ++ ds
  else if Z.of_nat (length ds) <=? decpt then
    ds ++ zeros (decpt - Z.of_nat (length ds)) ++ lit ".0"
  else
    take (Z.to_nat decpt) ds ++ [ch "."] ++ drop (Z.to_nat decpt) ds.

Definition sign_str (s : bool) : str := if s then [ch "-"] else [].

(** [repr(x)] for a float, as [json] writes it for finite numbers. *)
Definition repr (x : spec_float) : str :=
  match x with
  | S754_zero s => sign_str s ++ lit "0.0"
  | S754_infinity s => sign_str s ++ lit "inf"
  | S754_nan => lit "nan"
  | S754_finite s m e =>
      let '(num, den) := scaled m e 0 in
      let k := exp10 num den in
      let '(c, p) := shortest 17 (S754_finite false m e) num den k 1 in
      let '(c, p) := strip_zeros 400 c p in
      let ds := digits_of (Z.to_N c) in
      sign_str s ++ format_repr ds (Z.of_nat (length ds) + p)
  end.

End Float.

(** ** Python values

    The values that JSON decoding produces and that the script builds.  A
    [dict] keeps its keys in insertion order: it is an association list
    without duplicate keys, maintained by [Dict.set]. *)
#[warnings="-register-all"]
Inductive value : Type :=
| VNone
| VBool (b : bool)
| VInt (z : Z)
| VFloat (f : spec_float)
| VStr (s : str)
| VList (l : list value)
| VDict (d : list (value * value)).

Module Dict.

(** A finite float or an integer as [m * 2^e]. *)
Definition exact (v : value) : option (Z * Z) :=
  match v with
  | VBool b => Some (if b then 1 else 0, 0)
  | VInt z => Some (z, 0)
  | VFloat (S754_zero _) => Some (0, 0)
  | VFloat (S754_finite s m e) => Some (cond_Zopp s (Zpos m), e)
  | _ => None
  end.

(** [m1 * 2^e1 = m2 * 2^e2] *)
Definition exact_eqb (a b : Z * Z) : bool :=
  let '(m1, e1) := a in
  let '(m2, e2) := b in
  let e := Z.min e1 e2 in
  (m1 * 2 ^ (e1 - e) =? m2 * 2 ^ (e2 - e)).

(** Equality of dictionary keys: [==] on hashable values.  Booleans,
    integers and floats compare by numeric value ([True == 1 == 1.0]);
    the one NaN object that the JSON decoder hands out is found again by
    identity. *)
Definition key_eqb (a b : value) : bool :=
  match a, b with
  | VNone, VNone => true
  | VStr s, VStr t => str_eqb s t
  | VFloat S754_nan, VFloat S754_nan => true
  | VFloat (S754_infinity s), VFloat (S754_infinity t) => Bool.eqb s t
  | _, _ =>
      match exact a, exact b with
      | Some x, Some y => exact_eqb x y
      | _, _ => false
      end
  end.

(** Lists and dicts are unhashable: used as a key they raise
    [TypeError]. *)
Definition hashable (v : value) : bool :=
  match v with
  | VList _ | VDict _ => false
  | _ => true
  end.

(** [d.get(k)] as an option; [None] when the key is absent. *)
Fixpoint lookup (d : list (value * value)) (k : value) : option value :=
  match d with
  | [] => None
  | (k', v) :: d' => if key_eqb k' k then Some v else lookup d' k
  end.

(** [d.get(k, default)] *)
Definition get (d : list (value * value)) (k default : value) : value :=
  match lookup d k with
  | Some v => v
  | None => default
  end.

(** [k in d] *)
Definition mem (d : list (value * value)) (k : value) : bool :=
  match lookup d k with
  | Some _ => true
  | None => false
  end.

(** [d[k] = v]: an existing key keeps its place (and its key object) and
    takes the new value, a new key goes last. *)
Fixpoint set (d : list (value * value)) (k v : value)
  : list (value * value) :=
  match d with
  | [] => [(k, v)]
  | (k', v') :: d' =>
      if key_eqb k' k then (k', v) :: d' else (k', v') :: set d' k v
  end.

(** [dict(pairs)] *)
Definition of_pairs (pairs : list (value * value)) : list (value * value) :=
  fold_left (fun d kv => set d (fst kv) (snd kv)) pairs [].

End Dict.

(** ** The JSON decoder: [json.JSONDecoder().raw_decode]

    Translated from [json/scanner.py] and [json/decoder.py].  The scanner
    works on the text that remains to be read; the index that Python
    carries is the number of characters consumed.  The mutual recursion of
    the scanner is bounded by fuel; [Starved] marks its exhaustion, which
    [raw_decode] never meets ([scan_once_fed]).  The recursion limit of
    the interpreter is not modelled: values nest without bound. *)
Module Json.

Inductive outcome (A : Type) : Type :=
| Scanned (a : A) (rest : str)
| Stop (e : exn)
| Starved.
Arguments Scanned {A} a rest.
Arguments Stop {A} e.
Arguments Starved {A}.

Definition is_ws (c : char) : bool :=
  N.eqb c (ch " ") || N.eqb c 9%N || N.eqb c 10%N || N.eqb c 13%N.

Fixpoint skip_ws (s : str) : str :=
  match s with
  | c :: s' => if is_ws c then skip_ws s' else s
  | [] => []
  end.

Definition is_digit (c : char) : bool :=
  N.leb (ch "0") c && N.leb c (ch "9").

Definition hex_val (c : char) : option N :=
  if is_digit c then Some (c - ch "0")%N
  else if N.leb (ch "a") c && N.leb c (ch "f") then Some (c - ch "a" + 10)%N
  else if N.leb (ch "A") c && N.leb c (ch "F") then Some (c - ch "A" + 10)%N
  else None.

(** [_decode_uXXXX]: exactly four hexadecimal digits, as the C scanner and
    the [HEXDIGITS] pattern read them. *)
Definition hex4 (a b c d : char) : option N :=
  match hex_val a, hex_val b, hex_val c, hex_val d with
  | Some x, Some y, Some z, Some w =>
      Some (((x * 16 + y) * 16 + z) * 16 + w)%N
  | _, _, _, _ => None
  end.

(** The table [BACKSLASH] of one-letter escapes. *)
Definition unescape (c : char) : option char :=
  if N.eqb c quote then Some quote
  else if N.eqb c (ch "\") then Some (ch "\")
  else if N.eqb c (ch "/") then Some (ch "/")
  else if N.eqb c (ch "b") then Some 8%N
  else if N.eqb c (ch "f") then Some 12%N
  else if N.eqb c (ch "n") then Some 10%N
  else if N.eqb c (ch "r") then Some 13%N
  else if N.eqb c (ch "t") then Some 9%N
  else None.

Definition is_high_surrogate (u : N) : bool :=
  N.leb 0xd800 u && N.leb u 0xdbff.
Definition is_low_surrogate (u : N) : bool :=
  N.leb 0xdc00 u && N.leb u 0xdfff.
Definition join_surrogates (u u2 : N) : N :=
  (0x10000 + N.lor (N.shiftl (u - 0xd800) 10) (u2 - 0xdc00))%N.

Definition cons_char (c : char) (r : result (str * str))
  : result (str * str) :=
  match r with
  | Ok (k, rest) => Ok (c :: k, rest)
  | Raise e => Raise e
  end.

(** [scanstring] in strict mode, entered after the opening quote: the
    decoded string and the text after the closing quote. *)
Fixpoint scanstring (s : str) : result (str * str) :=
  match s with
  | [] => Raise JSONDecodeError
  | c :: s1 =>
      if N.eqb c quote then Ok ([], s1)
      else if N.eqb c (ch "\") then
        match s1 with
        | [] => Raise JSONDecodeError
        | esc :: s2 =>
            if N.eqb esc (ch "u") then
              match s2 with
              | h1 :: h2 :: h3 :: h4 :: s3 =>
                  match hex4 h1 h2 h3 h4 with
                  | None => Raise JSONDecodeError
                  | Some uni =>
                      match s3 with
                      | b :: u :: s4 =>
                          if is_high_surrogate uni && N.eqb b (ch "\")
                             && N.eqb u (ch "u")
                          then
                            match s4 with
                            | g1 :: g2 :: g3 :: g4 :: s5 =>
                                match hex4 g1 g2 g3 g4 with
                                | None => Raise JSONDecodeError
                                | Some uni2 =>
                                    if is_low_surrogate uni2
                                    then cons_char (join_surrogates uni uni2)
                                           (scanstring s5)
                                    else cons_char uni (scanstring s3)
                                end
                            | _ => Raise JSONDecodeError
                            end
                          else cons_char uni (scanstring s3)
                      | _ => cons_char uni (scanstring s3)
                      end
                  end
              | _ => Raise JSONDecodeError
              end
            else
              match unescape esc with
              | Some c' => cons_char c' (scanstring s2)
              | None => Raise JSONDecodeError
              end
        end
      else if N.ltb c 32 then Raise JSONDecodeError
      else cons_char c (scanstring s1)
  end.

(** *** Numbers: [NUMBER_RE] *)

Fixpoint span_digits (s : str) : str * str :=
  match s with
  | c :: s' =>
      if is_digit c
      then let '(ds, r) := span_digits s' in (c :: ds, r)
      else ([], s)
  | [] => ([], [])
  end.

(** The integer part: a single 0, or a digit 1-9 and the digits after it. *)
Definition match_nat (s : str) : option (str * str) :=
  match s with
  | c :: s' =>
      if N.eqb c (ch "0") then Some ([c], s')
      else if is_digit c then Some (span_digits s)
      else None
  | [] => None
  end.

(** The optional fraction (a dot and at least one digit): its digits, empty
    when absent. *)
Definition match_frac (s : str) : str * str :=
  match s with
  | c :: s' =>
      if N.eqb c (ch ".") then
        match span_digits s' with
        | ([], _) => ([], s)
        | (ds, r) => (ds, r)
        end
      else ([], s)
  | [] => ([], s)
  end.

(** The optional exponent (e or E, an optional sign, at least one digit):
    its sign and digits. *)
Definition match_exp (s : str) : option (bool * str) * str :=
  match s with
  | c :: s' =>
      if N.eqb c (ch "e") || N.eqb c (ch "E") then
        let '(neg, s'') :=
          match s' with
          | g :: t =>
              if N.eqb g (ch "-") then (true, t)
              else if N.eqb g (ch "+") then (false, t)
              else (false, s')
          | [] => (false, s')
          end in
        match span_digits s'' with
        | ([], _) => (None, s)
        | (ds, r) => (Some (neg, ds), r)
        end
      else (None, s)
  | [] => (None, s)
  end.

(** The number denoted by a run of decimal digits. *)
Definition nat_of_digits (ds : str) : N :=
  fold_left (fun acc c => (acc * 10 + (c - ch "0"))%N) ds 0%N.

(** [sys.int_info.default_max_str_digits]: [int(text)] refuses longer
    literals with [ValueError]. *)
Definition max_str_digits : nat := 4300.

(** The optional minus sign. *)
Definition match_sign (s : str) : bool * str :=
  match s with
  | c :: s' => if N.eqb c (ch "-") then (true, s') else (false, s)
  | [] => (false, s)
  end.

(** [parse_int] on a literal without fraction and exponent, [parse_float]
    on the others; [rest] is the text behind the literal. *)
Definition number_value (neg : bool) (ints frac : str)
    (ex : option (bool * str)) (rest : str) : outcome value :=
  match frac, ex with
  | [], None =>
      if Nat.ltb max_str_digits (length ints) then Stop ValueError
      else
        let n := Z.of_N (nat_of_digits ints) in
        Scanned (VInt (if neg then - n else n)) rest
  | _, _ =>
      let e := match ex with
               | Some (eneg, eds) =>
                   let x := Z.of_N (nat_of_digits eds) in
                   if eneg then - x else x
               | None => 0
               end in
      Scanned (VFloat (Float.of_decimal neg (nat_of_digits (ints ++ frac))
                         (e - Z.of_nat (length frac))))
              rest
  end.

(** [match_number] and the conversion of what it matched; [None] when the
    text does not start with a number. *)
Definition scan_number (s : str) : option (outcome value) :=
  let '(neg, s0) := match_sign s in
  match match_nat s0 with
  | None => None
  | Some (ints, s1) =>
      let '(frac, s2) := match_frac s1 in
      let '(ex, s3) := match_exp s2 in
      Some (number_value neg ints frac ex s3)
  end.

(** What [_scan_once] tries when the text opens neither a string, an
    object nor an array: the literals, a number, the float constants. *)
Definition scan_atom (s : str) : outcome value :=
  if Str.prefixb (lit "null") s then Scanned VNone (drop 4 s)
  else if Str.prefixb (lit "true") s then Scanned (VBool true) (drop 4 s)
  else if Str.prefixb (lit "false") s then Scanned (VBool false) (drop 5 s)
  else match scan_number s with
       | Some r => r
       | None =>
           if Str.prefixb (lit "NaN") s
           then Scanned (VFloat S754_nan) (drop 3 s)
           else if Str.prefixb (lit "Infinity") s
           then Scanned (VFloat (S754_infinity false)) (drop 8 s)
           else if Str.prefixb (lit "-Infinity") s
           then Scanned (VFloat (S754_infinity true)) (drop 9 s)
           else Stop JSONDecodeError
       end.

(** [_scan_once] dispatches on the first character.  [JSONArray] and
    [JSONObject] are its two loops: [array] is entered at the first
    element with the values read so far, [object] after the opening quote
    of a key with the pairs read so far. *)
Definition scan_once_body
    (array : str -> list value -> outcome value)
    (object : str -> list (value * value) -> outcome value)
    (s : str) : outcome value :=
  match s with
  | [] => Stop JSONDecodeError
  | c :: s' =>
      if N.eqb c quote then
        match scanstring s' with
        | Ok (k, r) => Scanned (VStr k) r
        | Raise e => Stop e
        end
      else if N.eqb c (ch "{") then
        match skip_ws s' with
        | c1 :: r =>
            if N.eqb c1 (ch "}") then Scanned (VDict []) r
            else if N.eqb c1 quote then object r []
            else Stop JSONDecodeError
        | [] => Stop JSONDecodeError
        end
      else if N.eqb c (ch "[") then
        match skip_ws s' with
        | c1 :: r =>
            if N.eqb c1 (ch "]") then Scanned (VList []) r
            else array (c1 :: r) []
        | [] => array [] []
        end
      else scan_atom s
  end.

(** One turn of the loop of [JSONArray]: an element, then [']'] or a
    comma and the next turn. *)
Definition array_loop_body
    (scan : str -> outcome value)
    (array : str -> list value -> outcome value)
    (s : str) (values : list value) : outcome value :=
  match scan s with
  | Scanned v r =>
      match skip_ws r with
      | c :: r' =>
          if N.eqb c (ch "]") then Scanned (VList (values ++ [v])) r'
          else if N.eqb c (ch ",")
          then array (skip_ws r') (values ++ [v])
          else Stop JSONDecodeError
      | [] => Stop JSONDecodeError
      end
  | Stop e => Stop e
  | Starved => Starved
  end.

(** One turn of the loop of [JSONObject]: a key, a colon, a value, then
    ['}'] or a comma, the quote of the next key and the next turn. *)
Definition object_loop_body
    (scan : str -> outcome value)
    (object : str -> list (value * value) -> outcome value)
    (s : str) (pairs : list (value * value)) : outcome value :=
  match scanstring s with
  | Raise e => Stop e
  | Ok (key, r) =>
      match skip_ws r with
      | c :: r1 =>
          if N.eqb c (ch ":") then
            match scan (skip_ws r1) with
            | Scanned v r2 =>
                let pairs' := pairs ++ [(VStr key, v)] in
                match skip_ws r2 with
                | c2 :: r3 =>
                    if N.eqb c2 (ch "}")
                    then Scanned (VDict (Dict.of_pairs pairs')) r3
                    else if N.eqb c2 (ch ",") then
                      match skip_ws r3 with
                      | c3 :: r4 =>
                          if N.eqb c3 quote then object r4 pairs'
                          else Stop JSONDecodeError
                      | [] => Stop JSONDecodeError
                      end
                    else Stop JSONDecodeError
                | [] => Stop JSONDecodeError
                end
            | Stop e => Stop e
            | Starved => Starved
            end
          else Stop JSONDecodeError
      | [] => Stop JSONDecodeError
      end
  end.

(** The three functions call one another; every call spends one unit of
    [fuel]. *)
Fixpoint scan_once (fuel : nat) (s : str) {struct fuel} : outcome value :=
  match fuel with
  | O => Starved
  | S n => scan_once_body (array_loop n) (object_loop n) s
  end

with array_loop (fuel : nat) (s : str) (values : list value)
       {struct fuel} : outcome value :=
  match fuel with
  | O => Starved
  | S n => array_loop_body (scan_once n) (array_loop n) s values
  end

with object_loop (fuel : nat) (s : str) (pairs : list (value * value))
       {struct fuel} : outcome value :=
  match fuel with
  | O => Starved
  | S n => object_loop_body (scan_once n) (object_loop n) s pairs
  end.

(** Fuel that always suffices, see [scan_once_fed]. *)
Definition fuel_for (s : str) : nat := S (2 * length s).

(** [decoder.raw_decode(s)]: the value that starts at index 0 and the
    index where it ends.  Leading whitespace is not skipped. *)
Definition raw_decode (s : str) : result (value * Z) :=
  match scan_once (fuel_for s) s with
  | Scanned v r => Ok (v, len s - len r)
  | Stop e => Raise e
  | Starved => Raise RecursionError
  end.

(** *** Vocabulary for the properties of the decoder *)

Definition head_digit (u : str) : bool :=
  match u with c :: _ => is_digit c | [] => false end.
Definition head_dot (u : str) : bool :=
  match u with c :: _ => N.eqb c (ch ".") | [] => false end.
Definition head_exp (u : str) : bool :=
  match u with
  | c :: _ => N.eqb c (ch "e") || N.eqb c (ch "E")
  | [] => false
  end.

(** Text that can extend a number that ends just before it: it starts
    with a digit, a dot or an exponent letter. *)
Definition continues (u : str) : bool :=
  head_digit u || head_dot u || head_exp u.

(** The branches of [scanstring] behind a backslash, named so that the
    function can be unfolded one step at a time. *)
Definition low_unit (uni : N) (s3 s4 : str) : result (str * str) :=
  match s4 with
  | g1 :: g2 :: g3 :: g4 :: s5 =>
      match hex4 g1 g2 g3 g4 with
      | None => Raise JSONDecodeError
      | Some uni2 =>
          if is_low_surrogate uni2
          then cons_char (join_surrogates uni uni2) (scanstring s5)
          else cons_char uni (scanstring s3)
      end
  | _ => Raise JSONDecodeError
  end.

Definition after_unit (uni : N) (s3 : str) : result (str * str) :=
  match s3 with
  | b :: u :: s4 =>
      if is_high_surrogate uni && N.eqb b (ch "\") && N.eqb u (ch "u")
      then low_unit uni s3 s4
      else cons_char uni (scanstring s3)
  | _ => cons_char uni (scanstring s3)
  end.

Definition unicode_escape (s2 : str) : result (str * str) :=
  match s2 with
  | h1 :: h2 :: h3 :: h4 :: s3 =>
      match hex4 h1 h2 h3 h4 with
      | None => Raise JSONDecodeError
      | Some uni => after_unit uni s3
      end
  | _ => Raise JSONDecodeError
  end.

Definition escaped (s1 : str) : result (str * str) :=
  match s1 with
  | [] => Raise JSONDecodeError
  | esc :: s2 =>
      if N.eqb esc (ch "u") then unicode_escape s2
      else match unescape esc with
           | Some c' => cons_char c' (scanstring s2)
           | None => Raise JSONDecodeError
           end
  end.

(** [scanstring] reads up to the closing quote and no further. *)
Definition string_stable (t s : str) : Prop :=
  forall k r, scanstring s = Ok (k, r) -> scanstring (s ++ t) = Ok (k, r ++ t).

Definition scan_stable (t : str) (f : str -> outcome value) : Prop :=
  forall s v r,
    f s = Scanned v r ->
    (scan_number s <> None -> continues (r ++ t) = false) ->
    f (s ++ t) = Scanned v (r ++ t).

Definition loop_stable {A} (t : str) (g : str -> A -> outcome value) : Prop :=
  forall s acc v r,
    g s acc = Scanned v r -> g (s ++ t) acc = Scanned v (r ++ t).

Definition scan_strict (f : str -> outcome value) : Prop :=
  forall v r, f [] <> Scanned v r.

Definition loop_strict {A} (g : str -> A -> outcome value) : Prop :=
  forall acc v r, g [] acc <> Scanned v r.

Definition scan_le (f g : str -> outcome value) : Prop :=
  forall s, f s <> Starved -> g s = f s.

Definition loop_le {A} (f g : str -> A -> outcome value) : Prop :=
  forall s acc, f s acc <> Starved -> g s acc = f s acc.

Definition scan_bounded (f : str -> outcome value) : Prop :=
  forall s v r, f s = Scanned v r -> (length r <= length s)%nat.

Definition loop_bounded {A} (g : str -> A -> outcome value) : Prop :=
  forall s acc v r, g s acc = Scanned v r -> (length r <= length s)%nat.

Definition string_bounded (s : str) : Prop :=
  forall k r, scanstring s = Ok (k, r) -> (length r <= length s)%nat.

End Json.

(** ** The JSON encoder: [json.dumps(obj, separators=(",", ":"))] *)
Module JsonDump.

Definition hex_digit (n : N) : char :=
  if N.ltb n 10 then (ch "0" + n)%N else (ch "a" + (n - 10))%N.

(** The escape [\uXXXX] of a code unit, in lower-case hexadecimal. *)
Definition u_escape (n : N) : str :=
  [ch "\"; ch "u";
   hex_digit (N.land (N.shiftr n 12) 15); hex_digit (N.land (N.shiftr n 8) 15);
   hex_digit (N.land (N.shiftr n 4) 15); hex_digit (N.land n 15)].

(** One character under [ensure_ascii]. *)
Definition escape_char (c : char) : str :=
  if N.eqb c quote then [ch "\"; quote]
  else if N.eqb c (ch "\") then lit "\\"
  else if N.eqb c 10 then lit "\n"
  else if N.eqb c 13 then lit "\r"
  else if N.eqb c 9 then lit "\t"
  else if N.eqb c 8 then lit "\b"
  else if N.eqb c 12 then lit "\f"
  else if N.leb 32 c && N.leb c 126 then [c]
  else if N.ltb c 0x10000 then u_escape c
  else
    let n := (c - 0x10000)%N in
    u_escape (N.lor 0xd800 (N.land (N.shiftr n 10) 0x3ff))
    ++ u_escape (N.lor 0xdc00 (N.land n 0x3ff)).

(** [encode_basestring_ascii] *)
Definition encode_string (s : str) : str :=
  [quote] ++ concat (map escape_char s) ++ [quote].

Definition int_repr (z : Z) : str :=
  lit (NilZero.string_of_int (Z.to_int z)).

(** [floatstr] with [allow_nan]. *)
Definition float_str (f : spec_float) : str :=
  match f with
  | S754_nan => lit "NaN"
  | S754_infinity false => lit "Infinity"
  | S754_infinity true => lit "-Infinity"
  | _ => Float.repr f
  end.

(** The text of a dictionary key; keys are hashable values. *)
Definition key_str (k : value) : str :=
  match k with
  | VStr s => s
  | VFloat f => float_str f
  | VBool true => lit "true"
  | VBool false => lit "false"
  | VNone => lit "null"
  | VInt z => int_repr z
  | VList _ | VDict _ => []
  end.

Fixpoint join (sep : str) (l : list str) : str :=
  match l with
  | [] => []
  | [a] => a
  | a :: l' => a ++ sep ++ join sep l'
  end.

Fixpoint dumps (v : value) : str :=
  match v with
  | VNone => lit "null"
  | VBool true => lit "true"
  | VBool false => lit "false"
  | VInt z => int_repr z
  | VFloat f => float_str f
  | VStr s => encode_string s
  | VList l => [ch "["] ++ join [ch ","] (map dumps l) ++ [ch "]"]
  | VDict d =>
      [ch "{"]
      ++ join [ch ","]
           (map (fun kv => encode_string (key_str (fst kv)) ++ [ch ":"]
                           ++ dumps (snd kv)) d)
      ++ [ch "}"]
  end.

End JsonDump.

(** ** [base64.b64decode] and [base64.b64encode]

    Bytes are integers in [0, 256).  The decoder is [binascii.a2b_base64]
    of CPython 3.11 and later. *)
Module Base64.

(** [table_a2b_base64]: the value of a character of the alphabet. *)
Definition a2b_char (c : char) : option Z :=
  if N.leb (ch "A") c && N.leb c (ch "Z") then Some (Z.of_N (c - ch "A"))
  else if N.leb (ch "a") c && N.leb c (ch "z")
  then Some (Z.of_N (c - ch "a") + 26)
  else if N.leb (ch "0") c && N.leb c (ch "9")
  then Some (Z.of_N (c - ch "0") + 52)
  else if N.eqb c (ch "+") then Some 62
  else if N.eqb c (ch "/") then Some 63
  else None.

(** The store into an [unsigned char]. *)
Definition byte (z : Z) : Z := Z.land z 255.

(** [binascii.a2b_base64] outside strict mode: the loop over the input
    with its state [quad_pos], [leftchar], [pads] and the bytes written.
    Characters outside the alphabet are skipped; a padding that completes
    a quad ends the decoding; input that ends inside a quad is an
    error. *)
Fixpoint a2b_loop (s : str) (quad_pos leftchar pads : Z) (out : list Z)
  : result (list Z) :=
  match s with
  | [] => if quad_pos =? 0 then Ok out else Raise BinasciiError
  | c :: s' =>
      if N.eqb c (ch "=") then
        if (2 <=? quad_pos) && (4 <=? quad_pos + (pads + 1)) then Ok out
        else a2b_loop s' quad_pos leftchar
               (if 2 <=? quad_pos then pads + 1 else pads) out
      else
        match a2b_char c with
        | None => a2b_loop s' quad_pos leftchar pads out
        | Some v =>
            if quad_pos =? 0 then a2b_loop s' 1 v 0 out
            else if quad_pos =? 1 then
              a2b_loop s' 2 (Z.land v 15) 0
                (out ++ [byte (Z.lor (Z.shiftl leftchar 2) (Z.shiftr v 4))])
            else if quad_pos =? 2 then
              a2b_loop s' 3 (Z.land v 3) 0
                (out ++ [byte (Z.lor (Z.shiftl leftchar 4) (Z.shiftr v 2))])
            else
              a2b_loop s' 0 0 0
                (out ++ [byte (Z.lor (Z.shiftl leftchar 6) v)])
        end
  end.

Definition a2b_base64 (s : str) : result (list Z) := a2b_loop s 0 0 0 [].

(** [base64.b64decode(s)]: text must be ASCII ([ValueError] otherwise),
    anything that is neither text nor bytes is a [TypeError]. *)
Definition b64decode (v : value) : result (list Z) :=
  match v with
  | VStr s =>
      if forallb (fun c => N.ltb c 128) s then a2b_base64 s
      else Raise ValueError
  | _ => Raise TypeError
  end.

Definition b2a_char (v : Z) : char :=
  if v <? 26 then (ch "A" + Z.to_N v)%N
  else if v <? 52 then (ch "a" + Z.to_N (v - 26))%N
  else if v <? 62 then (ch "0" + Z.to_N (v - 52))%N
  else if v =? 62 then ch "+"
  else ch "/".

(** [base64.b64encode], as text. *)
Fixpoint b64encode (bs : list Z) : str :=
  match bs with
  | [] => []
  | [a] =>
      [b2a_char (Z.shiftr a 2); b2a_char (Z.shiftl (Z.land a 3) 4);
       ch "="; ch "="]
  | [a; b] =>
      [b2a_char (Z.shiftr a 2);
       b2a_char (Z.lor (Z.shiftl (Z.land a 3) 4) (Z.shiftr b 4));
       b2a_char (Z.shiftl (Z.land b 15) 2); ch "="]
  | a :: b :: c :: rest =>
      [b2a_char (Z.shiftr a 2);
       b2a_char (Z.lor (Z.shiftl (Z.land a 3) 4) (Z.shiftr b 4));
       b2a_char (Z.lor (Z.shiftl (Z.land b 15) 2) (Z.shiftr c 6));
       b2a_char (Z.land c 63)]
      ++ b64encode rest
  end.

End Base64.

(** ** [struct]: little-endian float32 *)
Module Struct.

(** The 32-bit words of a buffer, least significant byte first. *)
Fixpoint words_le (raw : list Z) : list Z :=
  match raw with
  | b0 :: b1 :: b2 :: b3 :: rest =>
      Z.lor b0 (Z.lor (Z.shiftl b1 8)
                  (Z.lor (Z.shiftl b2 16) (Z.shiftl b3 24)))
      :: words_le rest
  | _ => []
  end.

(** [struct.unpack(f"<{n}f", raw)]: the buffer must hold exactly [4 * n]
    bytes. *)
Definition unpack_f32_le (n : Z) (raw : list Z) : result (list spec_float) :=
  if len raw =? 4 * n
  then Ok (map Float.of_bits32 (words_le raw))
  else Raise StructError.

(** [struct.pack(f"<{n}f", ...)] on float32 bit patterns. *)
Definition pack_words_le (ws : list Z) : list Z :=
  flat_map (fun w => [Z.land w 255; Z.land (Z.shiftr w 8) 255;
                      Z.land (Z.shiftr w 16) 255;
                      Z.land (Z.shiftr w 24) 255]) ws.

End Struct.

(** ** Built-ins used by the script *)

(** [round(v, ndigits)] for [0 <= ndigits]: a float is rounded, an integer
    is returned as it is, a boolean as an integer; nothing else can be
    rounded. *)
Definition py_round (v : value) (ndigits : Z) : result value :=
  match v with
  | VFloat f => Ok (VFloat (Float.round f ndigits))
  | VInt z => Ok (VInt z)
  | VBool b => Ok (VInt (if b then 1 else 0))
  | _ => Raise TypeError
  end.

(** The elements that [for v in obj] visits. *)
Definition py_iter (obj : value) : result (list value) :=
  match obj with
  | VList l => Ok l
  | VDict d => Ok (map fst d)
  | VStr s => Ok (map (fun c => VStr [c]) s)
  | _ => Raise TypeError
  end.

(** [obj[key]] for a string key. *)
Definition py_getitem (obj : value) (key : str) : result value :=
  match obj with
  | VDict d =>
      match Dict.lookup d (VStr key) with
      | Some v => Ok v
      | None => Raise KeyError
      end
  | _ => Raise TypeError
  end.

(** [obj.get(key, default)]: only a dict has the method. *)
Definition py_get (obj : value) (key : str) (default : value) : result value :=
  match obj with
  | VDict d => Ok (Dict.get d (VStr key) default)
  | _ => Raise AttributeError
  end.

(** The integers inside a value all have a decimal text: [str(n)] and
    [repr(n)] raise [ValueError] for an integer of more than
    [sys.int_info.default_max_str_digits] digits. *)
Fixpoint int_texts (v : value) : bool :=
  match v with
  | VInt z => Z.abs z <? 10 ^ Z.of_nat Json.max_str_digits
  | VList l => forallb int_texts l
  | VDict d => forallb (fun kv => int_texts (fst kv) && int_texts (snd kv)) d
  | _ => true
  end.

(** A surrogate code point: UTF-8 has no encoding for it. *)
Definition is_surrogate (c : char) : bool := N.leb 0xd800 c && N.leb c 0xdfff.

(** Why [print(f"... {name} ...")] fails, if it does.  Standard output is
    UTF-8 text with strict error handling.  A string is written as it is
    and cannot be encoded when it holds a surrogate code point (the JSON
    escape of a lone surrogate gives one); any other value is written
    through [str], which escapes the strings inside lists and dicts and
    fails only on an integer without a decimal text.  Either way the
    exception comes before anything of the line is written. *)
Definition print_error (name : value) : option exn :=
  match name with
  | VStr s =>
      if forallb (fun c => negb (is_surrogate c)) s then None
      else Some UnicodeEncodeError
  | _ => if int_texts name then None else Some ValueError
  end.

(** ** The script *)

(** The file system: the text of each file by path.  Files are UTF-8 text;
    reading gives the decoded text, and [json.dump], which writes ASCII
    only, gives the output file its text. *)
Abbreviation filesystem := (gmap string (list N)).

Definition marker : str := lit "Plotly.newPlot(".

(** The two opening patterns that [extract_traces] looks for: an array
    whose first object has the key [customdata], and an array that starts
    with any object. *)
Definition customdata_start : str := qlit "[{'customdata".
Definition object_start : str := qlit "[{'".

(** [extract_traces(html_path)] *)
Definition extract_traces (fs : filesystem) (html_path : string)
  : result value :=
  match fs !! html_path with
  | None => Raise FileNotFoundError
  | Some content =>
      let idx := Str.rfind content marker in
      if idx =? -1 then Raise ValueError
      else
        let after := Str.slice_from content idx in
        let bracket_start := Str.find after customdata_start in
        let bracket_start :=
          if bracket_start =? -1 then Str.find after object_start
          else bracket_start in
        '(traces, _) ← Json.raw_decode (Str.slice_from after bracket_start);
        Ok traces
  end.

(** [decode_binary_array(data)] *)
Definition decode_binary_array (data : value) : result (list value) :=
  bdata ← py_getitem data (lit "bdata");
  raw ← Base64.b64decode bdata;
  let n := len raw / 4 in
  values ← Struct.unpack_f32_le n raw;
  mapM_result (fun v => py_round (VFloat v) 2) values.

(** What the script prints, one constructor per [print] call.  The paths
    are text of code points below 256, which standard output can always
    encode; a trace name may fail to print, see [print_error]. *)
Inductive line : Type :=
| Line_not_found (html_path : string)
| Line_reading (html_path : string)
| Line_skipping (name : value)
| Line_points (name : value) (count : nat)
| Line_saved (output_path : string) (size_bytes : nat) (total : nat).

(** The local variables of [main] that the loop updates, and the lines
    printed so far. *)
Record state : Type := mkState {
  st_result : list (value * value);
  st_total : nat;
  st_out : list line
}.

(** One pass of the loop body either falls through to the next trace or
    leaves [main] by an exception. *)
Inductive step : Type :=
| Next (st : state)
| Abort (out : list line) (e : exn).

(** [[round(v, 2) for v in raw]] *)
Definition round_all (raw : value) : result (list value) :=
  vs ← py_iter raw; mapM_result (fun v => py_round v 2) vs.

(** The [if]/[elif]/[else] of the loop body: the three coordinate lists,
    or [None] for the branch that skips the trace. *)
Definition coordinates (x_raw y_raw z_raw : value)
  : result (option (list value * list value * list value)) :=
  match x_raw with
  | VDict d =>
      if Dict.mem d (VStr (lit "bdata")) then
        x ← decode_binary_array x_raw;
        y ← decode_binary_array y_raw;
        z ← decode_binary_array z_raw;
        Ok (Some (x, y, z))
      else Ok None
  | VList _ =>
      x ← round_all x_raw;
      y ← round_all y_raw;
      z ← round_all z_raw;
      Ok (Some (x, y, z))
  | _ => Ok None
  end.

(** The four [get] calls that open the loop body. *)
Definition fields (trace : value) : result (value * value * value * value) :=
  name ← py_get trace (lit "name") (VStr (lit "unknown"));
  x_raw ← py_get trace (lit "x") (VDict []);
  y_raw ← py_get trace (lit "y") (VDict []);
  z_raw ← py_get trace (lit "z") (VDict []);
  Ok (name, x_raw, y_raw, z_raw).

Definition entry (x y z : list value) : value :=
  VDict [(VStr (lit "x"), VList x); (VStr (lit "y"), VList y);
         (VStr (lit "z"), VList z)].

(** The body of [for trace in traces].  Both branches end with a [print]
    of the name; when that fails, the exception leaves [main] like any
    other, and what the body has stored by then is lost with the run. *)
Definition body (st : state) (trace : value) : step :=
  match fields trace with
  | Raise e => Abort (st_out st) e
  | Ok (name, x_raw, y_raw, z_raw) =>
      match coordinates x_raw y_raw z_raw with
      | Raise e => Abort (st_out st) e
      | Ok None =>
          match print_error name with
          | Some e => Abort (st_out st) e
          | None =>
              Next (mkState (st_result st) (st_total st)
                      (st_out st ++ [Line_skipping name]))
          end
      | Ok (Some (x, y, z)) =>
          if Dict.hashable name then
            match print_error name with
            | Some e => Abort (st_out st) e
            | None =>
                Next (mkState (Dict.set (st_result st) name (entry x y z))
                        (st_total st + length x)
                        (st_out st ++ [Line_points name (length x)]))
            end
          else Abort (st_out st) TypeError
      end
  end.

Fixpoint loop (traces : list value) (st : state) : step :=
  match traces with
  | [] => Next st
  | trace :: rest =>
      match body st trace with
      | Next st' => loop rest st'
      | Abort out e => Abort out e
      end
  end.

(** How the process ends: [sys.exit(code)] or falling off the end of the
    script (code 0), or an exception that nothing catches (the interpreter
    prints the traceback and exits with status 1). *)
Inductive status : Type :=
| Exited (code : Z)
| Crashed (e : exn).

Definition exit_code (s : status) : Z :=
  match s with
  | Exited c => c
  | Crashed _ => 1
  end.

Record run : Type := mkRun {
  run_fs : filesystem;
  run_out : list line;
  run_status : status
}.

Definition html_path_of (project_root : string) : string :=
  (project_root +:+ "/output/audio_classifier_3d.html")%string.
Definition output_path_of (project_root : string) : string :=
  (project_root +:+ "/portfolio_data.json")%string.

(** [main()], for the script installed under [project_root/scripts]. *)
Definition main (project_root : string) (fs : filesystem) : run :=
  let html_path := html_path_of project_root in
  let output_path := output_path_of project_root in
  match fs !! html_path with
  | None => mkRun fs [Line_not_found html_path] (Exited 1)
  | Some _ =>
      let out := [Line_reading html_path] in
      match extract_traces fs html_path ≫= py_iter with
      | Raise e => mkRun fs out (Crashed e)
      | Ok traces =>
          match loop traces (mkState [] 0 out) with
          | Abort out' e => mkRun fs out' (Crashed e)
          | Next st =>
              let text := JsonDump.dumps (VDict (st_result st)) in
              mkRun (<[output_path := text]> fs)
                    (st_out st
                     ++ [Line_saved output_path (length text) (st_total st)])
                    (Exited 0)
          end
      end
  end.

(** ** Vocabulary of the properties, and sample pages *)

(** The index in [content] at which the text that [extract_traces] hands to
    the decoder starts: the index of the last marker plus the index of the
    opening pattern behind it. *)
Definition trace_offset (content : str) : Z :=
  let idx := Str.rfind content marker in
  let after := Str.slice_from content idx in
  let bracket_start := Str.find after customdata_start in
  let bracket_start :=
    if bracket_start =? -1 then Str.find after object_start
    else bracket_start in
  if bracket_start =? -1 then len content - 1 else idx + bracket_start.

(** The value that the decoder finds at index [off] of [content]. *)
Definition decode_at (content : str) (off : Z) : result value :=
  '(traces, _) ← Json.raw_decode (drop (Z.to_nat off) content); Ok traces.

(** A page with the marker once in library code and once for the plot. *)
Definition two_plots : str :=
  qlit "<script>/* lib */ Plotly.newPlot(gd,data) </script><script>Plotly.newPlot('id',[{'name':'a','x':[1],'y':[2],'z':[3]}],{})</script>".

(** A page whose plot call carries no array literal and that ends in a
    digit. *)
Definition page_without_array : str :=
  lit "<script>Plotly.newPlot(gd, data, layout)</script><!-- build 7".

(** The mapping and the count do not depend on what was printed. *)
Definition same_data (a b : state) : Prop :=
  st_result a = st_result b /\ st_total a = st_total b.

(** Two passes of the loop end alike: in states with the same data, or by
    the same exception. *)
Definition same_step (x y : step) : Prop :=
  match x, y with
  | Next a, Next b => same_data a b
  | Abort _ e, Abort _ e' => e = e'
  | _, _ => False
  end.

(** A field that is neither a list nor a dict with a [bdata] key. *)
Definition unknown_form (v : value) : bool :=
  match v with
  | VList _ => false
  | VDict d => negb (Dict.mem d (VStr (lit "bdata")))
  | _ => true
  end.

(** Three traces; the second has [null] for [y], respectively for [x]. *)
Definition page_null_y : str :=
  qlit "<script>Plotly.newPlot('id',[{'name':'a','x':[1.5],'y':[2.5],'z':[3.5]},{'name':'b','x':[1.5],'y':null,'z':[3.5]},{'name':'c','x':[4.5],'y':[5.5],'z':[6.5]}],{})</script>".

Definition page_null_x : str :=
  qlit "<script>Plotly.newPlot('id',[{'name':'a','x':[1.5],'y':[2.5],'z':[3.5]},{'name':'b','x':null,'y':[2.5],'z':[3.5]},{'name':'c','x':[4.5],'y':[5.5],'z':[6.5]}],{})</script>".

(** A JSON number: an integer or a float. *)
Definition is_number (v : value) : bool :=
  match v with
  | VInt _ | VFloat _ => true
  | _ => false
  end.

(** The entry that the loop body stores for a trace that it processes. *)
Definition trace_entry (trace : value) : option value :=
  match fields trace with
  | Ok (_, x_raw, y_raw, z_raw) =>
      match coordinates x_raw y_raw z_raw with
      | Ok (Some (x, y, z)) => Some (entry x y z)
      | _ => None
      end
  | Raise _ => None
  end.

(** A trace object without a [name] key whose fields decode. *)
Definition nameless (trace : value) : Prop :=
  exists d e, trace = VDict d /\
              Dict.lookup d (VStr (lit "name")) = None /\
              trace_entry trace = Some e.

(** The key that a trace without a name is stored under. *)
Definition unknown_key : value := VStr (lit "unknown").

(** The mapping after one more nameless trace. *)
Definition store_unknown (r : list (value * value)) (t : value)
  : list (value * value) :=
  match trace_entry t with
  | Some e => Dict.set r unknown_key e
  | None => r
  end.

(** The floats that the texts [1.005], [2.0], [0.0] and [1.0] denote. *)
Definition f_1_005 : spec_float := Float.of_decimal false 1005 (-3).
Definition f_2_0 : spec_float := Float.of_decimal false 20 (-1).
Definition f_0_0 : spec_float := Float.of_decimal false 0 (-1).
Definition f_1_0 : spec_float := Float.of_decimal false 10 (-1).

(** The end-to-end example: the expected output and a page for it. *)
Definition cat_output : str :=
  qlit "{'cat':{'x':[1.0,2.0],'y':[0.0,0.0],'z':[0.0,0.0]}}".

Definition cat_page : str :=
  qlit "<html><head><script>/* plotly.js */ function f(){Plotly.newPlot(gd,[],{})}</script></head><body><div id='id'></div><script>Plotly.newPlot('id',[{'customdata':[],'name':'cat','x':[1.005,2.0],'y':[0.0,0.0],'z':[0.0,0.0]}], {'title':'t'})</script></body></html>".

(** The integers [0 .. n-1], to check a property of bytes by enumeration. *)
Definition below (n : nat) : list Z := map Z.of_nat (seq 0 n).

Definition is_byte (b : Z) : Prop := 0 <= b < 256.

(** The four characters that encode three bytes. *)
Definition sextet1 (a : Z) : Z := Z.shiftr a 2.
Definition sextet2 (a b : Z) : Z :=
  Z.lor (Z.shiftl (Z.land a 3) 4) (Z.shiftr b 4).
Definition sextet3 (b c : Z) : Z :=
  Z.lor (Z.shiftl (Z.land b 15) 2) (Z.shiftr c 6).
Definition sextet4 (c : Z) : Z := Z.land c 63.

(** The bit pattern of a float32. *)
Definition is_word32 (w : Z) : Prop := 0 <= w < 2 ^ 32.

(** The packed form of a sequence of float32 values, as the page carries
    it. *)
Definition packed (ws : list Z) : value :=
  VDict [(VStr (lit "dtype"), VStr (lit "f4"));
         (VStr (lit "bdata"),
          VStr (Base64.b64encode (Struct.pack_words_le ws)))].

(** The same values as a plain array. *)
Definition plain (ws : list Z) : value :=
  VList (map (fun w => VFloat (Float.of_bits32 w)) ws).

(** What both forms are to yield: each value rounded at two decimals. *)
Definition rounded (ws : list Z) : list value :=
  map (fun w => VFloat (Float.round (Float.of_bits32 w) 2)) ws.


(** ** Further vocabulary: the locator, the decoder and the runs *)

(** *** The locator *)

(** The document from its last marker on: the text in which
    [extract_traces] looks for the array. *)
Definition after_marker (content : str) : str :=
  Str.slice_from content (Str.rfind content marker).

(** A page without the marker. *)
Definition page_without_marker : str :=
  qlit "<html><body><script>Plotly.react('id',[{'x':[1]}])</script></body></html>".

(** A page whose plot call has a plain array first and an array with
    [customdata] behind it. *)
Definition page_two_arrays : str :=
  qlit "<script>Plotly.newPlot('id',[{'name':'a','x':[1],'y':[2],'z':[3]}],{'frames':[{'customdata':[7]}]})</script>".

(** The text that [extract_traces] hands to the decoder. *)
Definition array_text (content : str) : str :=
  let after := after_marker content in
  let bracket_start := Str.find after customdata_start in
  let bracket_start :=
    if bracket_start =? -1 then Str.find after object_start
    else bracket_start in
  Str.slice_from after bracket_start.

(** *** The binary array decoder *)

(** A character that the base64 decoder reads: one of the alphabet, or the
    padding sign.  Every other character is foreign to it. *)
Definition significant (c : N) : bool :=
  N.eqb c (ch "=")
  || match Base64.a2b_char c with Some _ => true | None => false end.

(** A packed field with the given text. *)
Definition bdata_of (s : str) : value :=
  VDict [(VStr (lit "bdata"), VStr s)].

(** *** The loop and the runs *)

(** The number of points that a printed line reports. *)
Definition line_points (l : line) : nat :=
  match l with
  | Line_points _ n => n
  | _ => 0
  end.

(** The lines that the loop prints: one per trace. *)
Definition is_trace_line (l : line) : bool :=
  match l with
  | Line_points _ _ | Line_skipping _ => true
  | _ => false
  end.

(** [trace.get("name", "unknown")] of a trace object. *)
Definition trace_name (trace : value) : value :=
  match trace with
  | VDict d => Dict.get d (VStr (lit "name")) (VStr (lit "unknown"))
  | _ => VNone
  end.

(** A trace that the loop takes without an exception: an object with a
    name that can be printed, whose [x] is of unknown form, or whose name
    is hashable and whose [x], [y] and [z] are three plain arrays of
    numbers or three packed sequences of float32 values. *)
Definition processable (trace : value) : Prop :=
  exists d, trace = VDict d /\
    print_error (trace_name trace) = None /\
    let x := Dict.get d (VStr (lit "x")) (VDict []) in
    let y := Dict.get d (VStr (lit "y")) (VDict []) in
    let z := Dict.get d (VStr (lit "z")) (VDict []) in
    (unknown_form x = true \/
     (Dict.hashable (trace_name trace) = true /\
      ((exists xs ys zs,
           x = VList xs /\ y = VList ys /\ z = VList zs /\
           forallb is_number xs = true /\ forallb is_number ys = true /\
           forallb is_number zs = true) \/
       (exists xs ys zs,
           x = packed xs /\ y = packed ys /\ z = packed zs /\
           Forall is_word32 xs /\ Forall is_word32 ys /\
           Forall is_word32 zs)))).

(** The run ended with status 0. *)
Definition succeeded (s : status) : bool :=
  match s with
  | Exited 0 => true
  | _ => false
  end.

(** Two traces named [a] around one named [b]. *)
Definition traces_a_b_a : list value :=
  [VDict [(VStr (lit "name"), VStr (lit "a")); (VStr (lit "x"), VList [VInt 1]);
          (VStr (lit "y"), VList [VInt 2]); (VStr (lit "z"), VList [VInt 3])];
   VDict [(VStr (lit "name"), VStr (lit "a")); (VStr (lit "x"), VList [VInt 4]);
          (VStr (lit "y"), VList [VInt 5]); (VStr (lit "z"), VList [VInt 6])];
   VDict [(VStr (lit "name"), VStr (lit "b")); (VStr (lit "x"), VList [VInt 7]);
          (VStr (lit "y"), VList [VInt 8]); (VStr (lit "z"), VList [VInt 9])]].

(** A page with a plain trace, a packed trace and a trace without
    coordinates. *)
Definition page_three_forms : str :=
  qlit "<script>Plotly.newPlot('id',[{'name':'a','x':[1,2],'y':[3,4],'z':[5,6]},{'name':'b','x':{'dtype':'f4','bdata':'AACAPw=='},'y':{'dtype':'f4','bdata':'AACAPw=='},'z':{'dtype':'f4','bdata':'AACAPw=='}},{'name':'c'}],{})</script>".

(** The traces of that page. *)
Definition three_forms : list value :=
  [VDict [(VStr (lit "name"), VStr (lit "a"));
          (VStr (lit "x"), VList [VInt 1; VInt 2]);
          (VStr (lit "y"), VList [VInt 3; VInt 4]);
          (VStr (lit "z"), VList [VInt 5; VInt 6])];
   VDict [(VStr (lit "name"), VStr (lit "b"));
          (VStr (lit "x"), packed [0x3f800000]);
          (VStr (lit "y"), packed [0x3f800000]);
          (VStr (lit "z"), packed [0x3f800000])];
   VDict [(VStr (lit "name"), VStr (lit "c"))]].

(** *** The text written *)

(** A printable ASCII character: no control character, no line break,
    nothing beyond one byte in UTF-8. *)
Definition printable (c : N) : bool := N.leb 32 c && N.leb c 126.

Definition is_string (v : value) : bool :=
  match v with
  | VStr _ => true
  | _ => false
  end.

(** The keys of a mapping, in its order. *)
Definition keys (d : list (value * value)) : list value := map fst d.

(** An entry of the output: an object with exactly the keys [x], [y] and
    [z], in this order, each with a list of numbers. *)
Definition coordinate_entry (v : value) : bool :=
  match v with
  | VDict [(VStr kx, VList x); (VStr ky, VList y); (VStr kz, VList z)] =>
      str_eqb kx (lit "x") && str_eqb ky (lit "y") && str_eqb kz (lit "z")
      && forallb is_number x && forallb is_number y && forallb is_number z
  | _ => false
  end.

(** A mapping from hashable names to such entries. *)
Definition coordinate_mapping (d : list (value * value)) : bool :=
  forallb (fun kv => Dict.hashable (fst kv) && coordinate_entry (snd kv)) d.

(** A Unicode scalar value: a code point that is not a surrogate. *)
Definition scalar (c : N) : bool :=
  N.ltb c 0x110000 && negb (N.leb 0xd800 c && N.leb c 0xdfff).

(** * Properties *)

Lemma bind_Ok {A B} (a : A) (k : A -> result B) : (Ok a ≫= k) = k a.
Proof. reflexivity. Qed.

Lemma bind_Raise {A B} (e : exn) (k : A -> result B) : (Raise e ≫= k) = Raise e.
Proof. reflexivity. Qed.

(** ** Searching and slicing *)
Section StrFacts.

Lemma len_nonneg {A} (l : list A) : 0 <= len l.
Proof. unfold len. lia. Qed.

Lemma len_drop {A} (l : list A) (n : nat) :
  (n <= length l)%nat -> len (drop n l) = len l - Z.of_nat n.
Proof. intros H. unfold len. rewrite length_drop. lia. Qed.

(** The scan of [find] returns either [-1], when [sub] starts nowhere in
    [s], or the index of its first occurrence. *)
Lemma find_from_spec (sub s : str) (i : Z) :
  0 <= i ->
  (Str.find_from sub s i = -1 /\
   forall k : nat, (k <= length s)%nat -> Str.prefixb sub (drop k s) = false)
  \/
  (exists k : nat,
      Str.find_from sub s i = i + Z.of_nat k /\ (k <= length s)%nat /\
      Str.prefixb sub (drop k s) = true /\
      forall j : nat, (j < k)%nat -> Str.prefixb sub (drop j s) = false).
Proof.
  revert i. induction s as [|c s IH]; intros i Hi; simpl.
  - destruct (Str.prefixb sub []) eqn:E.
    + right. exists 0%nat. repeat split; auto; try lia.
    + left. split; auto. intros k Hk. simpl in Hk.
      replace k with 0%nat by lia. exact E.
  - destruct (Str.prefixb sub (c :: s)) eqn:E.
    + right. exists 0%nat. repeat split; auto; try lia.
    + destruct (IH (i + 1)) as [[H1 H2]|(k & H1 & H2 & H3 & H4)]; [lia| |].
      * left. split; auto. intros [|k] Hk; simpl; auto.
        apply H2. simpl in Hk. lia.
      * right. exists (S k). repeat split; simpl; auto; try lia.
        intros [|j] Hj; simpl; auto. apply H4. lia.
Qed.

(** The scan of [rfind] returns either [-1], when [sub] starts nowhere in
    [s], or the index of its last occurrence. *)
Lemma rfind_from_spec (sub s : str) (i : Z) :
  0 <= i ->
  (Str.rfind_from sub s i = -1 /\
   forall k : nat, (k <= length s)%nat -> Str.prefixb sub (drop k s) = false)
  \/
  (exists k : nat,
      Str.rfind_from sub s i = i + Z.of_nat k /\ (k <= length s)%nat /\
      Str.prefixb sub (drop k s) = true /\
      forall j : nat, (k < j <= length s)%nat ->
                      Str.prefixb sub (drop j s) = false).
Proof.
  revert i. induction s as [|c s IH]; intros i Hi; simpl.
  - destruct (Str.prefixb sub []) eqn:E.
    + right. exists 0%nat. repeat split; auto; try lia.
    + left. split; auto. intros k Hk. simpl in Hk.
      replace k with 0%nat by lia. exact E.
  - destruct (IH (i + 1)) as [[H1 H2]|(k & H1 & H2 & H3 & H4)]; [lia| |].
    + rewrite H1. simpl.
      destruct (Str.prefixb sub (c :: s)) eqn:E.
      * right. exists 0%nat. repeat split; simpl; auto; try lia.
        intros [|j] Hj; [lia|]. simpl. apply H2. lia.
      * left. split; auto. intros [|k] Hk; simpl; auto.
        apply H2. simpl in Hk. lia.
    + rewrite H1.
      destruct (i + 1 + Z.of_nat k =? -1) eqn:E; [lia|].
      right. exists (S k). repeat split; simpl; auto; try lia.
      intros [|j] Hj; [lia|]. simpl. apply H4. lia.
Qed.

Lemma occurs_at_nat (sub s : str) (k : Z) :
  Str.occurs_at sub s k <->
  exists n : nat, k = Z.of_nat n /\ (n <= length s)%nat /\
                  Str.prefixb sub (drop n s) = true.
Proof.
  unfold Str.occurs_at, len. split.
  - intros [Hk Hp]. exists (Z.to_nat k). repeat split; auto; lia.
  - intros (n & -> & Hn & Hp). rewrite Nat2Z.id. split; auto. lia.
Qed.

(** [rfind] finds the last occurrence, when there is one. *)
Lemma rfind_last (sub s : str) (k : Z) :
  Str.occurs_at sub s k ->
  Str.occurs_at sub s (Str.rfind s sub) /\ k <= Str.rfind s sub.
Proof.
  intros Hk. apply occurs_at_nat in Hk as (n & -> & Hn & Hp).
  unfold Str.rfind.
  destruct (rfind_from_spec sub s 0) as [[_ H]|(m & -> & Hm & Hpm & Hlast)];
    [lia| |].
  - rewrite H in Hp by assumption. discriminate.
  - split.
    + apply occurs_at_nat. exists m. repeat split; auto.
    + destruct (Nat.le_gt_cases n m) as [|Hlt]; [lia|].
      rewrite Hlast in Hp by lia. discriminate.
Qed.

Lemma rfind_none (sub s : str) :
  Str.rfind s sub = -1 -> forall k, ~ Str.occurs_at sub s k.
Proof.
  intros H k Hk. apply rfind_last in Hk as [Hk _].
  rewrite H in Hk. destruct Hk as [? _]. lia.
Qed.

(** [find] returns [-1] or an index within the text. *)
Lemma find_range (s sub : str) :
  Str.find s sub = -1 \/ 0 <= Str.find s sub <= len s.
Proof.
  unfold Str.find, len.
  destruct (find_from_spec sub s 0) as [[-> _]|(k & -> & Hk & _)];
    [lia|auto|right; lia].
Qed.

Lemma find_none (s sub : str) :
  Str.find s sub = -1 -> forall k, ~ Str.occurs_at sub s k.
Proof.
  unfold Str.find. intros H k Hk.
  apply occurs_at_nat in Hk as (n & -> & Hn & Hp).
  destruct (find_from_spec sub s 0) as [[_ H2]|(m & Hm & _)]; [lia| |].
  - rewrite H2 in Hp by assumption. discriminate.
  - lia.
Qed.

Lemma slice_from_nonneg (s : str) (i : Z) :
  0 <= i -> Str.slice_from s i = drop (Z.to_nat i) s.
Proof.
  intros H. unfold Str.slice_from.
  destruct (i <? 0) eqn:E; [lia|reflexivity].
Qed.

(** [s[-1:]] is the last character of a non-empty text. *)
Lemma slice_from_minus_one (s : str) :
  0 < len s -> Str.slice_from s (-1) = drop (Z.to_nat (len s - 1)) s.
Proof.
  intros H. unfold Str.slice_from. simpl.
  f_equal. lia.
Qed.

Lemma prefixb_length (sub s : str) :
  Str.prefixb sub s = true -> (length sub <= length s)%nat.
Proof.
  revert s. induction sub as [|a sub IH]; intros [|b s]; simpl;
    try discriminate; try lia.
  intros H. apply andb_true_iff in H as [_ H]. apply IH in H. lia.
Qed.

End StrFacts.

(** ** The trace locator *)

Lemma extract_traces_at_offset (fs : filesystem) path content k :
  fs !! path = Some content ->
  Str.occurs_at marker content k ->
  let idx := Str.rfind content marker in
  idx <= trace_offset content <= len content /\
  extract_traces fs path = decode_at content (trace_offset content).
Proof.
  intros Hfs Hk idx.
  destruct (rfind_last _ _ _ Hk) as [Hidx _]. fold idx in Hidx.
  destruct Hidx as [Hr Hp].
  pose proof (prefixb_length _ _ Hp) as Hlen.
  rewrite length_drop in Hlen. change (length marker) with 15%nat in Hlen.
  unfold extract_traces, trace_offset, decode_at. rewrite Hfs. fold idx.
  destruct (idx =? -1) eqn:E; [lia|].
  rewrite (slice_from_nonneg content idx) by lia.
  set (after := drop (Z.to_nat idx) content).
  assert (Hafter : len after = len content - idx).
  { unfold after. rewrite len_drop; unfold len in *; lia. }
  set (b := if Str.find after customdata_start =? -1
            then Str.find after object_start
            else Str.find after customdata_start).
  assert (Hb : b = -1 \/ 0 <= b <= len after).
  { unfold b. destruct (Str.find after customdata_start =? -1) eqn:E1.
    - apply find_range.
    - destruct (find_range after customdata_start); [lia|auto]. }
  unfold len in *.
  destruct Hb as [Hb|Hb].
  - rewrite Hb. simpl (-1 =? -1).
    rewrite slice_from_minus_one by (unfold len; lia).
    unfold after at 2. rewrite drop_drop. unfold len.
    split; [lia|]. do 3 f_equal. lia.
  - destruct (b =? -1) eqn:E2; [lia|].
    rewrite slice_from_nonneg by lia.
    unfold after. rewrite drop_drop.
    split; [lia|]. do 3 f_equal. lia.
Qed.

(** C1.  In a document where the marker [Plotly.newPlot(] occurs at least
    twice, [extract_traces] works from the last occurrence: [rfind] returns
    the index of the final occurrence, the offset at which decoding starts
    lies at or after it, and the value returned is the one decoded at that
    offset. *)
Theorem extract_traces_uses_last_marker
    (fs : filesystem) (path : string) (content : str) (i j : Z) :
  fs !! path = Some content ->
  Str.occurs_at marker content i ->
  Str.occurs_at marker content j ->
  i < j ->
  let idx := Str.rfind content marker in
  let off := trace_offset content in
  Str.occurs_at marker content idx /\
  (forall k, Str.occurs_at marker content k -> k <= idx) /\
  i < idx /\ idx <= off <= len content /\
  extract_traces fs path = decode_at content off.
Proof.
  intros Hfs Hi Hj Hij idx off.
  destruct (rfind_last _ _ _ Hj) as [Hidx Hle]. fold idx in Hidx, Hle.
  destruct (extract_traces_at_offset fs path content j Hfs Hj) as [Hoff Heq].
  split; [exact Hidx|].
  split; [intros k Hk; apply (rfind_last _ _ _ Hk)|].
  split; [lia|]. split; [exact Hoff|exact Heq].
Qed.

Lemma extract_traces_uses_last_marker_witness :
  let fs : filesystem := {[ "page.html"%string := two_plots ]} in
  Str.rfind two_plots marker = 59 /\
  trace_offset two_plots = 79 /\
  extract_traces fs "page.html" = decode_at two_plots (trace_offset two_plots).
Proof.
  intros fs.
  pose proof (extract_traces_uses_last_marker fs "page.html" two_plots 18 59)
    as H.
  destruct H as (_ & _ & _ & _ & H).
  - reflexivity.
  - split; [vm_compute; split; discriminate | vm_compute; reflexivity].
  - split; [vm_compute; split; discriminate | vm_compute; reflexivity].
  - lia.
  - split; [vm_compute; reflexivity|].
    split; [vm_compute; reflexivity|]. exact H.
Defined.

(** When neither opening pattern occurs behind the last marker, both
    searches return [-1] and the slice [after[-1:]] hands the decoder the
    last character of the document. *)
Lemma extract_traces_no_pattern (fs : filesystem) path content k :
  fs !! path = Some content ->
  Str.occurs_at marker content k ->
  let after := Str.slice_from content (Str.rfind content marker) in
  Str.find after customdata_start = -1 ->
  Str.find after object_start = -1 ->
  extract_traces fs path = decode_at content (len content - 1).
Proof.
  intros Hfs Hk after H1 H2.
  destruct (extract_traces_at_offset fs path content k Hfs Hk) as [_ ->].
  unfold trace_offset. fold after. rewrite H1. simpl (-1 =? -1).
  rewrite H2. reflexivity.
Qed.

(** C3.  On a page that has the marker but no array opening behind it and
    that ends in a digit, [extract_traces] does not fail: the second search
    returns [-1], the slice keeps the last character, and the decoder
    returns the integer 7 as the "traces".  The run then ends in [main] by
    the [TypeError] of iterating over an integer. *)
Theorem extract_traces_missing_array_returns :
  let fs : filesystem :=
    {[ "/p/output/audio_classifier_3d.html"%string := page_without_array ]} in
  let after :=
    Str.slice_from page_without_array (Str.rfind page_without_array marker) in
  Str.occurs_at marker page_without_array 8 /\
  Str.find after customdata_start = -1 /\
  Str.find after object_start = -1 /\
  extract_traces fs "/p/output/audio_classifier_3d.html" = Ok (VInt 7) /\
  run_status (main "/p" fs) = Crashed TypeError.
Proof.
  intros fs after.
  split; [split; [vm_compute; split; discriminate | vm_compute; reflexivity]|].
  repeat split; vm_compute; reflexivity.
Qed.

(** ** The loop over the traces *)

Lemma fields_dict (d : list (value * value)) :
  fields (VDict d) =
  Ok (Dict.get d (VStr (lit "name")) (VStr (lit "unknown")),
      Dict.get d (VStr (lit "x")) (VDict []),
      Dict.get d (VStr (lit "y")) (VDict []),
      Dict.get d (VStr (lit "z")) (VDict [])).
Proof. reflexivity. Qed.

Lemma loop_app (pre post : list value) (st : state) :
  loop (pre ++ post) st =
  match loop pre st with
  | Next st' => loop post st'
  | Abort out e => Abort out e
  end.
Proof.
  revert st. induction pre as [|t pre IH]; intros st; simpl; [reflexivity|].
  destruct (body st t); [apply IH|reflexivity].
Qed.

Lemma body_same_data (a b : state) (t : value) :
  same_data a b -> same_step (body a t) (body b t).
Proof.
  intros [Hr Ht]. unfold body.
  destruct (fields t) as [[[[name x] y] z]|e]; simpl; [|reflexivity].
  destruct (coordinates x y z) as [[[[cx cy] cz]|]|e]; simpl;
    [| |reflexivity].
  - destruct (Dict.hashable name); simpl; [|reflexivity].
    destruct (print_error name); simpl; [reflexivity|].
    split; simpl; congruence.
  - destruct (print_error name); simpl; [reflexivity|].
    split; assumption.
Qed.

Lemma loop_same_data (ts : list value) (a b : state) :
  same_data a b -> same_step (loop ts a) (loop ts b).
Proof.
  revert a b. induction ts as [|t ts IH]; intros a b H; simpl; [exact H|].
  pose proof (body_same_data a b t H) as Hs.
  destruct (body a t), (body b t); simpl in Hs; try contradiction.
  - apply IH, Hs.
  - exact Hs.
Qed.

Lemma coordinates_unknown (x y z : value) :
  unknown_form x = true -> coordinates x y z = Ok None.
Proof.
  destruct x; simpl; try reflexivity; try discriminate.
  intros H. apply negb_true_iff in H. rewrite H. reflexivity.
Qed.

Lemma body_skip (st : state) (d : list (value * value)) :
  unknown_form (Dict.get d (VStr (lit "x")) (VDict [])) = true ->
  print_error (Dict.get d (VStr (lit "name")) (VStr (lit "unknown"))) = None ->
  body st (VDict d) =
  Next (mkState (st_result st) (st_total st)
          (st_out st
           ++ [Line_skipping
                 (Dict.get d (VStr (lit "name")) (VStr (lit "unknown")))])).
Proof.
  intros H Hp. unfold body. rewrite fields_dict.
  rewrite coordinates_unknown by exact H. rewrite Hp. reflexivity.
Qed.

Lemma body_out_grows (st st' : state) (t : value) :
  body st t = Next st' -> exists l, st_out st' = st_out st ++ l.
Proof.
  unfold body.
  destruct (fields t) as [[[[name x] y] z]|e]; [|discriminate].
  destruct (coordinates x y z) as [[[[cx cy] cz]|]|e]; [| |discriminate].
  - destruct (Dict.hashable name); [|discriminate].
    destruct (print_error name); [discriminate|].
    intros [= <-]. eexists. reflexivity.
  - destruct (print_error name); [discriminate|].
    intros [= <-]. eexists. reflexivity.
Qed.

Lemma loop_out_grows (ts : list value) (st st' : state) :
  loop ts st = Next st' -> exists l, st_out st' = st_out st ++ l.
Proof.
  revert st. induction ts as [|t ts IH]; intros st; simpl.
  - intros [= <-]. exists []. rewrite app_nil_r. reflexivity.
  - destruct (body st t) as [st1|] eqn:E; [|discriminate].
    intros H. apply IH in H as [l2 H2].
    apply body_out_grows in E as [l1 H1].
    exists (l1 ++ l2). rewrite H2, H1, app_assoc. reflexivity.
Qed.

(** ** Runs of [main] *)

Lemma extract_traces_reads (fs : filesystem) (path : string) (v : value) :
  extract_traces fs path = Ok v -> exists content, fs !! path = Some content.
Proof.
  unfold extract_traces. destruct (fs !! path) as [c|]; [eauto|discriminate].
Qed.

(** A run whose traces are all processed writes the mapping and ends with
    status 0. *)
Lemma main_completes (root : string) (fs : filesystem) ts st :
  extract_traces fs (html_path_of root) = Ok (VList ts) ->
  loop ts (mkState [] 0 [Line_reading (html_path_of root)]) = Next st ->
  main root fs =
  mkRun (<[output_path_of root := JsonDump.dumps (VDict (st_result st))]> fs)
        (st_out st
         ++ [Line_saved (output_path_of root)
               (length (JsonDump.dumps (VDict (st_result st))))
               (st_total st)])
        (Exited 0).
Proof.
  intros Hx Hl. destruct (extract_traces_reads _ _ _ Hx) as [c Hc].
  unfold main. rewrite Hc, Hx. simpl. rewrite Hl. reflexivity.
Qed.

(** A run that an exception leaves inside the loop writes nothing. *)
Lemma main_aborts (root : string) (fs : filesystem) ts out e :
  extract_traces fs (html_path_of root) = Ok (VList ts) ->
  loop ts (mkState [] 0 [Line_reading (html_path_of root)]) = Abort out e ->
  main root fs = mkRun fs out (Crashed e).
Proof.
  intros Hx Hl. destruct (extract_traces_reads _ _ _ Hx) as [c Hc].
  unfold main. rewrite Hc, Hx. simpl. rewrite Hl. reflexivity.
Qed.

(** ** Traces of unknown form *)

(** C2.  The code does not treat [y] and [z] as the claim says.  On a page
    with three traces of which the second has [y = null] beside a plain
    array for [x], the trace is not skipped: the branch is chosen from [x]
    alone, rounding the elements of [null] raises [TypeError], and the run
    ends by that exception, with status 1 and without output.  The same
    page with [x = null] instead is handled as the claim says: the trace is
    skipped with its diagnostic, the run ends with status 0 and the output
    holds the entries of traces 1 and 3. *)
Theorem null_y_trace_aborts_run :
  let fs : filesystem :=
    {[ "/p/output/audio_classifier_3d.html"%string := page_null_y ]} in
  let fs' : filesystem :=
    {[ "/p/output/audio_classifier_3d.html"%string := page_null_x ]} in
  (exists t1 d2 t3,
      extract_traces fs "/p/output/audio_classifier_3d.html"
      = Ok (VList [t1; VDict d2; t3]) /\
      Dict.lookup d2 (VStr (lit "y")) = Some VNone /\
      unknown_form VNone = true) /\
  run_status (main "/p" fs) = Crashed TypeError /\
  exit_code (run_status (main "/p" fs)) = 1 /\
  run_fs (main "/p" fs) !! "/p/portfolio_data.json"%string = None /\
  (exists t1 d2 t3,
      extract_traces fs' "/p/output/audio_classifier_3d.html"
      = Ok (VList [t1; VDict d2; t3]) /\
      Dict.lookup d2 (VStr (lit "x")) = Some VNone) /\
  run_status (main "/p" fs') = Exited 0 /\
  run_fs (main "/p" fs') !! "/p/portfolio_data.json"%string
  = Some (qlit "{'a':{'x':[1.5],'y':[2.5],'z':[3.5]},'c':{'x':[4.5],'y':[5.5],'z':[6.5]}}") /\
  In (Line_skipping (VStr (lit "b"))) (run_out (main "/p" fs')).
Proof.
  intros fs fs'. split.
  { eexists _, _, _. split; [vm_compute; reflexivity|].
    split; vm_compute; reflexivity. }
  split; [vm_compute; reflexivity|].
  split; [vm_compute; reflexivity|].
  split; [vm_compute; reflexivity|].
  split.
  { eexists _, _, _. split; [vm_compute; reflexivity|].
    vm_compute; reflexivity. }
  split; [vm_compute; reflexivity|].
  split; [vm_compute; reflexivity|].
  vm_compute. right. right. left. reflexivity.
Qed.

(** X21.  A trace whose [x] field is neither a list nor a dict with a
    [bdata] key (null, a bare string, a number, or no [x] at all) and whose
    name can be printed is skipped: the loop body prints the diagnostic,
    leaves the mapping and the count as they are and goes on; and when the
    other traces are processed, the run ends with status 0 and writes
    exactly the mapping that the document without this trace gives. *)
Theorem unknown_x_trace_is_skipped
    (root : string) (fs : filesystem)
    (pre post : list value) (d : list (value * value)) (st' : state) :
  let name := Dict.get d (VStr (lit "name")) (VStr (lit "unknown")) in
  let r := main root fs in
  unknown_form (Dict.get d (VStr (lit "x")) (VDict [])) = true ->
  print_error name = None ->
  extract_traces fs (html_path_of root) = Ok (VList (pre ++ VDict d :: post)) ->
  loop (pre ++ post) (mkState [] 0 [Line_reading (html_path_of root)])
  = Next st' ->
  (forall st,
      body st (VDict d) =
      Next (mkState (st_result st) (st_total st)
              (st_out st ++ [Line_skipping name]))) /\
  run_status r = Exited 0 /\
  run_fs r
  = <[output_path_of root := JsonDump.dumps (VDict (st_result st'))]> fs /\
  In (Line_skipping name) (run_out r).
Proof.
  intros name r Hx Hp Hdoc Hloop.
  split; [intros st; apply body_skip; [exact Hx|exact Hp]|].
  rewrite loop_app in Hloop.
  destruct (loop pre _) as [st1|] eqn:Hpre; [|discriminate].
  set (st2 := mkState (st_result st1) (st_total st1)
                (st_out st1 ++ [Line_skipping name])).
  assert (Hsame : same_data st1 st2) by (split; reflexivity).
  pose proof (loop_same_data post st1 st2 Hsame) as Hpost.
  rewrite Hloop in Hpost.
  destruct (loop post st2) as [st3|] eqn:Hpost2; [|contradiction].
  destruct Hpost as [Hres Htot].
  assert (Hall : loop (pre ++ VDict d :: post)
                   (mkState [] 0 [Line_reading (html_path_of root)])
                 = Next st3).
  { rewrite loop_app, Hpre. simpl. rewrite body_skip by assumption.
    exact Hpost2. }
  subst r. rewrite (main_completes root fs _ st3 Hdoc Hall). simpl.
  split; [reflexivity|]. split; [rewrite Hres; reflexivity|].
  apply loop_out_grows in Hpost2 as [l Hl]. rewrite Hl. subst st2. simpl.
  rewrite !in_app_iff. left. left. right. left. reflexivity.
Qed.

Lemma unknown_x_trace_is_skipped_witness :
  let fs : filesystem :=
    {[ "/p/output/audio_classifier_3d.html"%string := page_null_x ]} in
  let r := main "/p" fs in
  run_status r = Exited 0 /\
  run_fs r !! "/p/portfolio_data.json"%string
  = Some (qlit "{'a':{'x':[1.5],'y':[2.5],'z':[3.5]},'c':{'x':[4.5],'y':[5.5],'z':[6.5]}}") /\
  In (Line_skipping (VStr (lit "b"))) (run_out r).
Proof.
  intros fs r.
  assert (Hdoc : exists t1 d t3 st',
             extract_traces fs (html_path_of "/p")
             = Ok (VList ([t1] ++ VDict d :: [t3])) /\
             unknown_form (Dict.get d (VStr (lit "x")) (VDict [])) = true /\
             Dict.get d (VStr (lit "name")) (VStr (lit "unknown"))
             = VStr (lit "b") /\
             loop ([t1] ++ [t3])
               (mkState [] 0 [Line_reading (html_path_of "/p")]) = Next st' /\
             JsonDump.dumps (VDict (st_result st'))
             = qlit "{'a':{'x':[1.5],'y':[2.5],'z':[3.5]},'c':{'x':[4.5],'y':[5.5],'z':[6.5]}}").
  { eexists _, _, _, _. split; [vm_compute; reflexivity|].
    split; [vm_compute; reflexivity|].
    split; [vm_compute; reflexivity|].
    split; [vm_compute; reflexivity|].
    vm_compute; reflexivity. }
  destruct Hdoc as (t1 & d & t3 & st' & Hx & Hu & Hn & Hl & Hd).
  assert (Hp : print_error
                 (Dict.get d (VStr (lit "name")) (VStr (lit "unknown"))) = None)
    by (rewrite Hn; vm_compute; reflexivity).
  destruct (unknown_x_trace_is_skipped "/p" fs [t1] [t3] d st' Hu Hp Hx Hl)
    as (_ & Hs & Hf & Hi).
  fold r in Hs, Hf, Hi. rewrite Hn in Hi.
  split; [exact Hs|]. split; [|exact Hi].
  rewrite Hf, Hd. apply lookup_insert_eq.
Defined.

(** ** Plain arrays *)

Lemma mapM_result_Forall2 {A B} (f : A -> result B) (l : list A) (l' : list B) :
  mapM_result f l = Ok l' <-> Forall2 (fun a b => f a = Ok b) l l'.
Proof.
  revert l'. induction l as [|a l IH]; intros l'; simpl.
  - split.
    + intros [= <-]. constructor.
    + intros H. inversion H. reflexivity.
  - split.
    + destruct (f a) as [b|e] eqn:Ea; simpl; [|discriminate].
      destruct (mapM_result f l) as [bs|e] eqn:El; simpl; [|discriminate].
      intros [= <-]. constructor; [exact Ea|]. apply IH. reflexivity.
    + intros H. inversion H as [|a0 b l0 bs Ha Hl]; subst.
      rewrite Ha. simpl. apply IH in Hl. rewrite Hl. reflexivity.
Qed.

Lemma round_all_numbers (xs : list value) :
  forallb is_number xs = true ->
  exists xs', round_all (VList xs) = Ok xs' /\
              Forall2 (fun v v' => py_round v 2 = Ok v') xs xs'.
Proof.
  intros H. unfold round_all. simpl.
  assert (Hm : exists xs', mapM_result (fun v => py_round v 2) xs = Ok xs').
  { induction xs as [|v xs IH]; simpl; [eauto|].
    simpl in H. apply andb_true_iff in H as [Hv Hxs].
    destruct (IH Hxs) as [xs' ->].
    destruct v; try discriminate; simpl; eauto. }
  destruct Hm as [xs' Hm]. exists xs'. split; [exact Hm|].
  apply mapM_result_Forall2, Hm.
Qed.

(** C5.  For a trace whose [x], [y] and [z] are plain arrays of numbers,
    the coordinates computed by the loop body are the element-wise
    [round(v, 2)] of the inputs, in the same order and of the same length,
    and they are what the body stores under the trace's name, when it
    gets past the [print] of that name. *)
Theorem plain_trace_rounds_elementwise
    (st : state) (d : list (value * value)) (xs ys zs : list value) :
  let name := Dict.get d (VStr (lit "name")) (VStr (lit "unknown")) in
  Dict.lookup d (VStr (lit "x")) = Some (VList xs) ->
  Dict.lookup d (VStr (lit "y")) = Some (VList ys) ->
  Dict.lookup d (VStr (lit "z")) = Some (VList zs) ->
  forallb is_number xs = true ->
  forallb is_number ys = true ->
  forallb is_number zs = true ->
  Dict.hashable name = true ->
  exists xs' ys' zs',
    Forall2 (fun v v' => py_round v 2 = Ok v') xs xs' /\
    Forall2 (fun v v' => py_round v 2 = Ok v') ys ys' /\
    Forall2 (fun v v' => py_round v 2 = Ok v') zs zs' /\
    length xs' = length xs /\ length ys' = length ys /\
    length zs' = length zs /\
    coordinates (VList xs) (VList ys) (VList zs) = Ok (Some (xs', ys', zs')) /\
    (print_error name = None ->
     body st (VDict d) =
     Next (mkState (Dict.set (st_result st) name (entry xs' ys' zs'))
             (st_total st + length xs)
             (st_out st ++ [Line_points name (length xs)]))).
Proof.
  intros name Hx Hy Hz Nx Ny Nz Hname.
  destruct (round_all_numbers xs Nx) as (xs' & Rx & Fx).
  destruct (round_all_numbers ys Ny) as (ys' & Ry & Fy).
  destruct (round_all_numbers zs Nz) as (zs' & Rz & Fz).
  exists xs', ys', zs'.
  pose proof (Forall2_length _ _ _ Fx) as Lx.
  pose proof (Forall2_length _ _ _ Fy) as Ly.
  pose proof (Forall2_length _ _ _ Fz) as Lz.
  assert (Hc : coordinates (VList xs) (VList ys) (VList zs)
               = Ok (Some (xs', ys', zs'))).
  { unfold coordinates. rewrite Rx, Ry, Rz. reflexivity. }
  repeat (split; [first [assumption | symmetry; assumption]|]).
  intros Hp.
  unfold body. rewrite fields_dict. unfold name in *. unfold Dict.get in *.
  rewrite Hx, Hy, Hz, Hc, Hname, Hp, Lx. reflexivity.
Qed.

Lemma plain_trace_rounds_elementwise_witness :
  let d := [(VStr (lit "name"), VStr (lit "cat"));
            (VStr (lit "x"), VList [VFloat (Float.of_decimal false 1005 (-3));
                                    VInt 2]);
            (VStr (lit "y"), VList [VFloat (Float.of_decimal true 125 (-3));
                                    VInt 0]);
            (VStr (lit "z"), VList [VInt 7; VInt 8])] in
  exists xs' ys' zs',
    coordinates
      (VList [VFloat (Float.of_decimal false 1005 (-3)); VInt 2])
      (VList [VFloat (Float.of_decimal true 125 (-3)); VInt 0])
      (VList [VInt 7; VInt 8]) = Ok (Some (xs', ys', zs')) /\
    xs' = [VFloat (Float.of_decimal false 1 0); VInt 2] /\
    ys' = [VFloat (Float.of_decimal true 12 (-2)); VInt 0] /\
    zs' = [VInt 7; VInt 8] /\
    body (mkState [] 0 []) (VDict d)
    = Next (mkState [(VStr (lit "cat"), entry xs' ys' zs')] 2
              [Line_points (VStr (lit "cat")) 2]).
Proof.
  intros d.
  destruct (plain_trace_rounds_elementwise (mkState [] 0 []) d
              [VFloat (Float.of_decimal false 1005 (-3)); VInt 2]
              [VFloat (Float.of_decimal true 125 (-3)); VInt 0]
              [VInt 7; VInt 8])
    as (xs' & ys' & zs' & _ & _ & _ & _ & _ & _ & Hc & Hb);
    try reflexivity.
  exists xs', ys', zs'. split; [exact Hc|].
  assert (E : Some (xs', ys', zs')
              = Some ([VFloat (Float.of_decimal false 1 0); VInt 2],
                      [VFloat (Float.of_decimal true 12 (-2)); VInt 0],
                      [VInt 7; VInt 8])).
  { assert (Ok (Some (xs', ys', zs'))
            = Ok (Some ([VFloat (Float.of_decimal false 1 0); VInt 2],
                        [VFloat (Float.of_decimal true 12 (-2)); VInt 0],
                        [VInt 7; VInt 8]))) as [= -> -> ->];
      [rewrite <- Hc; vm_compute; reflexivity|reflexivity]. }
  injection E as -> -> ->.
  do 3 (split; [reflexivity|]). apply Hb. reflexivity.
Defined.

(** ** Traces without a name *)

Lemma key_eqb_refl (k : value) : Dict.hashable k = true -> Dict.key_eqb k k = true.
Proof.
  destruct k as [| b | z | f | s | l | d]; simpl; try reflexivity;
    try discriminate; intros _.
  - unfold Dict.exact_eqb. rewrite Z.min_id. apply Z.eqb_refl.
  - unfold Dict.exact_eqb. rewrite Z.min_id. apply Z.eqb_refl.
  - destruct f as [s | s | | s m e]; simpl; try reflexivity.
    + destruct s; reflexivity.
    + rewrite Z.min_id. apply Z.eqb_refl.
  - unfold str_eqb. apply bool_decide_eq_true. reflexivity.
Qed.

Lemma dict_lookup_set (d : list (value * value)) (k v : value) :
  Dict.key_eqb k k = true -> Dict.lookup (Dict.set d k v) k = Some v.
Proof.
  intros Hk. induction d as [|[k' v'] d IH]; simpl.
  - rewrite Hk. reflexivity.
  - destruct (Dict.key_eqb k' k) eqn:E; simpl; rewrite E; [reflexivity|exact IH].
Qed.

(** Assigning twice to one key leaves what the second assignment alone
    leaves. *)
Lemma dict_set_set (d : list (value * value)) (k v1 v2 : value) :
  Dict.key_eqb k k = true ->
  Dict.set (Dict.set d k v1) k v2 = Dict.set d k v2.
Proof.
  intros Hk. induction d as [|[k' v'] d IH]; simpl.
  - rewrite Hk. reflexivity.
  - destruct (Dict.key_eqb k' k) eqn:E; simpl; rewrite E; [reflexivity|].
    rewrite IH. reflexivity.
Qed.

Lemma body_nameless (st : state) (d : list (value * value)) x y z :
  Dict.lookup d (VStr (lit "name")) = None ->
  coordinates (Dict.get d (VStr (lit "x")) (VDict []))
              (Dict.get d (VStr (lit "y")) (VDict []))
              (Dict.get d (VStr (lit "z")) (VDict [])) = Ok (Some (x, y, z)) ->
  body st (VDict d) =
  Next (mkState (Dict.set (st_result st) unknown_key (entry x y z))
          (st_total st + length x)
          (st_out st ++ [Line_points unknown_key (length x)])).
Proof.
  intros Hn Hc. unfold body. rewrite fields_dict, Hc.
  replace (Dict.get d (VStr (lit "name")) (VStr (lit "unknown")))
    with unknown_key by (unfold Dict.get; rewrite Hn; reflexivity).
  reflexivity.
Qed.

Lemma loop_nameless (ts : list value) (st : state) :
  Forall nameless ts ->
  exists st', loop ts st = Next st' /\
              st_result st' = fold_left store_unknown ts (st_result st).
Proof.
  intros H. revert st. induction H as [|t ts Ht Hts IH]; intros st.
  - exists st. split; reflexivity.
  - destruct Ht as (d & e & -> & Hn & He).
    assert (Hb : exists x : list value,
                 body st (VDict d) =
                 Next (mkState (Dict.set (st_result st) unknown_key e)
                         (st_total st + length x)
                         (st_out st ++ [Line_points unknown_key (length x)]))).
    { pose proof He as He'. unfold trace_entry in He'.
      rewrite fields_dict in He'.
      destruct (coordinates _ _ _) as [[[[x y] z]|]|] eqn:Hc; try discriminate.
      injection He' as <-. exists x. apply body_nameless; assumption. }
    destruct Hb as (x & Hb).
    simpl loop. rewrite Hb.
    destruct (IH (mkState (Dict.set (st_result st) unknown_key e)
                    (st_total st + length x)
                    (st_out st ++ [Line_points unknown_key (length x)])))
      as (st' & Hl & Hr).
    exists st'. split; [exact Hl|]. rewrite Hr.
    assert (Hs : store_unknown (st_result st) (VDict d)
                 = Dict.set (st_result st) unknown_key e)
      by (unfold store_unknown; rewrite He; reflexivity).
    cbn [fold_left st_result]. rewrite Hs. reflexivity.
Qed.

Lemma set_after_store_unknown (ts : list value) (r : list (value * value)) e :
  Dict.set (fold_left store_unknown ts r) unknown_key e
  = Dict.set r unknown_key e.
Proof.
  revert r. induction ts as [|t ts IH]; intros r; simpl; [reflexivity|].
  rewrite IH. unfold store_unknown.
  destruct (trace_entry t); [|reflexivity].
  apply dict_set_set. reflexivity.
Qed.

(** C10.  A trace object without a [name] key is processed like any other
    and stored under the key ["unknown"]; after any number of nameless
    traces the mapping holds, under that one key, the entry of the last of
    them. *)
Theorem nameless_trace_stored_as_unknown
    (st : state) (ts : list value) (d : list (value * value))
    (x y z : list value) :
  Dict.lookup d (VStr (lit "name")) = None ->
  coordinates (Dict.get d (VStr (lit "x")) (VDict []))
              (Dict.get d (VStr (lit "y")) (VDict []))
              (Dict.get d (VStr (lit "z")) (VDict [])) = Ok (Some (x, y, z)) ->
  Forall nameless ts ->
  body st (VDict d) =
  Next (mkState (Dict.set (st_result st) unknown_key (entry x y z))
          (st_total st + length x)
          (st_out st ++ [Line_points unknown_key (length x)])) /\
  exists st',
    loop (ts ++ [VDict d]) st = Next st' /\
    st_result st' = Dict.set (st_result st) unknown_key (entry x y z) /\
    Dict.lookup (st_result st') unknown_key = Some (entry x y z).
Proof.
  intros Hn Hc Hts.
  split; [apply body_nameless; assumption|].
  assert (He : trace_entry (VDict d) = Some (entry x y z)).
  { unfold trace_entry. rewrite fields_dict, Hc. reflexivity. }
  assert (Hall : Forall nameless (ts ++ [VDict d])).
  { apply Forall_app. split; [exact Hts|]. constructor; [|constructor].
    exists d, (entry x y z). auto. }
  destruct (loop_nameless (ts ++ [VDict d]) st Hall) as (st' & Hl & Hr).
  exists st'. split; [exact Hl|].
  rewrite fold_left_app in Hr. cbn [fold_left] in Hr.
  unfold store_unknown at 1 in Hr.
  rewrite He, set_after_store_unknown in Hr.
  split; [exact Hr|]. rewrite Hr. apply dict_lookup_set. reflexivity.
Qed.

Lemma nameless_trace_stored_as_unknown_witness :
  let d1 := [(VStr (lit "x"), VList [VInt 1]); (VStr (lit "y"), VList [VInt 2]);
             (VStr (lit "z"), VList [VInt 3])] in
  let d2 := [(VStr (lit "x"), VList [VInt 4]); (VStr (lit "y"), VList [VInt 5]);
             (VStr (lit "z"), VList [VInt 6])] in
  exists st',
    loop ([VDict d1] ++ [VDict d2]) (mkState [] 0 []) = Next st' /\
    st_result st' = [(unknown_key, entry [VInt 4] [VInt 5] [VInt 6])].
Proof.
  intros d1 d2.
  destruct (nameless_trace_stored_as_unknown (mkState [] 0 []) [VDict d1] d2
              [VInt 4] [VInt 5] [VInt 6])
    as (_ & st' & Hl & Hr & _).
  - reflexivity.
  - reflexivity.
  - constructor; [|constructor].
    exists d1, (entry [VInt 1] [VInt 2] [VInt 3]).
    split; [reflexivity|]. split; reflexivity.
  - exists st'. split; [exact Hl|exact Hr].
Defined.

(** ** The input file is missing *)

(** C8.  When the input file does not exist, [main] prints the error with
    the path, ends with status 1 before any parsing, and leaves the file
    system as it was: no output file is created and an existing one keeps
    its contents. *)
Theorem main_input_missing (root : string) (fs : filesystem) :
  fs !! html_path_of root = None ->
  main root fs = mkRun fs [Line_not_found (html_path_of root)] (Exited 1) /\
  exit_code (run_status (main root fs)) <> 0 /\
  run_fs (main root fs) !! output_path_of root = fs !! output_path_of root.
Proof.
  intros H. unfold main. rewrite H. simpl.
  split; [reflexivity|]. split; [discriminate|reflexivity].
Qed.

Lemma main_input_missing_witness :
  let fs : filesystem := {[ "/p/portfolio_data.json"%string := lit "{}" ]} in
  main "/p" fs
  = mkRun fs [Line_not_found "/p/output/audio_classifier_3d.html"] (Exited 1) /\
  run_fs (main "/p" fs) !! "/p/portfolio_data.json"%string = Some (lit "{}").
Proof.
  intros fs.
  destruct (main_input_missing "/p" fs) as (H1 & _ & H2).
  - reflexivity.
  - split; [exact H1|].
    change (run_fs (main "/p" fs) !! output_path_of "/p" = Some (lit "{}")).
    rewrite H2. reflexivity.
Defined.

(** ** The end-to-end example *)

Lemma cat_coordinates :
  coordinates (VList [VFloat f_1_005; VFloat f_2_0])
              (VList [VFloat f_0_0; VFloat f_0_0])
              (VList [VFloat f_0_0; VFloat f_0_0])
  = Ok (Some ([VFloat f_1_0; VFloat f_2_0], [VFloat f_0_0; VFloat f_0_0],
              [VFloat f_0_0; VFloat f_0_0])).
Proof. vm_compute. reflexivity. Qed.

Lemma cat_dumps :
  JsonDump.dumps
    (VDict [(VStr (lit "cat"),
             entry [VFloat f_1_0; VFloat f_2_0] [VFloat f_0_0; VFloat f_0_0]
                   [VFloat f_0_0; VFloat f_0_0])])
  = cat_output.
Proof. vm_compute. reflexivity. Qed.

(** C9.  When the last [Plotly.newPlot] call of the page carries the single
    trace named ["cat"] with [x = [1.005, 2.0]] and [y = z = [0.0, 0.0]]
    (whatever other keys the trace has), the run ends with status 0 and the
    output file holds exactly
    [{"cat":{"x":[1.0,2.0],"y":[0.0,0.0],"z":[0.0,0.0]}}]; the text [1.005]
    decodes to a float that [round(v, 2)] takes to [1.0]. *)
Theorem cat_example_output
    (root : string) (fs : filesystem) (d : list (value * value)) :
  extract_traces fs (html_path_of root) = Ok (VList [VDict d]) ->
  Dict.lookup d (VStr (lit "name")) = Some (VStr (lit "cat")) ->
  Dict.lookup d (VStr (lit "x")) = Some (VList [VFloat f_1_005; VFloat f_2_0]) ->
  Dict.lookup d (VStr (lit "y")) = Some (VList [VFloat f_0_0; VFloat f_0_0]) ->
  Dict.lookup d (VStr (lit "z")) = Some (VList [VFloat f_0_0; VFloat f_0_0]) ->
  run_status (main root fs) = Exited 0 /\
  run_fs (main root fs) !! output_path_of root = Some cat_output /\
  Json.raw_decode (lit "1.005") = Ok (VFloat f_1_005, 5) /\
  py_round (VFloat f_1_005) 2 = Ok (VFloat f_1_0) /\
  JsonDump.dumps (VFloat f_1_0) = lit "1.0".
Proof.
  intros Hdoc Hn Hx Hy Hz.
  assert (Hl : loop [VDict d] (mkState [] 0 [Line_reading (html_path_of root)])
               = Next (mkState
                         [(VStr (lit "cat"),
                           entry [VFloat f_1_0; VFloat f_2_0]
                                 [VFloat f_0_0; VFloat f_0_0]
                                 [VFloat f_0_0; VFloat f_0_0])]
                         2
                         [Line_reading (html_path_of root);
                          Line_points (VStr (lit "cat")) 2])).
  { simpl loop. unfold body. rewrite fields_dict. unfold Dict.get.
    rewrite Hn, Hx, Hy, Hz, cat_coordinates. reflexivity. }
  rewrite (main_completes root fs _ _ Hdoc Hl). cbn [run_status run_fs st_result].
  rewrite cat_dumps, lookup_insert_eq.
  repeat split; vm_compute; reflexivity.
Qed.

Lemma cat_example_output_witness :
  let fs : filesystem :=
    {[ "/p/output/audio_classifier_3d.html"%string := cat_page ]} in
  run_status (main "/p" fs) = Exited 0 /\
  run_fs (main "/p" fs) !! "/p/portfolio_data.json"%string = Some cat_output.
Proof.
  intros fs.
  assert (Hd : exists d, extract_traces fs (html_path_of "/p")
                         = Ok (VList [VDict d]) /\
                         Dict.lookup d (VStr (lit "name"))
                         = Some (VStr (lit "cat")) /\
                         Dict.lookup d (VStr (lit "x"))
                         = Some (VList [VFloat f_1_005; VFloat f_2_0]) /\
                         Dict.lookup d (VStr (lit "y"))
                         = Some (VList [VFloat f_0_0; VFloat f_0_0]) /\
                         Dict.lookup d (VStr (lit "z"))
                         = Some (VList [VFloat f_0_0; VFloat f_0_0])).
  { eexists. split; [vm_compute; reflexivity|].
    split; [vm_compute; reflexivity|].
    split; [vm_compute; reflexivity|].
    split; vm_compute; reflexivity. }
  destruct Hd as (d & H0 & H1 & H2 & H3 & H4).
  destruct (cat_example_output "/p" fs d H0 H1 H2 H3 H4) as (Hs & Hf & _).
  split; [exact Hs|exact Hf].
Defined.

(** ** The binary array decoder *)

Lemma words_le_length : forall raw : list Z,
  length (Struct.words_le raw) = (length raw / 4)%nat.
Proof.
  fix IH 1.
  intros [|b0 [|b1 [|b2 [|b3 rest]]]]; try reflexivity.
  cbn [Struct.words_le length]. rewrite IH.
  change (S (S (S (S (length rest))))) with (4 + length rest)%nat.
  replace (4 + length rest)%nat with (length rest + 1 * 4)%nat by lia.
  rewrite Nat.div_add by lia. lia.
Qed.

Lemma round_floats (values : list spec_float) :
  mapM_result (fun v => py_round (VFloat v) 2) values
  = Ok (map (fun v => VFloat (Float.round v 2)) values).
Proof.
  induction values as [|v values IH]; [reflexivity|].
  cbn [mapM_result map]. rewrite IH. reflexivity.
Qed.

(** The function on a buffer that decoded from base64. *)
Lemma decode_binary_array_raw (data bdata : value) (raw : list Z) :
  py_getitem data (lit "bdata") = Ok bdata ->
  Base64.b64decode bdata = Ok raw ->
  decode_binary_array data =
  if len raw =? 4 * (len raw / 4)
  then Ok (map (fun w => VFloat (Float.round (Float.of_bits32 w) 2))
             (Struct.words_le raw))
  else Raise StructError.
Proof.
  intros Hg Hb. unfold decode_binary_array.
  rewrite Hg, bind_Ok, Hb, bind_Ok. unfold Struct.unpack_f32_le.
  destruct (len raw =? 4 * (len raw / 4)); [|reflexivity].
  rewrite bind_Ok, round_floats, map_map. reflexivity.
Qed.

(** C4.  For a packed field whose [bdata] decodes from base64 to a buffer
    [raw]: when the length of [raw] is a multiple of 4,
    [decode_binary_array] returns exactly [len(raw) / 4] numbers, the
    little-endian float32 words of the buffer each rounded to two decimals;
    when it is not, the function raises [struct.error] and returns no
    truncated list. *)
Theorem decode_binary_array_length
    (data bdata : value) (raw : list Z) :
  py_getitem data (lit "bdata") = Ok bdata ->
  Base64.b64decode bdata = Ok raw ->
  (len raw mod 4 = 0 ->
   exists out,
     decode_binary_array data = Ok out /\
     len out = len raw / 4 /\
     out = map (fun w => VFloat (Float.round (Float.of_bits32 w) 2))
             (Struct.words_le raw)) /\
  (len raw mod 4 <> 0 -> decode_binary_array data = Raise StructError).
Proof.
  intros Hg Hb. rewrite (decode_binary_array_raw data bdata raw Hg Hb).
  split; intros Hm.
  - destruct (len raw =? 4 * (len raw / 4)) eqn:E.
    + eexists. split; [reflexivity|]. split; [|reflexivity].
      unfold len. rewrite length_map, words_le_length.
      rewrite Nat2Z.inj_div. reflexivity.
    + apply Z.eqb_neq in E. pose proof (Z.div_mod (len raw) 4). lia.
  - destruct (len raw =? 4 * (len raw / 4)) eqn:E; [|reflexivity].
    apply Z.eqb_eq in E. pose proof (Z.div_mod (len raw) 4). lia.
Qed.

Lemma decode_binary_array_length_witness :
  decode_binary_array (VDict [(VStr (lit "bdata"), VStr (lit "AACAP83MzD0="))])
  = Ok [VFloat f_1_0; VFloat (Float.of_decimal false 1 (-1))] /\
  decode_binary_array (VDict [(VStr (lit "bdata"), VStr (lit "AACAP83M"))])
  = Raise StructError.
Proof.
  split.
  - destruct (decode_binary_array_length
                (VDict [(VStr (lit "bdata"), VStr (lit "AACAP83MzD0="))])
                (VStr (lit "AACAP83MzD0="))
                [0; 0; 128; 63; 205; 204; 204; 61])
      as [H _]; [reflexivity | vm_compute; reflexivity |].
    destruct H as (out & Hd & _ & Ho); [reflexivity|].
    rewrite Hd, Ho. vm_compute. reflexivity.
  - destruct (decode_binary_array_length
                (VDict [(VStr (lit "bdata"), VStr (lit "AACAP83M"))])
                (VStr (lit "AACAP83M"))
                [0; 0; 128; 63; 205; 204])
      as [_ H]; [reflexivity | vm_compute; reflexivity |].
    apply H. vm_compute. discriminate.
Defined.

(** ** Base64 and float32 buffers: decoding undoes encoding *)
Section PackedRoundTrip.

Lemma forallb_below (n : nat) (P : Z -> bool) :
  forallb P (below n) = true ->
  forall a, 0 <= a < Z.of_nat n -> P a = true.
Proof.
  intros H a Ha. rewrite forallb_forall in H. apply H.
  unfold below. apply in_map_iff. exists (Z.to_nat a).
  split; [lia|]. apply in_seq. lia.
Qed.

Lemma alphabet_char (v : Z) :
  0 <= v < 64 ->
  N.eqb (Base64.b2a_char v) (ch "=") = false /\
  Base64.a2b_char (Base64.b2a_char v) = Some v /\
  N.ltb (Base64.b2a_char v) 128 = true.
Proof.
  intros Hv.
  pose proof (forallb_below 64
    (fun v => negb (N.eqb (Base64.b2a_char v) (ch "="))
              && (if Base64.a2b_char (Base64.b2a_char v) is Some w
                  then w =? v else false)
              && N.ltb (Base64.b2a_char v) 128)) as H.
  specialize (H ltac:(vm_compute; reflexivity) v Hv). cbv beta in H.
  apply andb_true_iff in H as [H H3]. apply andb_true_iff in H as [H1 H2].
  apply negb_true_iff in H1.
  destruct (Base64.a2b_char (Base64.b2a_char v)) as [w|]; [|discriminate].
  apply Z.eqb_eq in H2. subst w. auto.
Qed.

Lemma sextet_ranges (a b : Z) :
  is_byte a -> is_byte b ->
  0 <= sextet1 a < 64 /\ 0 <= sextet2 a b < 64 /\
  0 <= sextet3 a b < 64 /\ 0 <= sextet4 a < 64 /\
  0 <= Z.shiftl (Z.land a 3) 4 < 64 /\ 0 <= Z.shiftl (Z.land a 15) 2 < 64.
Proof.
  intros Ha Hb.
  pose proof (forallb_below 256
    (fun a => forallb
       (fun b => let ok v := (0 <=? v) && (v <? 64) in
                 ok (sextet1 a) && ok (sextet2 a b) && ok (sextet3 a b)
                 && ok (sextet4 a) && ok (Z.shiftl (Z.land a 3) 4)
                 && ok (Z.shiftl (Z.land a 15) 2))
       (below 256))) as H.
  specialize (H ltac:(vm_compute; reflexivity) a Ha). cbv beta in H.
  pose proof (forallb_below 256 _ H b Hb) as H'. cbv beta zeta in H'.
  repeat (apply andb_true_iff in H' as [H' ?]).
  repeat match goal with
         | H : _ && _ = true |- _ => apply andb_true_iff in H as [? ?]
         end.
  lia.
Qed.

(** Reassembling the bytes from the sextets, as the decoder does. *)
Lemma reassemble (a b : Z) :
  is_byte a -> is_byte b ->
  Base64.byte (Z.lor (Z.shiftl (sextet1 a) 2) (Z.shiftr (sextet2 a b) 4)) = a /\
  Z.land (sextet2 b a) 15 = Z.shiftr a 4 /\
  Base64.byte (Z.lor (Z.shiftl (Z.shiftr a 4) 4) (Z.shiftr (sextet3 a b) 2)) = a /\
  Z.land (sextet3 b a) 3 = Z.shiftr a 6 /\
  Base64.byte (Z.lor (Z.shiftl (Z.shiftr a 6) 6) (sextet4 a)) = a /\
  Base64.byte
    (Z.lor (Z.shiftl (sextet1 a) 2) (Z.shiftr (Z.shiftl (Z.land a 3) 4) 4)) = a /\
  Base64.byte
    (Z.lor (Z.shiftl (Z.shiftr a 4) 4) (Z.shiftr (Z.shiftl (Z.land a 15) 2) 2))
  = a.
Proof.
  intros Ha Hb.
  pose proof (forallb_below 256
    (fun a => forallb
       (fun b =>
          (Base64.byte (Z.lor (Z.shiftl (sextet1 a) 2)
                          (Z.shiftr (sextet2 a b) 4)) =? a)
          && (Z.land (sextet2 b a) 15 =? Z.shiftr a 4)
          && (Base64.byte (Z.lor (Z.shiftl (Z.shiftr a 4) 4)
                             (Z.shiftr (sextet3 a b) 2)) =? a)
          && (Z.land (sextet3 b a) 3 =? Z.shiftr a 6)
          && (Base64.byte (Z.lor (Z.shiftl (Z.shiftr a 6) 6) (sextet4 a)) =? a)
          && (Base64.byte
                (Z.lor (Z.shiftl (sextet1 a) 2)
                   (Z.shiftr (Z.shiftl (Z.land a 3) 4) 4)) =? a)
          && (Base64.byte
                (Z.lor (Z.shiftl (Z.shiftr a 4) 4)
                   (Z.shiftr (Z.shiftl (Z.land a 15) 2) 2)) =? a))
       (below 256))) as H.
  specialize (H ltac:(vm_compute; reflexivity) a Ha). cbv beta in H.
  pose proof (forallb_below 256 _ H b Hb) as H'. cbv beta in H'.
  repeat (apply andb_true_iff in H' as [H' ?]).
  repeat match goal with
         | H : (_ =? _) = true |- _ => apply Z.eqb_eq in H
         end.
  auto 10.
Qed.

(** One step of the decoder on a character of the alphabet, at each
    position in the quad. *)
Lemma a2b_loop_char (v : Z) (s : str) (l p : Z) (out : list Z) :
  0 <= v < 64 ->
  Base64.a2b_loop (Base64.b2a_char v :: s) 0 l p out
  = Base64.a2b_loop s 1 v 0 out /\
  Base64.a2b_loop (Base64.b2a_char v :: s) 1 l p out
  = Base64.a2b_loop s 2 (Z.land v 15) 0
      (out ++ [Base64.byte (Z.lor (Z.shiftl l 2) (Z.shiftr v 4))]) /\
  Base64.a2b_loop (Base64.b2a_char v :: s) 2 l p out
  = Base64.a2b_loop s 3 (Z.land v 3) 0
      (out ++ [Base64.byte (Z.lor (Z.shiftl l 4) (Z.shiftr v 2))]) /\
  Base64.a2b_loop (Base64.b2a_char v :: s) 3 l p out
  = Base64.a2b_loop s 0 0 0 (out ++ [Base64.byte (Z.lor (Z.shiftl l 6) v)]).
Proof.
  intros Hv. destruct (alphabet_char v Hv) as (H1 & H2 & _).
  cbn [Base64.a2b_loop]. rewrite H1, H2. repeat split; reflexivity.
Qed.

Lemma a2b_loop_pad_open (s : str) (l : Z) (out : list Z) :
  Base64.a2b_loop (ch "=" :: s) 2 l 0 out = Base64.a2b_loop s 2 l 1 out.
Proof. reflexivity. Qed.

Lemma a2b_loop_pad_close (s : str) (q l p : Z) (out : list Z) :
  2 <= q -> 4 <= q + (p + 1) ->
  Base64.a2b_loop (ch "=" :: s) q l p out = Ok out.
Proof.
  intros Hq Hp. cbn [Base64.a2b_loop].
  change (N.eqb (ch "=") (ch "=")) with true. cbv iota.
  destruct (2 <=? q) eqn:E1; [|lia].
  destruct (4 <=? q + (p + 1)) eqn:E2; [|lia]. reflexivity.
Qed.

Lemma a2b_loop_encode : forall (bs : list Z) (out : list Z),
  Forall is_byte bs ->
  Base64.a2b_loop (Base64.b64encode bs) 0 0 0 out = Ok (out ++ bs).
Proof.
  fix IH 1.
  intros [|a [|b [|c rest]]] out H.
  - simpl. rewrite app_nil_r. reflexivity.
  - inversion H as [|? ? Ha _]; subst.
    destruct (sextet_ranges a a Ha Ha) as (R1 & _ & _ & _ & R5 & _).
    destruct (reassemble a a Ha Ha) as (_ & _ & _ & _ & _ & E & _).
    cbn [Base64.b64encode].
    rewrite (proj1 (a2b_loop_char _ _ _ _ _ R1)).
    rewrite (proj1 (proj2 (a2b_loop_char _ _ _ _ _ R5))).
    rewrite E.
    rewrite a2b_loop_pad_open, a2b_loop_pad_close by lia. reflexivity.
  - inversion H as [|? ? Ha H']; subst.
    inversion H' as [|? ? Hb _]; subst.
    destruct (sextet_ranges a b Ha Hb) as (R1 & R2 & _).
    destruct (sextet_ranges b a Hb Ha) as (_ & _ & _ & _ & _ & R6).
    destruct (reassemble a b Ha Hb) as (E1 & _).
    destruct (reassemble b a Hb Ha) as (_ & E2 & _ & _ & _ & _ & E3).
    cbn [Base64.b64encode].
    rewrite (proj1 (a2b_loop_char _ _ _ _ _ R1)).
    rewrite (proj1 (proj2 (a2b_loop_char _ _ _ _ _ R2))).
    rewrite (proj1 (proj2 (proj2 (a2b_loop_char _ _ _ _ _ R6)))).
    rewrite E1, E2, E3.
    rewrite a2b_loop_pad_close by lia.
    rewrite <- app_assoc. reflexivity.
  - inversion H as [|? ? Ha H']; subst.
    inversion H' as [|? ? Hb H'']; subst.
    inversion H'' as [|? ? Hc Hrest]; subst.
    destruct (sextet_ranges a b Ha Hb) as (R1 & R2 & _).
    destruct (sextet_ranges b c Hb Hc) as (_ & _ & R3 & _).
    destruct (sextet_ranges c c Hc Hc) as (_ & _ & _ & R4 & _).
    destruct (reassemble a b Ha Hb) as (E1 & _).
    destruct (reassemble b a Hb Ha) as (_ & E2 & _).
    destruct (reassemble b c Hb Hc) as (_ & _ & E3 & _).
    destruct (reassemble c b Hc Hb) as (_ & _ & _ & E4 & E5 & _).
    cbn [Base64.b64encode app].
    rewrite (proj1 (a2b_loop_char _ _ _ _ _ R1)).
    rewrite (proj1 (proj2 (a2b_loop_char _ _ _ _ _ R2))).
    rewrite (proj1 (proj2 (proj2 (a2b_loop_char _ _ _ _ _ R3)))).
    rewrite (proj2 (proj2 (proj2 (a2b_loop_char _ _ _ _ _ R4)))).
    rewrite E1, E2, E3, E4, E5.
    rewrite IH by exact Hrest.
    rewrite <- !app_assoc. reflexivity.
Qed.

Lemma alphabet_ascii (v : Z) :
  0 <= v < 64 -> N.ltb (Base64.b2a_char v) 128 = true.
Proof. intros H. apply (alphabet_char v H). Qed.

Lemma b64encode_ascii : forall bs : list Z,
  Forall is_byte bs ->
  forallb (fun c => N.ltb c 128) (Base64.b64encode bs) = true.
Proof.
  fix IH 1.
  intros [|a [|b [|c rest]]] H.
  - reflexivity.
  - inversion H as [|? ? Ha _]; subst.
    destruct (sextet_ranges a a Ha Ha) as (R1 & _ & _ & _ & R5 & _).
    cbn [Base64.b64encode forallb].
    rewrite (alphabet_ascii (Z.shiftr a 2) R1).
    rewrite (alphabet_ascii _ R5). reflexivity.
  - inversion H as [|? ? Ha H']; subst.
    inversion H' as [|? ? Hb _]; subst.
    destruct (sextet_ranges a b Ha Hb) as (R1 & R2 & _).
    destruct (sextet_ranges b a Hb Ha) as (_ & _ & _ & _ & _ & R6).
    cbn [Base64.b64encode forallb].
    rewrite (alphabet_ascii (Z.shiftr a 2) R1).
    rewrite (alphabet_ascii
               (Z.lor (Z.shiftl (Z.land a 3) 4) (Z.shiftr b 4)) R2).
    rewrite (alphabet_ascii _ R6). reflexivity.
  - inversion H as [|? ? Ha H']; subst.
    inversion H' as [|? ? Hb H'']; subst.
    inversion H'' as [|? ? Hc Hrest]; subst.
    destruct (sextet_ranges a b Ha Hb) as (R1 & R2 & _).
    destruct (sextet_ranges b c Hb Hc) as (_ & _ & R3 & _).
    destruct (sextet_ranges c c Hc Hc) as (_ & _ & _ & R4 & _).
    cbn [Base64.b64encode forallb app].
    rewrite (alphabet_ascii (Z.shiftr a 2) R1).
    rewrite (alphabet_ascii
               (Z.lor (Z.shiftl (Z.land a 3) 4) (Z.shiftr b 4)) R2).
    rewrite (alphabet_ascii
               (Z.lor (Z.shiftl (Z.land b 15) 2) (Z.shiftr c 6)) R3).
    rewrite (alphabet_ascii (Z.land c 63) R4).
    rewrite IH by exact Hrest. reflexivity.
Qed.

(** [b64decode(b64encode(bs)) == bs] *)
Lemma b64decode_b64encode (bs : list Z) :
  Forall is_byte bs ->
  Base64.b64decode (VStr (Base64.b64encode bs)) = Ok bs.
Proof.
  intros H. unfold Base64.b64decode, Base64.a2b_base64.
  rewrite b64encode_ascii by exact H.
  rewrite a2b_loop_encode by exact H. reflexivity.
Qed.

End PackedRoundTrip.

Section Float32Buffers.

Lemma land_255_byte (x : Z) : is_byte (Z.land x 255).
Proof.
  unfold is_byte. change 255 with (Z.ones 8).
  rewrite Z.land_ones by lia. apply Z.mod_pos_bound. lia.
Qed.

Lemma pack_words_le_bytes (ws : list Z) :
  Forall is_byte (Struct.pack_words_le ws).
Proof.
  induction ws as [|w ws IH]; simpl; [constructor|].
  repeat (constructor; [apply land_255_byte|]). exact IH.
Qed.

Lemma pack_words_le_length (ws : list Z) :
  len (Struct.pack_words_le ws) = 4 * len ws.
Proof.
  unfold len. induction ws as [|w ws IH]; simpl length; [reflexivity|].
  lia.
Qed.

Lemma word32_high_bits (w n : Z) :
  is_word32 w -> 32 <= n -> Z.testbit w n = false.
Proof.
  intros [H0 H1] Hn.
  destruct (Z.eq_dec w 0) as [->|Hw]; [apply Z.bits_0|].
  apply Z.bits_above_log2; [exact H0|].
  assert (Z.log2 w < 32) by (apply Z.log2_lt_pow2; lia). lia.
Qed.

Ltac tidy_bool :=
  rewrite ?andb_false_r, ?andb_true_r, ?andb_true_l, ?andb_false_l,
    ?orb_false_r, ?orb_false_l.

(** The four bytes of a word, put back together. *)
Lemma word_of_bytes (w : Z) :
  is_word32 w ->
  Z.lor (Z.land w 255)
    (Z.lor (Z.shiftl (Z.land (Z.shiftr w 8) 255) 8)
       (Z.lor (Z.shiftl (Z.land (Z.shiftr w 16) 255) 16)
          (Z.shiftl (Z.land (Z.shiftr w 24) 255) 24))) = w.
Proof.
  intros Hw. apply Z.bits_inj'. intros n Hn.
  change 255 with (Z.ones 8).
  rewrite !Z.lor_spec, !Z.shiftl_spec, !Z.land_spec by lia.
  rewrite !Z.testbit_ones by lia.
  destruct (Z.lt_ge_cases n 8) as [H8|H8].
  { rewrite (Z.testbit_neg_r _ (n - 8)), (Z.testbit_neg_r _ (n - 16)),
      (Z.testbit_neg_r _ (n - 24)) by lia.
    replace (n <? 8) with true by lia. replace (0 <=? n) with true by lia.
    tidy_bool. reflexivity. }
  replace (n <? 8) with false by lia. tidy_bool.
  rewrite Z.shiftr_spec by lia. replace (n - 8 + 8) with n by lia.
  destruct (Z.lt_ge_cases n 16) as [H16|H16].
  { rewrite (Z.testbit_neg_r _ (n - 16)), (Z.testbit_neg_r _ (n - 24)) by lia.
    replace (n - 8 <? 8) with true by lia.
    replace (0 <=? n - 8) with true by lia.
    tidy_bool. reflexivity. }
  replace (n - 8 <? 8) with false by lia. tidy_bool.
  rewrite Z.shiftr_spec by lia. replace (n - 16 + 16) with n by lia.
  destruct (Z.lt_ge_cases n 24) as [H24|H24].
  { rewrite (Z.testbit_neg_r _ (n - 24)) by lia.
    replace (n - 16 <? 8) with true by lia.
    replace (0 <=? n - 16) with true by lia.
    tidy_bool. reflexivity. }
  replace (n - 16 <? 8) with false by lia. tidy_bool.
  rewrite Z.shiftr_spec by lia. replace (n - 24 + 24) with n by lia.
  destruct (Z.lt_ge_cases n 32) as [H32|H32].
  { replace (n - 24 <? 8) with true by lia.
    replace (0 <=? n - 24) with true by lia.
    tidy_bool. reflexivity. }
  rewrite (word32_high_bits w n Hw H32). tidy_bool. reflexivity.
Qed.

(** [pack] then [unpack] gives the words back. *)
Lemma words_le_pack (ws : list Z) :
  Forall is_word32 ws -> Struct.words_le (Struct.pack_words_le ws) = ws.
Proof.
  induction 1 as [|w ws Hw Hws IH]; [reflexivity|].
  cbn [Struct.pack_words_le flat_map app Struct.words_le].
  fold (Struct.pack_words_le ws). rewrite IH, (word_of_bytes w Hw).
  reflexivity.
Qed.

Lemma decode_packed (ws : list Z) :
  Forall is_word32 ws -> decode_binary_array (packed ws) = Ok (rounded ws).
Proof.
  intros H.
  rewrite (decode_binary_array_raw (packed ws)
             (VStr (Base64.b64encode (Struct.pack_words_le ws)))
             (Struct.pack_words_le ws)).
  - rewrite pack_words_le_length.
    replace (4 * len ws / 4) with (len ws)
      by (symmetry; rewrite Z.mul_comm; apply Z.div_mul; lia).
    rewrite Z.eqb_refl, words_le_pack by exact H. reflexivity.
  - reflexivity.
  - apply b64decode_b64encode, pack_words_le_bytes.
Qed.

Lemma round_plain (ws : list Z) : round_all (plain ws) = Ok (rounded ws).
Proof.
  unfold round_all, plain, rounded. cbn [py_iter]. rewrite bind_Ok.
  induction ws as [|w ws IH]; [reflexivity|].
  cbn [map mapM_result]. rewrite IH. reflexivity.
Qed.

End Float32Buffers.

(** C6.  For float32 values given by their bit patterns, decoding the
    packed form (the base64 text of their little-endian bytes) yields one
    rounded number per value, and it yields what the plain array of the same
    values yields; so the loop body computes the same coordinates from the
    two encodings. *)
Theorem packed_and_plain_agree (xs ys zs : list Z) :
  Forall is_word32 xs -> Forall is_word32 ys -> Forall is_word32 zs ->
  (exists out,
      decode_binary_array (packed xs) = Ok out /\
      length out = length xs /\
      round_all (plain xs) = Ok out) /\
  coordinates (packed xs) (packed ys) (packed zs)
  = coordinates (plain xs) (plain ys) (plain zs) /\
  coordinates (packed xs) (packed ys) (packed zs)
  = Ok (Some (rounded xs, rounded ys, rounded zs)).
Proof.
  intros Hx Hy Hz.
  assert (Hp : coordinates (packed xs) (packed ys) (packed zs)
               = Ok (Some (rounded xs, rounded ys, rounded zs))).
  { unfold coordinates. unfold packed at 1.
    change (Dict.mem _ (VStr (lit "bdata"))) with true. cbv iota.
    rewrite !decode_packed by assumption. reflexivity. }
  split; [|split; [|exact Hp]].
  - exists (rounded xs). split; [apply decode_packed, Hx|].
    split; [apply length_map|apply round_plain].
  - rewrite Hp. unfold coordinates. unfold plain at 1.
    rewrite !round_plain. reflexivity.
Qed.

Lemma packed_and_plain_agree_witness :
  packed [0x3f80a3d7; 0xc0490fdb] = VDict [(VStr (lit "dtype"), VStr (lit "f4"));
                                          (VStr (lit "bdata"), VStr (lit "16OAP9sPScA="))] /\
  coordinates (packed [0x3f80a3d7; 0xc0490fdb]) (packed [0; 0x7f800000])
    (packed [0x3dcccccd; 0x41200000])
  = coordinates (plain [0x3f80a3d7; 0xc0490fdb]) (plain [0; 0x7f800000])
      (plain [0x3dcccccd; 0x41200000]) /\
  map JsonDump.dumps (rounded [0x3f80a3d7; 0xc0490fdb])
  = [lit "1.0"; lit "-3.14"].
Proof.
  destruct (packed_and_plain_agree [0x3f80a3d7; 0xc0490fdb] [0; 0x7f800000]
              [0x3dcccccd; 0x41200000]) as (_ & H & _).
  - repeat constructor; lia.
  - repeat constructor; lia.
  - repeat constructor; lia.
  - split; [vm_compute; reflexivity|]. split; [exact H|].
    vm_compute; reflexivity.
Defined.

(** ** The streaming decoder ignores what follows the value *)
Section JsonFacts.

Import Json.

#[local] Arguments N.eqb : simpl never.
#[local] Arguments N.leb : simpl never.
#[local] Arguments N.ltb : simpl never.
#[local] Arguments ch : simpl never.

Lemma continues_false (u : str) :
  continues u = false ->
  head_digit u = false /\ head_dot u = false /\ head_exp u = false.
Proof.
  unfold continues. intros H.
  apply orb_false_iff in H as [H H3]. apply orb_false_iff in H as [H1 H2].
  auto.
Qed.

Lemma span_digits_app (s ds r t : str) :
  span_digits s = (ds, r) ->
  head_digit (r ++ t) = false ->
  span_digits (s ++ t) = (ds, r ++ t).
Proof.
  revert ds r. induction s as [|c s IH]; intros ds r H Ht.
  - injection H as <- <-. simpl in *. destruct t as [|c t]; [reflexivity|].
    simpl in *. rewrite Ht. reflexivity.
  - simpl in *. destruct (is_digit c) eqn:Ec.
    + destruct (span_digits s) as [ds' r'] eqn:Es.
      injection H as <- <-. rewrite (IH ds' r' eq_refl Ht). reflexivity.
    + injection H as <- <-. reflexivity.
Qed.

Lemma span_digits_rest (s ds r : str) :
  span_digits s = (ds, r) -> head_digit r = false.
Proof.
  revert ds r. induction s as [|c s IH]; intros ds r H; simpl in H.
  - injection H as <- <-. reflexivity.
  - destruct (is_digit c) eqn:Ec.
    + destruct (span_digits s) as [ds' r'] eqn:Es.
      injection H as <- <-. apply (IH ds' r' eq_refl).
    + injection H as <- <-. simpl. exact Ec.
Qed.

Lemma head_digit_app (s t : str) :
  s <> [] -> head_digit (s ++ t) = head_digit s.
Proof. destruct s; [congruence|reflexivity]. Qed.

Lemma head_dot_app (s t : str) : s <> [] -> head_dot (s ++ t) = head_dot s.
Proof. destruct s; [congruence|reflexivity]. Qed.

Lemma head_exp_app (s t : str) : s <> [] -> head_exp (s ++ t) = head_exp s.
Proof. destruct s; [congruence|reflexivity]. Qed.

Lemma match_nat_app (s ints r t : str) :
  match_nat s = Some (ints, r) ->
  head_digit (r ++ t) = false ->
  match_nat (s ++ t) = Some (ints, r ++ t).
Proof.
  destruct s as [|c s]; [discriminate|]. cbn [match_nat app].
  destruct (N.eqb c (ch "0")).
  - intros [= <- <-] _. reflexivity.
  - destruct (is_digit c) eqn:Ec; [|discriminate].
    intros [= Es] Ht. change (c :: s ++ t) with ((c :: s) ++ t).
    rewrite (span_digits_app (c :: s) ints r t Es Ht). reflexivity.
Qed.

(** The fraction, when there is one, starts at a dot. *)
Lemma match_frac_shape (s ds r : str) :
  match_frac s = (ds, r) ->
  (ds = [] /\ r = s) \/
  (ds <> [] /\ head_dot s = true /\ head_digit r = false).
Proof.
  destruct s as [|c s]; simpl.
  - intros [= <- <-]. left. auto.
  - destruct (N.eqb c (ch ".")) eqn:Ec.
    + destruct (span_digits s) as [[|d ds'] r'] eqn:Es.
      * intros [= <- <-]. left. auto.
      * intros [= <- <-]. right. split; [discriminate|]. split; [reflexivity|].
        apply (span_digits_rest _ _ _ Es).
    + intros [= <- <-]. left. auto.
Qed.

Lemma match_frac_app (s ds r t : str) :
  match_frac s = (ds, r) ->
  head_digit (r ++ t) = false ->
  head_dot (r ++ t) = false \/ ds <> [] ->
  match_frac (s ++ t) = (ds, r ++ t).
Proof.
  destruct s as [|c s]; simpl.
  - intros [= <- <-] _ [Hd|Hd]; [|congruence].
    simpl in Hd. destruct t as [|c t]; [reflexivity|].
    simpl in *. rewrite Hd. reflexivity.
  - destruct (N.eqb c (ch ".")) eqn:Ec.
    + destruct (span_digits s) as [[|d ds'] r'] eqn:Es.
      * intros [= <- <-] _ [Hd|Hd]; [|congruence].
        simpl in Hd. congruence.
      * intros [= <- <-] Hg _.
        rewrite (span_digits_app s (d :: ds') r' t Es Hg). reflexivity.
    + intros [= <- <-] _ _. reflexivity.
Qed.

Lemma match_exp_shape (s : str) (ex : option (bool * str)) (r : str) :
  match_exp s = (ex, r) ->
  (ex = None /\ r = s) \/
  (ex <> None /\ head_exp s = true /\ head_digit r = false).
Proof.
  destruct s as [|c s]; simpl.
  - intros [= <- <-]. left. auto.
  - destruct (N.eqb c (ch "e") || N.eqb c (ch "E")) eqn:Ec.
    + destruct (match s with
                | [] => (false, s)
                | g :: t =>
                    if N.eqb g (ch "-") then (true, t)
                    else if N.eqb g (ch "+") then (false, t) else (false, s)
                end) as [neg s''] eqn:Esign.
      destruct (span_digits s'') as [[|d ds'] r'] eqn:Es.
      * intros [= <- <-]. left. auto.
      * intros [= <- <-]. right. split; [discriminate|]. split; [reflexivity|].
        apply (span_digits_rest _ _ _ Es).
    + intros [= <- <-]. left. auto.
Qed.

Lemma match_exp_app (s : str) (ex : option (bool * str)) (r t : str) :
  match_exp s = (ex, r) ->
  head_digit (r ++ t) = false ->
  head_exp (r ++ t) = false \/ ex <> None ->
  match_exp (s ++ t) = (ex, r ++ t).
Proof.
  destruct s as [|c s]; simpl.
  - intros [= <- <-] _ [Hd|Hd]; [|congruence].
    simpl in Hd. destruct t as [|c t]; [reflexivity|].
    simpl in *. rewrite Hd. reflexivity.
  - destruct (N.eqb c (ch "e") || N.eqb c (ch "E")) eqn:Ec.
    + destruct s as [|g s1].
      * simpl. intros [= <- <-] _ [Hd|Hd]; [|congruence].
        simpl in Hd. congruence.
      * cbn [app].
        destruct (N.eqb g (ch "-")) eqn:Eg1;
          [|destruct (N.eqb g (ch "+")) eqn:Eg2].
        -- destruct (span_digits s1) as [[|d ds'] r'] eqn:Es.
           ++ intros [= <- <-] _ [Hd|Hd]; [|congruence].
              simpl in Hd. congruence.
           ++ intros [= <- <-] Hg _.
              rewrite (span_digits_app s1 (d :: ds') r' t Es Hg). reflexivity.
        -- destruct (span_digits s1) as [[|d ds'] r'] eqn:Es.
           ++ intros [= <- <-] _ [Hd|Hd]; [|congruence].
              simpl in Hd. congruence.
           ++ intros [= <- <-] Hg _.
              rewrite (span_digits_app s1 (d :: ds') r' t Es Hg). reflexivity.
        -- destruct (span_digits (g :: s1)) as [[|d ds'] r'] eqn:Es.
           ++ intros [= <- <-] _ [Hd|Hd]; [|congruence].
              simpl in Hd. congruence.
           ++ intros [= <- <-] Hg _.
              change (g :: s1 ++ t) with ((g :: s1) ++ t).
              rewrite (span_digits_app (g :: s1) (d :: ds') r' t Es Hg).
              reflexivity.
    + intros [= <- <-] _ _. reflexivity.
Qed.

Lemma head_dot_facts (s : str) :
  head_dot s = true -> s <> [] /\ head_digit s = false.
Proof.
  destruct s as [|c s]; [discriminate|]. simpl. intros H.
  apply N.eqb_eq in H. subst c. split; [discriminate|reflexivity].
Qed.

Lemma head_exp_facts (s : str) :
  head_exp s = true ->
  s <> [] /\ head_digit s = false /\ head_dot s = false.
Proof.
  destruct s as [|c s]; [discriminate|]. simpl. intros H.
  apply orb_true_iff in H as [H|H]; apply N.eqb_eq in H; subst c;
    (split; [discriminate|split; reflexivity]).
Qed.

Lemma number_value_app neg ints frac ex (r t : str) v r' :
  number_value neg ints frac ex r = Scanned v r' ->
  r' = r /\ number_value neg ints frac ex (r ++ t) = Scanned v (r ++ t).
Proof.
  unfold number_value.
  destruct frac as [|d frac], ex as [[eneg eds]|];
    try (intros [= <- <-]; split; reflexivity).
  destruct (Nat.ltb max_str_digits (length ints)); [discriminate|].
  intros [= <- <-]. split; reflexivity.
Qed.

Lemma match_sign_app (s s0 t : str) (neg : bool) :
  match_sign s = (neg, s0) -> s <> [] -> match_sign (s ++ t) = (neg, s0 ++ t).
Proof.
  destruct s as [|c s]; [congruence|]. cbn [match_sign app].
  destruct (N.eqb c (ch "-")); intros [= <- <-] _; reflexivity.
Qed.

(** A number that is followed by text that cannot extend it is scanned
    the same whatever comes after. *)
Lemma scan_number_app (s : str) (v : value) (r t : str) :
  scan_number s = Some (Scanned v r) ->
  continues (r ++ t) = false ->
  scan_number (s ++ t) = Some (Scanned v (r ++ t)).
Proof.
  unfold scan_number.
  destruct (match_sign s) as [neg s0] eqn:Esign.
  destruct (match_nat s0) as [[ints s1]|] eqn:En; [|discriminate].
  destruct (match_frac s1) as [frac s2] eqn:Ef.
  destruct (match_exp s2) as [ex s3] eqn:Ee.
  intros [= H] Hc.
  apply number_value_app with (t := t) in H as [-> H].
  apply continues_false in Hc as (C1 & C2 & C3).
  assert (Hs : s <> []).
  { intros ->. injection Esign as <- <-. discriminate. }
  rewrite (match_sign_app s s0 t neg Esign Hs).
  destruct (match_exp_shape _ _ _ Ee) as [[-> ->]|(Hex & Hhe & _)];
    destruct (match_frac_shape _ _ _ Ef) as [[-> ->]|(Hfr & Hhd & _)].
  - rewrite (match_nat_app _ _ _ t En C1).
    rewrite (match_frac_app _ _ _ t Ef C1 (or_introl C2)).
    rewrite (match_exp_app _ _ _ t Ee C1 (or_introl C3)). rewrite H.
    reflexivity.
  - destruct (head_dot_facts _ Hhd) as [N1 D1].
    rewrite (match_nat_app _ _ _ t En)
      by (rewrite head_digit_app by exact N1; exact D1).
    rewrite (match_frac_app _ _ _ t Ef C1 (or_intror Hfr)).
    rewrite (match_exp_app _ _ _ t Ee C1 (or_introl C3)). rewrite H.
    reflexivity.
  - destruct (head_exp_facts _ Hhe) as (N2 & D2 & P2).
    rewrite (match_nat_app _ _ _ t En)
      by (rewrite head_digit_app by exact N2; exact D2).
    rewrite (match_frac_app _ _ _ t Ef)
      by (first [rewrite head_digit_app by exact N2; exact D2
                | left; rewrite head_dot_app by exact N2; exact P2]).
    rewrite (match_exp_app _ _ _ t Ee C1 (or_intror Hex)). rewrite H.
    reflexivity.
  - destruct (head_dot_facts _ Hhd) as [N1 D1].
    destruct (head_exp_facts _ Hhe) as (N2 & D2 & P2).
    rewrite (match_nat_app _ _ _ t En)
      by (rewrite head_digit_app by exact N1; exact D1).
    rewrite (match_frac_app _ _ _ t Ef)
      by (first [rewrite head_digit_app by exact N2; exact D2
                | right; exact Hfr]).
    rewrite (match_exp_app _ _ _ t Ee C1 (or_intror Hex)). rewrite H.
    reflexivity.
Qed.

Lemma match_nat_none_app (s t : str) :
  match_nat s = None -> s <> [] -> match_nat (s ++ t) = None.
Proof.
  destruct s as [|c s]; [congruence|]. cbn [match_nat app].
  destruct (N.eqb c (ch "0")); [discriminate|].
  destruct (is_digit c); [discriminate|reflexivity].
Qed.

(** Text that does not start with a number does not start with one when
    more text follows, unless it is empty or a lone minus sign. *)
Lemma scan_number_none_app (s t : str) :
  scan_number s = None -> s <> [] -> s <> [ch "-"] ->
  scan_number (s ++ t) = None.
Proof.
  unfold scan_number. intros H Hs Hm.
  destruct (match_sign s) as [neg s0] eqn:Esign.
  rewrite (match_sign_app s s0 t neg Esign Hs).
  assert (H0 : s0 <> []).
  { destruct s as [|c s]; [congruence|]. cbn [match_sign] in Esign.
    destruct (N.eqb c (ch "-")) eqn:Ec.
    - injection Esign as <- <-. apply N.eqb_eq in Ec. subst c.
      intros ->. apply Hm. reflexivity.
    - injection Esign as <- <-. discriminate. }
  destruct (match_nat s0) as [[ints s1]|] eqn:En.
  - destruct (match_frac s1) as [frac s2].
    destruct (match_exp s2) as [ex s3]. discriminate.
  - rewrite (match_nat_none_app s0 t En H0). reflexivity.
Qed.

Lemma prefixb_app (p s t : str) :
  Str.prefixb p s = true -> Str.prefixb p (s ++ t) = true.
Proof.
  revert s. induction p as [|a p IH]; intros [|b s]; simpl;
    try discriminate; auto.
  intros H. apply andb_true_iff in H as [-> H]. apply IH, H.
Qed.

Lemma prefixb_head_ne (a c : N) (p s t : str) :
  N.eqb a c = false -> Str.prefixb (a :: p) ((c :: s) ++ t) = false.
Proof. intros H. simpl. rewrite H. reflexivity. Qed.

Lemma drop_literal (p s t : str) :
  Str.prefixb p s = true ->
  drop (length p) (s ++ t) = drop (length p) s ++ t.
Proof. intros H. apply drop_app_le, prefixb_length, H. Qed.

(** A literal or a number is scanned the same whatever follows, as long
    as what follows cannot extend the number. *)
Lemma scan_atom_app (s : str) (v : value) (r t : str) :
  scan_atom s = Scanned v r ->
  (scan_number s <> None -> continues (r ++ t) = false) ->
  scan_atom (s ++ t) = Scanned v (r ++ t).
Proof.
  intros H Hc. destruct s as [|c s']; [vm_compute in H; discriminate|].
  unfold scan_atom in *.
  destruct (Str.prefixb (lit "null") (c :: s')) eqn:E1.
  { rewrite (prefixb_app _ _ t E1). injection H as <- <-. f_equal.
    apply (drop_literal (lit "null")), E1. }
  replace (Str.prefixb (lit "null") ((c :: s') ++ t)) with false.
  2:{ symmetry. apply (prefixb_head_ne (ch "n") c (lit "ull")).
      destruct (N.eqb (ch "n") c) eqn:Ec; [|reflexivity].
      apply N.eqb_eq in Ec. subst c. try rewrite E1 in H.
      vm_compute in H. discriminate. }
  try rewrite E1 in H.
  destruct (Str.prefixb (lit "true") (c :: s')) eqn:E2.
  { rewrite (prefixb_app _ _ t E2). injection H as <- <-. f_equal.
    apply (drop_literal (lit "true")), E2. }
  replace (Str.prefixb (lit "true") ((c :: s') ++ t)) with false.
  2:{ symmetry. apply (prefixb_head_ne (ch "t") c (lit "rue")).
      destruct (N.eqb (ch "t") c) eqn:Ec; [|reflexivity].
      apply N.eqb_eq in Ec. subst c. try rewrite E2 in H.
      vm_compute in H. discriminate. }
  try rewrite E2 in H.
  destruct (Str.prefixb (lit "false") (c :: s')) eqn:E3.
  { rewrite (prefixb_app _ _ t E3). injection H as <- <-. f_equal.
    apply (drop_literal (lit "false")), E3. }
  replace (Str.prefixb (lit "false") ((c :: s') ++ t)) with false.
  2:{ symmetry. apply (prefixb_head_ne (ch "f") c (lit "alse")).
      destruct (N.eqb (ch "f") c) eqn:Ec; [|reflexivity].
      apply N.eqb_eq in Ec. subst c. try rewrite E3 in H.
      vm_compute in H. discriminate. }
  try rewrite E3 in H.
  destruct (scan_number (c :: s')) as [res|] eqn:En.
  { subst res.
    rewrite (scan_number_app _ _ _ t En (Hc ltac:(discriminate))).
    reflexivity. }
  rewrite (scan_number_none_app (c :: s') t En);
    [|discriminate
     |intros [= -> ->]; vm_compute in H; discriminate].
  destruct (Str.prefixb (lit "NaN") (c :: s')) eqn:E4.
  { rewrite (prefixb_app _ _ t E4). injection H as <- <-. f_equal.
    apply (drop_literal (lit "NaN")), E4. }
  replace (Str.prefixb (lit "NaN") ((c :: s') ++ t)) with false.
  2:{ symmetry. apply (prefixb_head_ne (ch "N") c (lit "aN")).
      destruct (N.eqb (ch "N") c) eqn:Ec; [|reflexivity].
      apply N.eqb_eq in Ec. subst c. try rewrite E4 in H.
      vm_compute in H. discriminate. }
  try rewrite E4 in H.
  destruct (Str.prefixb (lit "Infinity") (c :: s')) eqn:E5.
  { rewrite (prefixb_app _ _ t E5). injection H as <- <-. f_equal.
    apply (drop_literal (lit "Infinity")), E5. }
  replace (Str.prefixb (lit "Infinity") ((c :: s') ++ t)) with false.
  2:{ symmetry. apply (prefixb_head_ne (ch "I") c (lit "nfinity")).
      destruct (N.eqb (ch "I") c) eqn:Ec; [|reflexivity].
      apply N.eqb_eq in Ec. subst c. try rewrite E5 in H.
      vm_compute in H. discriminate. }
  try rewrite E5 in H.
  destruct (Str.prefixb (lit "-Infinity") (c :: s')) eqn:E6;
    [|discriminate].
  rewrite (prefixb_app _ _ t E6). injection H as <- <-. f_equal.
  apply (drop_literal (lit "-Infinity")), E6.
Qed.

(** *** Strings *)

Lemma scanstring_cons (c : N) (s1 : str) :
  scanstring (c :: s1) =
  if N.eqb c quote then Ok ([], s1)
  else if N.eqb c (ch "\") then escaped s1
  else if N.ltb c 32 then Raise JSONDecodeError
  else cons_char c (scanstring s1).
Proof. destruct s1 as [|e [|h1 [|h2 [|h3 [|h4 s3]]]]]; reflexivity. Qed.

Lemma cons_char_lift (c : N) (x x' : result (str * str)) (t : str) :
  (forall k r, x = Ok (k, r) -> x' = Ok (k, r ++ t)) ->
  forall k r, cons_char c x = Ok (k, r) -> cons_char c x' = Ok (k, r ++ t).
Proof.
  intros Hx k r. unfold cons_char.
  destruct x as [[k0 r0]|e]; [|discriminate].
  intros [= <- <-]. rewrite (Hx k0 r0 eq_refl). reflexivity.
Qed.

Lemma low_unit_app (t : str) (uni : N) (s3 s4 : str) :
  string_stable t s3 ->
  (forall s5, (length s5 < length s4)%nat -> string_stable t s5) ->
  forall k r, low_unit uni s3 s4 = Ok (k, r) ->
              low_unit uni (s3 ++ t) (s4 ++ t) = Ok (k, r ++ t).
Proof.
  intros H3 H5 k r.
  destruct s4 as [|g1 [|g2 [|g3 [|g4 s5]]]]; try discriminate.
  cbn [app]. unfold low_unit.
  destruct (hex4 g1 g2 g3 g4) as [uni2|]; [|discriminate].
  destruct (is_low_surrogate uni2).
  - apply cons_char_lift. apply H5. simpl. lia.
  - apply cons_char_lift. apply H3.
Qed.

Lemma after_unit_app (t : str) (uni : N) (s3 : str) :
  (forall s', (length s' <= length s3)%nat -> string_stable t s') ->
  forall k r, after_unit uni s3 = Ok (k, r) ->
              after_unit uni (s3 ++ t) = Ok (k, r ++ t).
Proof.
  intros Hrec k r H.
  destruct s3 as [|b [|u s4]].
  - discriminate.
  - assert (Hb : N.eqb b (ch "\") = false).
    { destruct (N.eqb b (ch "\")) eqn:E; [|reflexivity].
      apply N.eqb_eq in E. subst b. discriminate. }
    unfold after_unit in H.
    destruct t as [|u t'].
    + rewrite !app_nil_r. exact H.
    + cbn [app]. unfold after_unit. rewrite Hb, andb_false_r. cbn [andb].
      change (b :: u :: t') with ([b] ++ u :: t').
      revert H. apply cons_char_lift. apply Hrec. simpl. lia.
  - cbn [app]. unfold after_unit in *.
    destruct (is_high_surrogate uni && N.eqb b (ch "\") && N.eqb u (ch "u")).
    + change (b :: u :: s4 ++ t) with ((b :: u :: s4) ++ t).
      apply low_unit_app; [apply Hrec; lia| |exact H].
      intros s5 H5. apply Hrec. simpl. lia.
    + change (b :: u :: s4 ++ t) with ((b :: u :: s4) ++ t).
      revert H. apply cons_char_lift. apply Hrec. lia.
Qed.

Lemma escaped_app (t : str) (s1 : str) :
  (forall s', (length s' < length s1)%nat -> string_stable t s') ->
  forall k r, escaped s1 = Ok (k, r) -> escaped (s1 ++ t) = Ok (k, r ++ t).
Proof.
  intros Hrec k r H.
  destruct s1 as [|esc s2]; [discriminate|].
  cbn [app]. unfold escaped in *.
  destruct (N.eqb esc (ch "u")).
  - destruct s2 as [|h1 [|h2 [|h3 [|h4 s3]]]]; try discriminate.
    cbn [app]. unfold unicode_escape in *.
    destruct (hex4 h1 h2 h3 h4) as [uni|]; [|discriminate].
    apply after_unit_app; [|exact H].
    intros s' Hs'. apply Hrec. simpl. lia.
  - destruct (unescape esc) as [c'|]; [|discriminate].
    revert H. apply cons_char_lift. apply Hrec. simpl. lia.
Qed.

Lemma scanstring_app_len (t : str) :
  forall (n : nat) (s : str), (length s <= n)%nat -> string_stable t s.
Proof.
  induction n as [|n IH]; intros s Hn k r H.
  - destruct s; [discriminate|simpl in Hn; lia].
  - destruct s as [|c s1]; [discriminate|].
    cbn [app]. rewrite scanstring_cons in *. simpl in Hn.
    destruct (N.eqb c quote).
    + injection H as <- <-. reflexivity.
    + destruct (N.eqb c (ch "\")).
      * apply escaped_app; [|exact H].
        intros s' Hs'. apply IH. lia.
      * destruct (N.ltb c 32); [discriminate|].
        revert H. apply cons_char_lift. apply IH. lia.
Qed.

Lemma scanstring_app (s k r t : str) :
  scanstring s = Ok (k, r) -> scanstring (s ++ t) = Ok (k, r ++ t).
Proof. apply (scanstring_app_len t (length s) s). lia. Qed.

(** *** Whitespace and delimiters *)

Lemma skip_ws_app (s r t : str) (c : N) :
  skip_ws s = c :: r -> skip_ws (s ++ t) = c :: r ++ t.
Proof.
  induction s as [|a s IH]; [discriminate|]. cbn [skip_ws app].
  destruct (is_ws a); [exact IH|]. intros [= <- <-]. reflexivity.
Qed.

Lemma is_ws_continues (c : N) (u : str) :
  is_ws c = true -> continues (c :: u) = false.
Proof.
  unfold is_ws. intros H.
  repeat (apply orb_true_iff in H as [H|H]);
    apply N.eqb_eq in H; subst c; reflexivity.
Qed.

(** What stands between a value and the delimiter behind it cannot
    extend a number. *)
Lemma delimiter_continues (r r' t : str) (c : N) :
  skip_ws r = c :: r' ->
  N.eqb c (ch "]") || N.eqb c (ch ",") || N.eqb c (ch "}") = true ->
  continues (r ++ t) = false.
Proof.
  destruct r as [|a r0]; [discriminate|]. cbn [skip_ws app].
  destruct (is_ws a) eqn:Ea.
  - intros _ _. apply is_ws_continues, Ea.
  - intros [= <- <-] H.
    repeat (apply orb_true_iff in H as [H|H]);
      apply N.eqb_eq in H; subst a; reflexivity.
Qed.

(** *** The scanner and its loops *)

Lemma scan_once_body_stable (t : str) array object :
  loop_stable t array -> loop_strict array -> loop_stable t object ->
  scan_stable t (scan_once_body array object).
Proof.
  intros Harr Hstrict Hobj s v r H Hc.
  destruct s as [|c s']; [discriminate|].
  cbn [app]. unfold scan_once_body in *.
  destruct (N.eqb c quote).
  { destruct (scanstring s') as [[k r0]|e] eqn:Es; [|discriminate].
    injection H as <- <-. rewrite (scanstring_app _ _ _ t Es). reflexivity. }
  destruct (N.eqb c (ch "{")).
  { destruct (skip_ws s') as [|c1 r1] eqn:Ew; [discriminate|].
    rewrite (skip_ws_app _ _ t _ Ew).
    destruct (N.eqb c1 (ch "}")); [injection H as <- <-; reflexivity|].
    destruct (N.eqb c1 quote); [|discriminate].
    apply Hobj, H. }
  destruct (N.eqb c (ch "[")).
  { destruct (skip_ws s') as [|c1 r1] eqn:Ew.
    - exfalso. apply (Hstrict _ _ _ H).
    - rewrite (skip_ws_app _ _ t _ Ew).
      destruct (N.eqb c1 (ch "]")); [injection H as <- <-; reflexivity|].
      change (c1 :: r1 ++ t) with ((c1 :: r1) ++ t). apply Harr, H. }
  change (c :: s' ++ t) with ((c :: s') ++ t).
  apply scan_atom_app; assumption.
Qed.

Lemma scan_once_body_strict array object :
  scan_strict (scan_once_body array object).
Proof. intros v r. discriminate. Qed.

Lemma array_loop_body_stable (t : str) scan array :
  scan_stable t scan -> loop_stable t array -> loop_strict array ->
  loop_stable t (array_loop_body scan array).
Proof.
  intros Hscan Harr Hstrict s acc v r H.
  unfold array_loop_body in *.
  destruct (scan s) as [v1 r1| |] eqn:Es; try discriminate.
  destruct (skip_ws r1) as [|c r'] eqn:Ew; [discriminate|].
  destruct (N.eqb c (ch "]")) eqn:E1.
  { injection H as <- <-.
    rewrite (Hscan s v1 r1 Es)
      by (intros _; apply (delimiter_continues r1 r' t c Ew);
          rewrite E1; reflexivity).
    rewrite (skip_ws_app _ _ t _ Ew), E1. reflexivity. }
  destruct (N.eqb c (ch ",")) eqn:E2; [|discriminate].
  rewrite (Hscan s v1 r1 Es)
    by (intros _; apply (delimiter_continues r1 r' t c Ew);
        rewrite E2, orb_true_r; reflexivity).
  rewrite (skip_ws_app _ _ t _ Ew), E1, E2.
  destruct (skip_ws r') as [|c2 r2] eqn:Ew2;
    [exfalso; apply (Hstrict _ _ _ H)|].
  rewrite (skip_ws_app _ _ t _ Ew2).
  change (c2 :: r2 ++ t) with ((c2 :: r2) ++ t). apply Harr, H.
Qed.

Lemma array_loop_body_strict scan array :
  scan_strict scan -> loop_strict (array_loop_body scan array).
Proof.
  intros Hs acc v r. unfold array_loop_body.
  destruct (scan []) as [v1 r1| |] eqn:E; try discriminate.
  exfalso. apply (Hs _ _ E).
Qed.

Lemma object_loop_body_stable (t : str) scan object :
  scan_stable t scan -> scan_strict scan -> loop_stable t object ->
  loop_stable t (object_loop_body scan object).
Proof.
  intros Hscan Hstrict Hobj s acc v r H.
  unfold object_loop_body in *.
  destruct (scanstring s) as [[key r0]|e] eqn:Es; [|discriminate].
  rewrite (scanstring_app _ _ _ t Es).
  destruct (skip_ws r0) as [|c r1] eqn:Ew; [discriminate|].
  rewrite (skip_ws_app _ _ t _ Ew).
  destruct (N.eqb c (ch ":")); [|discriminate].
  destruct (scan (skip_ws r1)) as [v1 r2| |] eqn:Esc; try discriminate.
  destruct (skip_ws r1) as [|c1 r1'] eqn:Ew1;
    [exfalso; apply (Hstrict _ _ Esc)|].
  rewrite (skip_ws_app _ _ t _ Ew1).
  change (c1 :: r1' ++ t) with ((c1 :: r1') ++ t).
  destruct (skip_ws r2) as [|c2 r3] eqn:Ew2; [discriminate|].
  destruct (N.eqb c2 (ch "}")) eqn:E1.
  { injection H as <- <-.
    rewrite (Hscan _ v1 r2 Esc)
      by (intros _; apply (delimiter_continues r2 r3 t c2 Ew2);
          rewrite E1, orb_true_r; reflexivity).
    rewrite (skip_ws_app _ _ t _ Ew2), E1. reflexivity. }
  destruct (N.eqb c2 (ch ",")) eqn:E2; [|discriminate].
  rewrite (Hscan _ v1 r2 Esc)
    by (intros _; apply (delimiter_continues r2 r3 t c2 Ew2);
        rewrite E2, orb_true_r; reflexivity).
  rewrite (skip_ws_app _ _ t _ Ew2), E1, E2.
  destruct (skip_ws r3) as [|c3 r4] eqn:Ew3; [discriminate|].
  rewrite (skip_ws_app _ _ t _ Ew3).
  destruct (N.eqb c3 quote); [|discriminate].
  apply Hobj, H.
Qed.

Lemma scan_once_stable (t : str) (n : nat) :
  scan_stable t (scan_once n) /\ scan_strict (scan_once n) /\
  loop_stable t (array_loop n) /\ loop_strict (array_loop n) /\
  loop_stable t (object_loop n).
Proof.
  induction n as [|n (Hs & Hss & Ha & Has & Ho)].
  - repeat split; repeat intro; discriminate.
  - cbn [scan_once array_loop object_loop].
    split; [apply scan_once_body_stable; assumption|].
    split; [apply scan_once_body_strict|].
    split; [apply array_loop_body_stable; assumption|].
    split; [apply array_loop_body_strict; assumption|].
    apply object_loop_body_stable; assumption.
Qed.

(** *** More fuel does not change a result *)

Lemma scan_once_body_le a a' o o' :
  loop_le a a' -> loop_le o o' ->
  scan_le (scan_once_body a o) (scan_once_body a' o').
Proof.
  intros Ha Ho s H. unfold scan_once_body in *.
  destruct s as [|c s']; [reflexivity|].
  destruct (N.eqb c quote); [reflexivity|].
  destruct (N.eqb c (ch "{")).
  { destruct (skip_ws s') as [|c1 r]; [reflexivity|].
    destruct (N.eqb c1 (ch "}")); [reflexivity|].
    destruct (N.eqb c1 quote); [|reflexivity]. apply Ho, H. }
  destruct (N.eqb c (ch "[")); [|reflexivity].
  destruct (skip_ws s') as [|c1 r]; [apply Ha, H|].
  destruct (N.eqb c1 (ch "]")); [reflexivity|]. apply Ha, H.
Qed.

Lemma array_loop_body_le f f' a a' :
  scan_le f f' -> loop_le a a' ->
  loop_le (array_loop_body f a) (array_loop_body f' a').
Proof.
  intros Hf Ha s acc H. unfold array_loop_body in *.
  destruct (f s) as [v r| |] eqn:E; [| |congruence];
    rewrite (Hf s) by (rewrite E; discriminate); rewrite E; [|reflexivity].
  destruct (skip_ws r) as [|c r']; [reflexivity|].
  destruct (N.eqb c (ch "]")); [reflexivity|].
  destruct (N.eqb c (ch ",")); [|reflexivity]. apply Ha, H.
Qed.

Lemma object_loop_body_le f f' o o' :
  scan_le f f' -> loop_le o o' ->
  loop_le (object_loop_body f o) (object_loop_body f' o').
Proof.
  intros Hf Ho s acc H. unfold object_loop_body in *.
  destruct (scanstring s) as [[key r]|e]; [|reflexivity].
  destruct (skip_ws r) as [|c r1]; [reflexivity|].
  destruct (N.eqb c (ch ":")); [|reflexivity].
  destruct (f (skip_ws r1)) as [v r2| |] eqn:E; [| |congruence];
    rewrite (Hf (skip_ws r1)) by (rewrite E; discriminate); rewrite E;
    [|reflexivity].
  destruct (skip_ws r2) as [|c2 r3]; [reflexivity|].
  destruct (N.eqb c2 (ch "}")); [reflexivity|].
  destruct (N.eqb c2 (ch ",")); [|reflexivity].
  destruct (skip_ws r3) as [|c3 r4]; [reflexivity|].
  destruct (N.eqb c3 quote); [|reflexivity]. apply Ho, H.
Qed.

Lemma fuel_step (n : nat) :
  scan_le (scan_once n) (scan_once (S n)) /\
  loop_le (array_loop n) (array_loop (S n)) /\
  loop_le (object_loop n) (object_loop (S n)).
Proof.
  induction n as [|n (Hs & Ha & Ho)].
  - repeat split; repeat intro; cbn in *; congruence.
  - split; [|split].
    + apply scan_once_body_le; assumption.
    + apply array_loop_body_le; assumption.
    + apply object_loop_body_le; assumption.
Qed.

Lemma scan_once_more_fuel (n m : nat) (s : str) :
  (n <= m)%nat -> scan_once n s <> Starved -> scan_once m s = scan_once n s.
Proof.
  induction 1 as [|m Hle IH]; intros H; [reflexivity|].
  rewrite <- (IH H). apply (fuel_step m). rewrite (IH H). exact H.
Qed.

(** *** The fuel of [raw_decode] suffices *)

Lemma skip_ws_length (s : str) : (length (skip_ws s) <= length s)%nat.
Proof.
  induction s as [|c s IH]; simpl; [lia|]. destruct (is_ws c); simpl; lia.
Qed.

Lemma skip_ws_cons_length (s r : str) (c : N) :
  skip_ws s = c :: r -> (length r < length s)%nat.
Proof.
  intros H. pose proof (skip_ws_length s) as L. rewrite H in L.
  simpl in L. lia.
Qed.

Lemma span_digits_length (s ds r : str) :
  span_digits s = (ds, r) -> (length r <= length s)%nat.
Proof.
  revert ds r. induction s as [|c s IH]; intros ds r; simpl.
  - intros [= <- <-]. simpl. lia.
  - destruct (is_digit c).
    + destruct (span_digits s) as [ds' r'] eqn:E. intros [= <- <-].
      specialize (IH ds' r' eq_refl). lia.
    + intros [= <- <-]. simpl. lia.
Qed.

Lemma scan_number_length (s : str) (v : value) (r : str) :
  scan_number s = Some (Scanned v r) -> (length r <= length s)%nat.
Proof.
  unfold scan_number.
  destruct (match_sign s) as [neg s0] eqn:Esign.
  destruct (match_nat s0) as [[ints s1]|] eqn:En; [|discriminate].
  destruct (match_frac s1) as [frac s2] eqn:Ef.
  destruct (match_exp s2) as [ex s3] eqn:Ee.
  intros [= H]. apply number_value_app with (t := []) in H as [-> _].
  assert (L0 : (length s0 <= length s)%nat).
  { destruct s as [|c s]; cbn [match_sign] in Esign.
    - injection Esign as <- <-. lia.
    - destruct (N.eqb c (ch "-")); injection Esign as <- <-; simpl; lia. }
  assert (L1 : (length s1 <= length s0)%nat).
  { destruct s0 as [|c s0]; [discriminate|]. cbn [match_nat] in En.
    destruct (N.eqb c (ch "0")).
    - injection En as <- <-. simpl. lia.
    - destruct (is_digit c); [|discriminate].
      assert (E : span_digits (c :: s0) = (ints, s1)) by congruence.
      apply span_digits_length in E. exact E. }
  assert (L2 : (length s2 <= length s1)%nat).
  { destruct (match_frac_shape _ _ _ Ef) as [[_ ->]|(Hne & _ & _)]; [lia|].
    destruct s1 as [|c s1]; cbn [match_frac] in Ef.
    - injection Ef as <- <-. lia.
    - destruct (N.eqb c (ch ".")).
      + destruct (span_digits s1) as [[|d ds'] r'] eqn:Es.
        * injection Ef as <- <-. lia.
        * injection Ef as <- <-. apply span_digits_length in Es.
          simpl. lia.
      + injection Ef as <- <-. lia. }
  assert (L3 : (length s3 <= length s2)%nat).
  { destruct (match_exp_shape _ _ _ Ee) as [[_ ->]|(Hne & _ & _)]; [lia|].
    destruct s2 as [|c s2]; cbn [match_exp] in Ee.
    - injection Ee as <- <-. lia.
    - destruct (N.eqb c (ch "e") || N.eqb c (ch "E")).
      + destruct (match s2 with
                  | [] => (false, s2)
                  | g :: t =>
                      if N.eqb g (ch "-") then (true, t)
                      else if N.eqb g (ch "+") then (false, t)
                      else (false, s2)
                  end) as [eneg s''] eqn:Esg.
        assert (L : (length s'' <= length s2)%nat).
        { destruct s2 as [|g s2]; [injection Esg as <- <-; lia|].
          destruct (N.eqb g (ch "-")); [injection Esg as <- <-; simpl; lia|].
          destruct (N.eqb g (ch "+")); injection Esg as <- <-; simpl; lia. }
        destruct (span_digits s'') as [[|d ds'] r'] eqn:Es.
        * injection Ee as <- <-. lia.
        * injection Ee as <- <-. apply span_digits_length in Es.
          simpl. lia.
      + injection Ee as <- <-. lia. }
  lia.
Qed.

Lemma scan_atom_length (s : str) (v : value) (r : str) :
  scan_atom s = Scanned v r -> (length r <= length s)%nat.
Proof.
  unfold scan_atom.
  repeat match goal with
         | |- context [if Str.prefixb ?p s then _ else _] =>
             destruct (Str.prefixb p s);
             [intros [= <- <-]; rewrite length_drop; lia|]
         end.
  destruct (scan_number s) as [res|] eqn:En.
  - intros ->. apply (scan_number_length _ _ _ En).
  - repeat match goal with
           | |- context [if Str.prefixb ?p s then _ else _] =>
               destruct (Str.prefixb p s);
               [intros [= <- <-]; rewrite length_drop; lia|]
           end.
    discriminate.
Qed.

Lemma cons_char_rest (c : N) (x : result (str * str)) (k r : str) :
  cons_char c x = Ok (k, r) -> exists k', x = Ok (k', r).
Proof.
  unfold cons_char. destruct x as [[k0 r0]|e]; [|discriminate].
  intros [= <- <-]. eauto.
Qed.

Lemma scanstring_length_len :
  forall (n : nat) (s : str), (length s <= n)%nat -> string_bounded s.
Proof.
  induction n as [|n IH]; intros s Hn k r H.
  - destruct s; [discriminate|simpl in Hn; lia].
  - destruct s as [|c s1]; [discriminate|].
    rewrite scanstring_cons in H. simpl in Hn |- *.
    assert (Hrec : forall c' s' k r,
               (length s' <= length s1)%nat ->
               cons_char c' (scanstring s') = Ok (k, r) ->
               (length r <= S (length s1))%nat).
    { intros c' s' k0 r0 Hs' Hc. apply cons_char_rest in Hc as [k' Hc].
      apply IH in Hc; lia. }
    destruct (N.eqb c quote); [injection H as <- <-; lia|].
    destruct (N.eqb c (ch "\")).
    + unfold escaped in H. destruct s1 as [|esc s2]; [discriminate|].
      destruct (N.eqb esc (ch "u")).
      * unfold unicode_escape in H.
        destruct s2 as [|h1 [|h2 [|h3 [|h4 s3]]]]; try discriminate.
        destruct (hex4 h1 h2 h3 h4) as [uni|]; [|discriminate].
        unfold after_unit in H.
        destruct s3 as [|b [|u s4]];
          try (apply Hrec in H; [exact H|simpl; lia]).
        destruct (is_high_surrogate uni && N.eqb b (ch "\")
                  && N.eqb u (ch "u"));
          [|apply Hrec in H; [exact H|simpl; lia]].
        unfold low_unit in H.
        destruct s4 as [|g1 [|g2 [|g3 [|g4 s5]]]]; try discriminate.
        destruct (hex4 g1 g2 g3 g4) as [uni2|]; [|discriminate].
        destruct (is_low_surrogate uni2);
          apply Hrec in H; first [exact H|simpl; lia].
      * destruct (unescape esc) as [c'|]; [|discriminate].
        apply Hrec in H; [exact H|simpl; lia].
    + destruct (N.ltb c 32); [discriminate|].
      apply Hrec in H; [exact H|lia].
Qed.

Lemma scanstring_length (s k r : str) :
  scanstring s = Ok (k, r) -> (length r <= length s)%nat.
Proof. apply (scanstring_length_len (length s) s). lia. Qed.

Lemma scan_once_body_bounded a o :
  loop_bounded a -> loop_bounded o -> scan_bounded (scan_once_body a o).
Proof.
  intros Ha Ho s v r. unfold scan_once_body.
  destruct s as [|c s']; [discriminate|]. simpl length.
  destruct (N.eqb c quote).
  { destruct (scanstring s') as [[k r0]|e] eqn:Es; [|discriminate].
    intros [= <- <-]. apply scanstring_length in Es. lia. }
  destruct (N.eqb c (ch "{")).
  { destruct (skip_ws s') as [|c1 r1] eqn:Ew; [discriminate|].
    apply skip_ws_cons_length in Ew.
    destruct (N.eqb c1 (ch "}")); [intros [= <- <-]; lia|].
    destruct (N.eqb c1 quote); [|discriminate].
    intros H. apply Ho in H. lia. }
  destruct (N.eqb c (ch "[")).
  { pose proof (skip_ws_length s') as L.
    destruct (skip_ws s') as [|c1 r1] eqn:Ew.
    - intros H. apply Ha in H. simpl in H. lia.
    - destruct (N.eqb c1 (ch "]")); [intros [= <- <-]; simpl in L; lia|].
      intros H. apply Ha in H. lia. }
  intros H. apply scan_atom_length in H. exact H.
Qed.

Lemma array_loop_body_bounded f a :
  scan_bounded f -> loop_bounded a -> loop_bounded (array_loop_body f a).
Proof.
  intros Hf Ha s acc v r. unfold array_loop_body.
  destruct (f s) as [v1 r1| |] eqn:E; try discriminate.
  apply Hf in E.
  destruct (skip_ws r1) as [|c r'] eqn:Ew; [discriminate|].
  apply skip_ws_cons_length in Ew.
  destruct (N.eqb c (ch "]")); [intros [= <- <-]; lia|].
  destruct (N.eqb c (ch ",")); [|discriminate].
  intros H. apply Ha in H. pose proof (skip_ws_length r') as L. lia.
Qed.

Lemma object_loop_body_bounded f o :
  scan_bounded f -> loop_bounded o -> loop_bounded (object_loop_body f o).
Proof.
  intros Hf Ho s acc v r. unfold object_loop_body.
  destruct (scanstring s) as [[key r0]|e] eqn:Es; [|discriminate].
  apply scanstring_length in Es.
  destruct (skip_ws r0) as [|c r1] eqn:Ew; [discriminate|].
  apply skip_ws_cons_length in Ew.
  destruct (N.eqb c (ch ":")); [|discriminate].
  destruct (f (skip_ws r1)) as [v1 r2| |] eqn:E; try discriminate.
  apply Hf in E. pose proof (skip_ws_length r1) as L1.
  destruct (skip_ws r2) as [|c2 r3] eqn:Ew2; [discriminate|].
  apply skip_ws_cons_length in Ew2.
  destruct (N.eqb c2 (ch "}")); [intros [= <- <-]; lia|].
  destruct (N.eqb c2 (ch ",")); [|discriminate].
  destruct (skip_ws r3) as [|c3 r4] eqn:Ew3; [discriminate|].
  apply skip_ws_cons_length in Ew3.
  destruct (N.eqb c3 quote); [|discriminate].
  intros H. apply Ho in H. lia.
Qed.

Lemma scan_once_bounded (n : nat) :
  scan_bounded (scan_once n) /\ loop_bounded (array_loop n) /\
  loop_bounded (object_loop n).
Proof.
  induction n as [|n (Hs & Ha & Ho)].
  - repeat split; repeat intro; discriminate.
  - split; [|split].
    + apply scan_once_body_bounded; assumption.
    + apply array_loop_body_bounded; assumption.
    + apply object_loop_body_bounded; assumption.
Qed.

Lemma scan_atom_not_starved (s : str) : scan_atom s <> Starved.
Proof.
  unfold scan_atom.
  repeat match goal with
         | |- context [if Str.prefixb ?p s then _ else _] =>
             destruct (Str.prefixb p s); [discriminate|]
         end.
  destruct (scan_number s) as [res|] eqn:En.
  - unfold scan_number in En.
    destruct (match_sign s) as [neg s0].
    destruct (match_nat s0) as [[ints s1]|]; [|discriminate].
    destruct (match_frac s1) as [frac s2].
    destruct (match_exp s2) as [ex s3].
    injection En as <-. unfold number_value.
    destruct frac, ex as [[? ?]|]; try discriminate.
    destruct (Nat.ltb max_str_digits (length ints)); discriminate.
  - repeat match goal with
           | |- context [if Str.prefixb ?p s then _ else _] =>
               destruct (Str.prefixb p s); [discriminate|]
           end.
    discriminate.
Qed.

Lemma scan_once_fed_fuel (n : nat) :
  (forall s, (2 * length s < n)%nat -> scan_once n s <> Starved) /\
  (forall s acc, (2 * length s + 1 < n)%nat ->
                 array_loop n s acc <> Starved) /\
  (forall s acc, (2 * length s + 1 < n)%nat ->
                 object_loop n s acc <> Starved).
Proof.
  induction n as [|n (Hs & Ha & Ho)].
  - repeat split; intros; lia.
  - destruct (scan_once_bounded n) as (Bs & Ba & Bo).
    split; [|split].
    + intros s Hn. cbn [scan_once]. unfold scan_once_body.
      destruct s as [|c s']; [discriminate|]. simpl in Hn.
      destruct (N.eqb c quote).
      { destruct (scanstring s') as [[k r]|e]; discriminate. }
      destruct (N.eqb c (ch "{")).
      { destruct (skip_ws s') as [|c1 r] eqn:Ew; [discriminate|].
        apply skip_ws_cons_length in Ew.
        destruct (N.eqb c1 (ch "}")); [discriminate|].
        destruct (N.eqb c1 quote); [|discriminate].
        apply Ho. lia. }
      destruct (N.eqb c (ch "[")); [|apply scan_atom_not_starved].
      pose proof (skip_ws_length s') as L.
      destruct (skip_ws s') as [|c1 r] eqn:Ew.
      * apply Ha. simpl. lia.
      * destruct (N.eqb c1 (ch "]")); [discriminate|].
        apply Ha. simpl in *. lia.
    + intros s acc Hn. cbn [array_loop]. unfold array_loop_body.
      destruct (scan_once n s) as [v r| |] eqn:E;
        [|discriminate|exfalso; apply (Hs s); [lia|exact E]].
      apply Bs in E.
      destruct (skip_ws r) as [|c r'] eqn:Ew; [discriminate|].
      apply skip_ws_cons_length in Ew.
      destruct (N.eqb c (ch "]")); [discriminate|].
      destruct (N.eqb c (ch ",")); [|discriminate].
      apply Ha. pose proof (skip_ws_length r') as L. lia.
    + intros s acc Hn. cbn [object_loop]. unfold object_loop_body.
      destruct (scanstring s) as [[key r0]|e] eqn:Es; [|discriminate].
      apply scanstring_length in Es.
      destruct (skip_ws r0) as [|c r1] eqn:Ew; [discriminate|].
      apply skip_ws_cons_length in Ew.
      destruct (N.eqb c (ch ":")); [|discriminate].
      pose proof (skip_ws_length r1) as L1.
      destruct (scan_once n (skip_ws r1)) as [v r2| |] eqn:E;
        [|discriminate|exfalso; apply (Hs (skip_ws r1)); [lia|exact E]].
      apply Bs in E.
      destruct (skip_ws r2) as [|c2 r3] eqn:Ew2; [discriminate|].
      apply skip_ws_cons_length in Ew2.
      destruct (N.eqb c2 (ch "}")); [discriminate|].
      destruct (N.eqb c2 (ch ",")); [|discriminate].
      destruct (skip_ws r3) as [|c3 r4] eqn:Ew3; [discriminate|].
      apply skip_ws_cons_length in Ew3.
      destruct (N.eqb c3 quote); [|discriminate].
      apply Ho. lia.
Qed.

(** [raw_decode] never runs out of fuel: it returns a value or raises the
    decoder's error. *)
Lemma scan_once_fed (s : str) : scan_once (fuel_for s) s <> Starved.
Proof. apply (scan_once_fed_fuel (fuel_for s)). unfold fuel_for. lia. Qed.

(** The decoder reads the value at the head of the text and leaves the
    rest alone: text appended behind a scanned value comes back as the
    rest, unless the value is a number and the text extends it. *)
Lemma scan_once_app (s t : str) (v : value) :
  scan_once (fuel_for s) s = Scanned v [] ->
  (scan_number s <> None -> continues t = false) ->
  scan_once (fuel_for (s ++ t)) (s ++ t) = Scanned v t.
Proof.
  intros H Hc.
  assert (Hfuel : (fuel_for s <= fuel_for (s ++ t))%nat).
  { unfold fuel_for. rewrite length_app. lia. }
  assert (H' : scan_once (fuel_for (s ++ t)) s = Scanned v []).
  { rewrite (scan_once_more_fuel _ _ s Hfuel); [exact H|].
    rewrite H. discriminate. }
  exact (proj1 (scan_once_stable t (fuel_for (s ++ t))) s v [] H' Hc).
Qed.

End JsonFacts.



(** ** Searching from both ends *)

Lemma rfind_absent (sub s : str) :
  (forall k, ~ Str.occurs_at sub s k) -> Str.rfind s sub = -1.
Proof.
  intros H. unfold Str.rfind.
  destruct (rfind_from_spec sub s 0) as [[E _]|(m & E & Hm & Hp & _)];
    [lia|exact E|].
  exfalso. apply (H (Z.of_nat m)). apply occurs_at_nat. eauto.
Qed.

Lemma find_absent (sub s : str) :
  (forall k, ~ Str.occurs_at sub s k) -> Str.find s sub = -1.
Proof.
  intros H. unfold Str.find.
  destruct (find_from_spec sub s 0) as [[E _]|(m & E & Hm & Hp & _)];
    [lia|exact E|].
  exfalso. apply (H (Z.of_nat m)). apply occurs_at_nat. eauto.
Qed.

(** [find] finds the first occurrence, when there is one. *)
Lemma find_first (sub s : str) (k : Z) :
  Str.occurs_at sub s k ->
  Str.occurs_at sub s (Str.find s sub) /\ Str.find s sub <= k.
Proof.
  intros Hk. apply occurs_at_nat in Hk as (n & -> & Hn & Hp).
  unfold Str.find.
  destruct (find_from_spec sub s 0) as [[_ H]|(m & -> & Hm & Hpm & Hfirst)];
    [lia| |].
  - rewrite H in Hp by assumption. discriminate.
  - split.
    + apply occurs_at_nat. exists m. repeat split; auto.
    + destruct (Nat.le_gt_cases m n) as [|Hlt]; [lia|].
      rewrite Hfirst in Hp by lia. discriminate.
Qed.

(** Occurrences behind a prefix are the occurrences in the rest. *)
Lemma occurs_at_app (sub pre s : str) (j : Z) :
  0 <= j ->
  Str.occurs_at sub (pre ++ s) (len pre + j) <-> Str.occurs_at sub s j.
Proof.
  intros Hj. unfold Str.occurs_at, len. rewrite length_app.
  replace (Z.to_nat (Z.of_nat (length pre) + j))
    with (length pre + Z.to_nat j)%nat by lia.
  rewrite drop_app_add. split; intros [H1 H2]; (split; [lia|exact H2]).
Qed.

(** The last occurrence in a text that is extended to the left. *)
Lemma rfind_app (sub pre s : str) (k : Z) :
  Str.occurs_at sub s k ->
  Str.rfind (pre ++ s) sub = len pre + Str.rfind s sub.
Proof.
  intros Hk.
  destruct (rfind_last _ _ _ Hk) as [Hr Hle].
  assert (H0 : 0 <= Str.rfind s sub) by (destruct Hr; lia).
  pose proof (proj2 (occurs_at_app sub pre s _ H0) Hr) as Hin.
  destruct (rfind_last _ _ _ Hin) as [HR HRle].
  set (R := Str.rfind (pre ++ s) sub) in *.
  pose proof (len_nonneg pre).
  assert (Hj : 0 <= R - len pre) by lia.
  replace R with (len pre + (R - len pre)) in HR by lia.
  apply (occurs_at_app sub pre s _ Hj) in HR.
  apply rfind_last in HR as [_ HR]. lia.
Qed.

(** ** The locator: error and precedence *)

(** X1.  When the input file exists but its text nowhere contains the
    marker [Plotly.newPlot(], [extract_traces] raises [ValueError]; [main]
    does not catch it, so the run has printed only the reading line, ends
    by that exception and leaves the file system as it was. *)
Theorem extract_traces_without_marker
    (root : string) (fs : filesystem) (content : str) :
  fs !! html_path_of root = Some content ->
  (forall k, ~ Str.occurs_at marker content k) ->
  extract_traces fs (html_path_of root) = Raise ValueError /\
  main root fs
  = mkRun fs [Line_reading (html_path_of root)] (Crashed ValueError).
Proof.
  intros Hfs Hno.
  assert (Hx : extract_traces fs (html_path_of root) = Raise ValueError).
  { unfold extract_traces. rewrite Hfs, (rfind_absent _ _ Hno). reflexivity. }
  split; [exact Hx|]. unfold main. rewrite Hfs, Hx. reflexivity.
Qed.

Lemma extract_traces_without_marker_witness :
  let fs : filesystem :=
    {[ "/p/output/audio_classifier_3d.html"%string := page_without_marker ]} in
  extract_traces fs (html_path_of "/p") = Raise ValueError /\
  main "/p" fs = mkRun fs [Line_reading (html_path_of "/p")] (Crashed ValueError).
Proof.
  intros fs.
  apply (extract_traces_without_marker "/p" fs page_without_marker).
  - reflexivity.
  - apply rfind_none. vm_compute. reflexivity.
Defined.

Lemma extract_traces_after (fs : filesystem) path content k :
  fs !! path = Some content ->
  Str.occurs_at marker content k ->
  extract_traces fs path =
  let after := after_marker content in
  let bracket_start := Str.find after customdata_start in
  let bracket_start :=
    if bracket_start =? -1 then Str.find after object_start
    else bracket_start in
  '(traces, _) ← Json.raw_decode (Str.slice_from after bracket_start);
  Ok traces.
Proof.
  intros Hfs Hk. destruct (rfind_last _ _ _ Hk) as [[Hr _] _].
  unfold extract_traces, after_marker. rewrite Hfs.
  destruct (Str.rfind content marker =? -1) eqn:E; [lia|reflexivity].
Qed.

(** X2.  The pattern with [customdata] takes precedence: when it occurs
    anywhere behind the last marker, decoding starts at its first
    occurrence there, wherever a plain array opening may stand, before it
    or after it. *)
Theorem extract_traces_prefers_customdata
    (fs : filesystem) (path : string) (content : str) (k c : Z) :
  fs !! path = Some content ->
  Str.occurs_at marker content k ->
  Str.occurs_at customdata_start (after_marker content) c ->
  let b := Str.find (after_marker content) customdata_start in
  Str.occurs_at customdata_start (after_marker content) b /\
  b <= c /\
  extract_traces fs path =
  ('(traces, _) ← Json.raw_decode (drop (Z.to_nat b) (after_marker content));
   Ok traces).
Proof.
  intros Hfs Hk Hc b.
  destruct (find_first _ _ _ Hc) as [Hb Hle]. fold b in Hb, Hle.
  split; [exact Hb|]. split; [exact Hle|].
  rewrite (extract_traces_after fs path content k Hfs Hk). cbv zeta. fold b.
  destruct Hb as [Hb _].
  destruct (b =? -1) eqn:E; [lia|].
  rewrite slice_from_nonneg by lia. reflexivity.
Qed.

Lemma extract_traces_prefers_customdata_witness :
  let fs : filesystem := {[ "page.html"%string := page_two_arrays ]} in
  Str.find (after_marker page_two_arrays) object_start = 20 /\
  Str.find (after_marker page_two_arrays) customdata_start = 69 /\
  extract_traces fs "page.html"
  = Ok (VList [VDict [(VStr (lit "customdata"), VList [VInt 7])]]).
Proof.
  intros fs.
  destruct (extract_traces_prefers_customdata fs "page.html" page_two_arrays
              8 69) as (_ & _ & H).
  - reflexivity.
  - split; [vm_compute; split; discriminate | vm_compute; reflexivity].
  - split; [vm_compute; split; discriminate | vm_compute; reflexivity].
  - split; [vm_compute; reflexivity|].
    split; [vm_compute; reflexivity|].
    rewrite H. vm_compute. reflexivity.
Defined.

(** X3.  Without the [customdata] pattern behind the last marker, the
    search falls back to the plain array opening and decoding starts at its
    first occurrence behind the last marker. *)
Theorem extract_traces_falls_back_to_object
    (fs : filesystem) (path : string) (content : str) (k c : Z) :
  fs !! path = Some content ->
  Str.occurs_at marker content k ->
  (forall j, ~ Str.occurs_at customdata_start (after_marker content) j) ->
  Str.occurs_at object_start (after_marker content) c ->
  let b := Str.find (after_marker content) object_start in
  Str.occurs_at object_start (after_marker content) b /\
  b <= c /\
  extract_traces fs path =
  ('(traces, _) ← Json.raw_decode (drop (Z.to_nat b) (after_marker content));
   Ok traces).
Proof.
  intros Hfs Hk Hno Hc b.
  destruct (find_first _ _ _ Hc) as [Hb Hle]. fold b in Hb, Hle.
  split; [exact Hb|]. split; [exact Hle|].
  rewrite (extract_traces_after fs path content k Hfs Hk). cbv zeta.
  rewrite (find_absent _ _ Hno). simpl (-1 =? -1). fold b.
  destruct Hb as [Hb _].
  rewrite slice_from_nonneg by lia. reflexivity.
Qed.

Lemma extract_traces_falls_back_to_object_witness :
  let fs : filesystem := {[ "page.html"%string := two_plots ]} in
  Str.find (after_marker two_plots) object_start = 20 /\
  extract_traces fs "page.html"
  = Ok (VList [VDict [(VStr (lit "name"), VStr (lit "a"));
                      (VStr (lit "x"), VList [VInt 1]);
                      (VStr (lit "y"), VList [VInt 2]);
                      (VStr (lit "z"), VList [VInt 3])]]).
Proof.
  intros fs.
  destruct (extract_traces_falls_back_to_object fs "page.html" two_plots
              59 20) as (_ & _ & H).
  - reflexivity.
  - split; [vm_compute; split; discriminate | vm_compute; reflexivity].
  - apply find_none. vm_compute. reflexivity.
  - split; [vm_compute; split; discriminate | vm_compute; reflexivity].
  - split; [vm_compute; reflexivity|].
    rewrite H. vm_compute. reflexivity.
Defined.

(** X4.  Nothing before the last marker matters: a document and any
    tail of it that still contains the marker give the same result, value
    or exception.  Arrays and patterns in library code ahead of the plot
    call are never looked at. *)
Theorem extract_traces_ignores_text_before_marker
    (fs fs' : filesystem) (path path' : string) (pre tail : str) (k : Z) :
  fs !! path = Some (pre ++ tail) ->
  fs' !! path' = Some tail ->
  Str.occurs_at marker tail k ->
  extract_traces fs path = extract_traces fs' path'.
Proof.
  intros Hfs Hfs' Hk.
  pose proof (len_nonneg pre) as Hpre.
  destruct (rfind_last _ _ _ Hk) as [[Hr _] _].
  assert (Hk' : Str.occurs_at marker (pre ++ tail) (len pre + k)).
  { apply occurs_at_app; [destruct Hk; lia|exact Hk]. }
  rewrite (extract_traces_after fs path _ _ Hfs Hk').
  rewrite (extract_traces_after fs' path' _ _ Hfs' Hk).
  assert (E : after_marker (pre ++ tail) = after_marker tail).
  { unfold after_marker. rewrite (rfind_app marker pre tail k Hk).
    rewrite !slice_from_nonneg by lia.
    replace (Z.to_nat (len pre + Str.rfind tail marker))
      with (length pre + Z.to_nat (Str.rfind tail marker))%nat
      by (unfold len; lia).
    apply drop_app_add. }
  rewrite E. reflexivity.
Qed.

Lemma extract_traces_ignores_text_before_marker_witness :
  let fs : filesystem := {[ "a.html"%string := two_plots ]} in
  let fs' : filesystem := {[ "b.html"%string := drop 59 two_plots ]} in
  extract_traces fs "a.html" = extract_traces fs' "b.html".
Proof.
  intros fs fs'.
  apply (extract_traces_ignores_text_before_marker fs fs' "a.html" "b.html"
           (take 59 two_plots) (drop 59 two_plots) 0).
  - vm_compute. reflexivity.
  - reflexivity.
  - split; [vm_compute; split; discriminate | vm_compute; reflexivity].
Defined.

(** ** What the decoder is handed and what it returns *)

Section DecoderShape.

Import Json.

#[local] Arguments N.eqb : simpl never.
#[local] Arguments N.leb : simpl never.
#[local] Arguments N.ltb : simpl never.
#[local] Arguments ch : simpl never.

(** What the loops build: an object, and an array that extends the values
    read so far. *)
Lemma loops_build (n : nat) :
  (forall s acc v r, array_loop n s acc = Scanned v r ->
                     exists l, v = VList (acc ++ l)) /\
  (forall s acc v r, object_loop n s acc = Scanned v r ->
                     exists d, v = VDict d).
Proof.
  induction n as [|n (Ha & Ho)].
  - split; intros; discriminate.
  - split.
    + intros s acc v r. cbn [array_loop]. unfold array_loop_body.
      destruct (scan_once n s) as [v1 r1| |]; try discriminate.
      destruct (skip_ws r1) as [|c r']; [discriminate|].
      destruct (N.eqb c (ch "]")); [intros [= <- <-]; eauto|].
      destruct (N.eqb c (ch ",")); [|discriminate].
      intros H. apply Ha in H as [l ->]. exists (v1 :: l).
      rewrite <- app_assoc. reflexivity.
    + intros s acc v r. cbn [object_loop]. unfold object_loop_body.
      destruct (scanstring s) as [[key r0]|]; [|discriminate].
      destruct (skip_ws r0) as [|c r1]; [discriminate|].
      destruct (N.eqb c (ch ":")); [|discriminate].
      destruct (scan_once n (skip_ws r1)) as [v1 r2| |]; try discriminate.
      destruct (skip_ws r2) as [|c2 r3]; [discriminate|].
      destruct (N.eqb c2 (ch "}")); [intros [= <- <-]; eauto|].
      destruct (N.eqb c2 (ch ",")); [|discriminate].
      destruct (skip_ws r3) as [|c3 r4]; [discriminate|].
      destruct (N.eqb c3 quote); [apply Ho|discriminate].
Qed.

(** Text that opens with [object_start] decodes, if at all, to an array
    whose first element is an object. *)
Lemma scan_once_object_array (n : nat) (s : str) (v : value) (r : str) :
  Str.prefixb object_start s = true ->
  scan_once n s = Scanned v r ->
  exists d rest, v = VList (VDict d :: rest).
Proof.
  intros Hp H.
  change object_start with [91%N; 123%N; 34%N] in Hp.
  destruct s as [|c1 [|c2 [|c3 s]]]; cbn [Str.prefixb] in Hp;
    rewrite ?andb_false_r in Hp; try discriminate.
  apply andb_true_iff in Hp as [H1 Hp]. apply andb_true_iff in Hp as [H2 Hp].
  apply andb_true_iff in Hp as [H3 _].
  apply N.eqb_eq in H1, H2, H3. subst c1 c2 c3.
  destruct n as [|[|[|n]]]; [cbn in H; discriminate ..|].
  revert H. cbn [scan_once]. unfold scan_once_body at 1.
  rewrite (eq_refl : N.eqb 91 quote = false).
  rewrite (eq_refl : N.eqb 91 (ch "{") = false).
  rewrite (eq_refl : N.eqb 91 (ch "[") = true).
  rewrite (eq_refl : skip_ws (123%N :: 34%N :: s) = 123%N :: 34%N :: s).
  rewrite (eq_refl : N.eqb 123 (ch "]") = false).
  cbn [array_loop]. unfold array_loop_body at 1.
  cbn [scan_once]. unfold scan_once_body at 1.
  rewrite (eq_refl : N.eqb 123 quote = false).
  rewrite (eq_refl : N.eqb 123 (ch "{") = true).
  rewrite (eq_refl : skip_ws (34%N :: s) = 34%N :: s).
  rewrite (eq_refl : N.eqb 34 (ch "}") = false).
  rewrite (eq_refl : N.eqb 34 quote = true).
  destruct (object_loop n s []) as [v1 r1| |] eqn:Eo; try discriminate.
  apply (loops_build n) in Eo as [d ->].
  destruct (skip_ws r1) as [|c r']; [discriminate|].
  destruct (N.eqb c (ch "]")); [intros [= <- <-]; eauto|].
  destruct (N.eqb c (ch ",")); [|discriminate].
  intros H. apply (loops_build (S n)) in H as [l ->]. eauto.
Qed.

End DecoderShape.

Lemma prefixb_app_l (p q s : str) :
  Str.prefixb (p ++ q) s = true -> Str.prefixb p s = true.
Proof.
  revert s. induction p as [|a p IH]; intros s; [reflexivity|].
  destruct s as [|b s]; simpl; [discriminate|].
  intros H. apply andb_true_iff in H as [-> H]. apply IH, H.
Qed.

Lemma find_found (s sub : str) :
  Str.find s sub <> -1 -> Str.occurs_at sub s (Str.find s sub).
Proof.
  unfold Str.find. intros H.
  destruct (find_from_spec sub s 0) as [[E _]|(m & E & Hm & Hp & _)];
    [lia|contradiction|].
  rewrite E. apply occurs_at_nat. exists m. repeat split; auto.
Qed.

Lemma extract_traces_array_text (fs : filesystem) path content k :
  fs !! path = Some content ->
  Str.occurs_at marker content k ->
  extract_traces fs path =
  ('(traces, _) ← Json.raw_decode (array_text content); Ok traces).
Proof. apply extract_traces_after. Qed.

(** When an opening pattern occurs behind the last marker, the text handed
    to the decoder starts with it. *)
Lemma array_text_opens (content : str) (c : Z) :
  Str.occurs_at object_start (after_marker content) c ->
  Str.prefixb object_start (array_text content) = true.
Proof.
  intros Hc. unfold array_text.
  set (after := after_marker content) in *.
  destruct (Str.find after customdata_start =? -1) eqn:E.
  - destruct (find_first _ _ _ Hc) as [[Hb Hp] _].
    rewrite slice_from_nonneg by lia. exact Hp.
  - apply Z.eqb_neq, find_found in E. destruct E as [Hb Hp].
    rewrite slice_from_nonneg by lia.
    apply (prefixb_app_l object_start (lit "customdata")). exact Hp.
Qed.




(** X5.  When an array opening occurs behind the last marker and the
    text from the located opening starts with a complete JSON value,
    [extract_traces] returns exactly that value, whatever the document
    holds behind it (the layout argument, closing tags, more script). *)
Theorem extract_traces_returns_located_array
    (fs : filesystem) (path : string) (content arr post : str)
    (k c : Z) (v : value) :
  fs !! path = Some content ->
  Str.occurs_at marker content k ->
  Str.occurs_at object_start (after_marker content) c ->
  array_text content = arr ++ post ->
  Json.raw_decode arr = Ok (v, len arr) ->
  extract_traces fs path = Ok v.
Proof.
  intros Hfs Hk Hc Ht Hd.
  rewrite (extract_traces_array_text fs path content k Hfs Hk), Ht.
  pose proof (array_text_opens content c Hc) as Hp. rewrite Ht in Hp.
  assert (Hn : Json.scan_number arr = None).
  { destruct arr as [|a arr]; [vm_compute in Hd; discriminate|].
    change object_start with [91%N; 123%N; 34%N] in Hp.
    cbn [Str.prefixb app] in Hp. apply andb_true_iff in Hp as [Ha _].
    apply N.eqb_eq in Ha. subst a. reflexivity. }
  unfold Json.raw_decode in *.
  destruct (Json.scan_once (Json.fuel_for arr) arr) as [v0 r| |] eqn:E;
    try discriminate.
  injection Hd as -> Hr.
  assert (r = []) as ->.
  { destruct r; [reflexivity|]. unfold len in Hr. simpl in Hr. lia. }
  rewrite (scan_once_app arr post v E); [reflexivity|].
  intros Hne. contradiction.
Qed.

Lemma extract_traces_returns_located_array_witness :
  let fs : filesystem := {[ "page.html"%string := cat_page ]} in
  exists v, Json.raw_decode (take 76 (array_text cat_page)) = Ok (v, 76) /\
            extract_traces fs "page.html" = Ok v.
Proof.
  intros fs.
  assert (H : exists v, Json.raw_decode (take 76 (array_text cat_page))
                        = Ok (v, len (take 76 (array_text cat_page)))).
  { eexists. vm_compute. reflexivity. }
  destruct H as [v H]. exists v. split; [exact H|].
  apply (extract_traces_returns_located_array fs "page.html" cat_page
           (take 76 (array_text cat_page)) (drop 76 (array_text cat_page))
           123 20 v).
  - reflexivity.
  - split; [vm_compute; split; discriminate | vm_compute; reflexivity].
  - split; [vm_compute; split; discriminate | vm_compute; reflexivity].
  - symmetry. apply take_drop.
  - exact H.
Defined.

(** X6.  When an array opening occurs behind the last marker, whatever
    [extract_traces] returns is a non-empty list whose first element is an
    object: the located text opens an array and an object in it, so no
    other kind of JSON value can come back. *)
Theorem extract_traces_returns_object_array
    (fs : filesystem) (path : string) (content : str) (k c : Z) (v : value) :
  fs !! path = Some content ->
  Str.occurs_at marker content k ->
  Str.occurs_at object_start (after_marker content) c ->
  extract_traces fs path = Ok v ->
  exists d rest, v = VList (VDict d :: rest).
Proof.
  intros Hfs Hk Hc.
  rewrite (extract_traces_array_text fs path content k Hfs Hk).
  pose proof (array_text_opens content c Hc) as Hp.
  unfold Json.raw_decode.
  destruct (Json.scan_once _ _) as [v0 r| |] eqn:E; try discriminate.
  intros [= <-]. apply (scan_once_object_array _ _ _ _ Hp E).
Qed.

Lemma extract_traces_returns_object_array_witness :
  let fs : filesystem := {[ "page.html"%string := two_plots ]} in
  exists d rest,
    extract_traces fs "page.html" = Ok (VList (VDict d :: rest)).
Proof.
  intros fs.
  assert (H : exists v, extract_traces fs "page.html" = Ok v).
  { eexists. vm_compute. reflexivity. }
  destruct H as [v H].
  destruct (extract_traces_returns_object_array fs "page.html" two_plots
              59 20 v) as (d & rest & ->).
  - reflexivity.
  - split; [vm_compute; split; discriminate | vm_compute; reflexivity].
  - split; [vm_compute; split; discriminate | vm_compute; reflexivity].
  - exact H.
  - exists d, rest. exact H.
Defined.

(** ** Foreign characters in the packed text *)

Lemma a2b_loop_filter (s : str) :
  forall (q l p : Z) (out : list Z),
    Base64.a2b_loop (List.filter significant s) q l p out
    = Base64.a2b_loop s q l p out.
Proof.
  induction s as [|c s IH]; intros q l p out; [reflexivity|].
  cbn [List.filter]. unfold significant at 1.
  destruct (N.eqb c (ch "=")) eqn:Ec.
  - cbn [orb Base64.a2b_loop]. rewrite Ec.
    destruct ((2 <=? q) && (4 <=? q + (p + 1))); [reflexivity|apply IH].
  - cbn [orb]. destruct (Base64.a2b_char c) as [v|] eqn:Ev.
    + cbn [Base64.a2b_loop]. rewrite Ec, Ev.
      destruct (q =? 0); [apply IH|].
      destruct (q =? 1); [apply IH|].
      destruct (q =? 2); apply IH.
    + cbn [Base64.a2b_loop]. rewrite Ec, Ev. apply IH.
Qed.

Lemma forallb_filter {A} (P Q : A -> bool) (l : list A) :
  forallb P l = true -> forallb P (List.filter Q l) = true.
Proof.
  induction l as [|a l IH]; [reflexivity|]. cbn [forallb List.filter].
  intros H. apply andb_true_iff in H as [Ha Hl].
  destruct (Q a); cbn [forallb]; [rewrite Ha|]; auto.
Qed.

(** X7.  [decode_binary_array] reads nothing of a packed field but its
    [bdata] text, and of that text only the characters of the base64
    alphabet and the padding sign: the other entries of the field ([dtype],
    [shape]) and any foreign ASCII character in the text (blanks, line
    breaks, punctuation) change neither the numbers returned nor the
    exception raised. *)
Theorem decode_binary_array_skips_foreign_chars
    (d : list (value * value)) (s : str) :
  Dict.lookup d (VStr (lit "bdata")) = Some (VStr s) ->
  forallb (fun c => N.ltb c 128) s = true ->
  decode_binary_array (VDict d)
  = decode_binary_array (bdata_of (List.filter significant s)).
Proof.
  intros Hd Ha. unfold decode_binary_array, bdata_of.
  cbn [py_getitem]. rewrite Hd.
  change (Dict.lookup [(VStr (lit "bdata"), VStr (List.filter significant s))]
            (VStr (lit "bdata")))
    with (Some (VStr (List.filter significant s))).
  rewrite !bind_Ok. unfold Base64.b64decode.
  rewrite Ha, (forallb_filter _ significant s Ha).
  unfold Base64.a2b_base64. rewrite a2b_loop_filter. reflexivity.
Qed.

Lemma decode_binary_array_skips_foreign_chars_witness :
  List.filter significant (lit "AA CA-Pw==") = lit "AACAPw==" /\
  decode_binary_array
    (VDict [(VStr (lit "dtype"), VStr (lit "f4"));
            (VStr (lit "bdata"), VStr (lit "AA CA-Pw=="))])
  = decode_binary_array (bdata_of (List.filter significant
                                     (lit "AA CA-Pw=="))).
Proof.
  split; [vm_compute; reflexivity|].
  apply (decode_binary_array_skips_foreign_chars
           [(VStr (lit "dtype"), VStr (lit "f4"));
            (VStr (lit "bdata"), VStr (lit "AA CA-Pw=="))]
           (lit "AA CA-Pw==")).
  - reflexivity.
  - vm_compute. reflexivity.
Defined.

(** ** Fields that are missing or of another form *)

Lemma get_found (d : list (value * value)) (k v default : value) :
  Dict.lookup d k = Some v -> Dict.get d k default = v.
Proof. unfold Dict.get. intros ->. reflexivity. Qed.

Lemma get_default (d : list (value * value)) (k default : value) :
  Dict.lookup d k = None -> Dict.get d k default = default.
Proof. unfold Dict.get. intros ->. reflexivity. Qed.

Lemma round_all_empty_dict : round_all (VDict []) = Ok [].
Proof. reflexivity. Qed.

Lemma decode_binary_array_no_bdata (dy : list (value * value)) :
  Dict.lookup dy (VStr (lit "bdata")) = None ->
  decode_binary_array (VDict dy) = Raise KeyError.
Proof.
  intros H. unfold decode_binary_array. cbn [py_getitem]. rewrite H.
  reflexivity.
Qed.

(** X8.  A trace whose [x] is a plain array of numbers and which has no
    [y] and no [z] is not rejected: the default [{}] of the missing fields
    iterates as an empty sequence, so the trace, when its name is hashable
    and can be printed, is stored with its rounded [x] and empty [y] and
    [z], and counted with the length of [x]. *)
Theorem plain_trace_missing_fields_are_empty
    (st : state) (d : list (value * value)) (xs : list value) :
  let name := Dict.get d (VStr (lit "name")) (VStr (lit "unknown")) in
  Dict.lookup d (VStr (lit "x")) = Some (VList xs) ->
  forallb is_number xs = true ->
  Dict.lookup d (VStr (lit "y")) = None ->
  Dict.lookup d (VStr (lit "z")) = None ->
  Dict.hashable name = true ->
  print_error name = None ->
  exists xs',
    round_all (VList xs) = Ok xs' /\
    body st (VDict d) =
    Next (mkState (Dict.set (st_result st) name (entry xs' [] []))
            (st_total st + length xs)
            (st_out st ++ [Line_points name (length xs)])).
Proof.
  intros name Hx Nx Hy Hz Hname Hp.
  destruct (round_all_numbers xs Nx) as (xs' & Rx & Fx).
  exists xs'. split; [exact Rx|].
  pose proof (Forall2_length _ _ _ Fx) as Lx.
  unfold body. rewrite fields_dict. fold name.
  rewrite (get_found _ _ _ _ Hx), (get_default _ _ _ Hy),
    (get_default _ _ _ Hz).
  unfold coordinates. rewrite Rx, round_all_empty_dict, !bind_Ok.
  rewrite Hname, Hp, Lx. reflexivity.
Qed.

Lemma plain_trace_missing_fields_are_empty_witness :
  exists xs',
    round_all (VList [VInt 1; VInt 2]) = Ok xs' /\
    body (mkState [] 0 [])
      (VDict [(VStr (lit "name"), VStr (lit "a"));
              (VStr (lit "x"), VList [VInt 1; VInt 2])])
    = Next (mkState [(VStr (lit "a"), entry xs' [] [])] 2
              [Line_points (VStr (lit "a")) 2]).
Proof.
  apply (plain_trace_missing_fields_are_empty (mkState [] 0 [])
           [(VStr (lit "name"), VStr (lit "a"));
            (VStr (lit "x"), VList [VInt 1; VInt 2])]
           [VInt 1; VInt 2]); reflexivity.
Defined.

(** X9.  A trace whose [x] is packed and decodes, and which lacks [y]
    (or has a [y] that decodes and lacks [z]), ends the run: the default
    [{}] of the missing field has no [bdata] key, [decode_binary_array]
    raises [KeyError], and the loop body leaves by that exception having
    printed nothing for the trace. *)
Theorem packed_trace_missing_field_aborts
    (st : state) (d dx : list (value * value)) (xs : list value) :
  Dict.lookup d (VStr (lit "x")) = Some (VDict dx) ->
  Dict.mem dx (VStr (lit "bdata")) = true ->
  decode_binary_array (VDict dx) = Ok xs ->
  Dict.lookup d (VStr (lit "y")) = None \/
  ((exists ys, decode_binary_array (Dict.get d (VStr (lit "y")) (VDict []))
               = Ok ys) /\
   Dict.lookup d (VStr (lit "z")) = None) ->
  body st (VDict d) = Abort (st_out st) KeyError.
Proof.
  intros Hx Hm Dx H.
  unfold body. rewrite fields_dict, (get_found _ _ _ _ Hx).
  unfold coordinates. rewrite Hm, Dx, bind_Ok.
  destruct H as [Hy|[[ys Dy] Hz]].
  - rewrite (get_default _ _ _ Hy).
    rewrite (decode_binary_array_no_bdata [] eq_refl). reflexivity.
  - rewrite Dy, bind_Ok, (get_default _ _ _ Hz).
    rewrite (decode_binary_array_no_bdata [] eq_refl). reflexivity.
Qed.

Lemma packed_trace_missing_field_aborts_witness :
  body (mkState [] 0 [])
    (VDict [(VStr (lit "name"), VStr (lit "a"));
            (VStr (lit "x"), bdata_of (lit "AACAPw=="));
            (VStr (lit "y"), bdata_of (lit "AACAPw=="))])
  = Abort [] KeyError.
Proof.
  apply (packed_trace_missing_field_aborts (mkState [] 0 [])
           [(VStr (lit "name"), VStr (lit "a"));
            (VStr (lit "x"), bdata_of (lit "AACAPw=="));
            (VStr (lit "y"), bdata_of (lit "AACAPw=="))]
           [(VStr (lit "bdata"), VStr (lit "AACAPw=="))]
           [VFloat f_1_0]).
  - reflexivity.
  - reflexivity.
  - vm_compute. reflexivity.
  - right. split; [|reflexivity].
    exists [VFloat f_1_0]. vm_compute. reflexivity.
Defined.

Lemma round_all_string_keys (k : str) (v : value) (dy : list (value * value)) :
  round_all (VDict ((VStr k, v) :: dy)) = Raise TypeError.
Proof. reflexivity. Qed.

Lemma decode_binary_array_list (ys : list value) :
  decode_binary_array (VList ys) = Raise TypeError.
Proof. reflexivity. Qed.

(** X10.  The form of [x] is imposed on [y]: with a plain
    array of numbers for [x] and an object with a string key for [y], the
    rounding of the object's keys raises [TypeError]; with a packed [x] that
    decodes and a plain array for [y], indexing the array by ["bdata"]
    raises [TypeError].  Either way the loop body leaves by the exception
    and stores nothing. *)
Theorem mixed_forms_abort
    (st : state) (d : list (value * value)) :
  (forall xs k v dy,
      Dict.lookup d (VStr (lit "x")) = Some (VList xs) ->
      forallb is_number xs = true ->
      Dict.lookup d (VStr (lit "y")) = Some (VDict ((VStr k, v) :: dy)) ->
      body st (VDict d) = Abort (st_out st) TypeError) /\
  (forall dx xs ys,
      Dict.lookup d (VStr (lit "x")) = Some (VDict dx) ->
      Dict.mem dx (VStr (lit "bdata")) = true ->
      decode_binary_array (VDict dx) = Ok xs ->
      Dict.lookup d (VStr (lit "y")) = Some (VList ys) ->
      body st (VDict d) = Abort (st_out st) TypeError).
Proof.
  split.
  - intros xs k v dy Hx Nx Hy.
    destruct (round_all_numbers xs Nx) as (xs' & Rx & _).
    unfold body. rewrite fields_dict.
    rewrite (get_found _ _ _ _ Hx), (get_found _ _ _ _ Hy).
    unfold coordinates. rewrite Rx, bind_Ok, round_all_string_keys.
    reflexivity.
  - intros dx xs ys Hx Hm Dx Hy.
    unfold body. rewrite fields_dict.
    rewrite (get_found _ _ _ _ Hx), (get_found _ _ _ _ Hy).
    unfold coordinates. rewrite Hm, Dx, bind_Ok, decode_binary_array_list.
    reflexivity.
Qed.

Lemma mixed_forms_abort_witness :
  body (mkState [] 0 [])
    (VDict [(VStr (lit "x"), VList [VInt 1]);
            (VStr (lit "y"), bdata_of (lit "AACAPw=="));
            (VStr (lit "z"), VList [VInt 3])])
  = Abort [] TypeError /\
  body (mkState [] 0 [])
    (VDict [(VStr (lit "x"), bdata_of (lit "AACAPw=="));
            (VStr (lit "y"), VList [VInt 2]);
            (VStr (lit "z"), VList [VInt 3])])
  = Abort [] TypeError.
Proof.
  split.
  - apply (proj1 (mixed_forms_abort (mkState [] 0 []) _)
             [VInt 1] (lit "bdata") (VStr (lit "AACAPw==")) []);
      reflexivity.
  - apply (proj2 (mixed_forms_abort (mkState [] 0 []) _)
             [(VStr (lit "bdata"), VStr (lit "AACAPw=="))] [VFloat f_1_0]
             [VInt 2]);
      [reflexivity | reflexivity | vm_compute; reflexivity | reflexivity].
Defined.

(** ** What a run prints and counts *)

Lemma body_report (st st' : state) (t : value) :
  body st t = Next st' ->
  exists l, st_out st' = st_out st ++ [l] /\ is_trace_line l = true /\
            st_total st' = (st_total st + line_points l)%nat.
Proof.
  unfold body.
  destruct (fields t) as [[[[name x] y] z]|e]; [|discriminate].
  destruct (coordinates x y z) as [[[[cx cy] cz]|]|e]; [| |discriminate].
  - destruct (Dict.hashable name); [|discriminate].
    destruct (print_error name); [discriminate|].
    intros [= <-]. eexists. repeat split.
  - destruct (print_error name); [discriminate|].
    intros [= <-]. eexists. split; [reflexivity|]. split; [reflexivity|].
    simpl. lia.
Qed.

Lemma loop_report (ts : list value) (st st' : state) :
  loop ts st = Next st' ->
  exists ls, st_out st' = st_out st ++ ls /\
             length ls = length ts /\
             forallb is_trace_line ls = true /\
             st_total st' = (st_total st + list_sum (map line_points ls))%nat.
Proof.
  revert st. induction ts as [|t ts IH]; intros st; simpl.
  - intros [= <-]. exists []. rewrite app_nil_r. simpl. repeat split. lia.
  - destruct (body st t) as [st1|] eqn:E; [|discriminate].
    intros H. apply IH in H as (ls & H1 & H2 & H3 & H4).
    apply body_report in E as (l & E1 & E2 & E3).
    exists (l :: ls). rewrite H1, E1, <- app_assoc. simpl.
    rewrite E2, H3, H2, H4, E3. repeat split. lia.
Qed.

(** The shape of a run that ends with status 0, and of any other run. *)
Lemma main_cases (root : string) (fs : filesystem) :
  (exists traces st,
      (extract_traces fs (html_path_of root) ≫= py_iter) = Ok traces /\
      loop traces (mkState [] 0 [Line_reading (html_path_of root)]) = Next st /\
      main root fs =
      mkRun (<[output_path_of root := JsonDump.dumps (VDict (st_result st))]> fs)
            (st_out st
             ++ [Line_saved (output_path_of root)
                   (length (JsonDump.dumps (VDict (st_result st))))
                   (st_total st)])
            (Exited 0)) \/
  (run_status (main root fs) <> Exited 0 /\ run_fs (main root fs) = fs).
Proof.
  unfold main.
  destruct (fs !! html_path_of root) as [c|];
    [|right; split; [discriminate|reflexivity]].
  destruct (extract_traces fs (html_path_of root) ≫= py_iter) as [traces|e];
    [|right; split; [discriminate|reflexivity]].
  destruct (loop traces _) as [st|out e] eqn:El;
    [|right; split; [discriminate|reflexivity]].
  left. exists traces, st.
  split; [reflexivity|]. split; [exact El|reflexivity].
Qed.

(** X11.  A run that ends with status 0 has printed the reading line,
    then exactly one line per trace of the array, each a points line or a
    skipping line, then the closing line; the total in the closing line is
    the sum of the counts of the points lines, and the size from which its
    KB figure is computed is the length of the text that the output file
    now holds. *)
Theorem run_report (root : string) (fs : filesystem) :
  run_status (main root fs) = Exited 0 ->
  exists traces ls text,
    (extract_traces fs (html_path_of root) ≫= py_iter) = Ok traces /\
    run_fs (main root fs) !! output_path_of root = Some text /\
    run_out (main root fs)
    = Line_reading (html_path_of root) :: ls
      ++ [Line_saved (output_path_of root) (length text)
            (list_sum (map line_points ls))] /\
    length ls = length traces /\
    forallb is_trace_line ls = true.
Proof.
  intros Hs.
  destruct (main_cases root fs) as [(traces & st & Hx & Hl & Hm)|[Hn _]];
    [|contradiction].
  apply loop_report in Hl as (ls & H1 & H2 & H3 & H4).
  exists traces, ls, (JsonDump.dumps (VDict (st_result st))).
  rewrite Hm. cbn [run_fs run_out]. cbn [st_out st_total] in H1, H4.
  split; [exact Hx|]. split; [apply lookup_insert_eq|].
  split; [|split; assumption].
  rewrite H1, H4. reflexivity.
Qed.

Lemma run_report_witness :
  let fs : filesystem :=
    {[ "/p/output/audio_classifier_3d.html"%string := page_three_forms ]} in
  exists traces ls text,
    (extract_traces fs (html_path_of "/p") ≫= py_iter) = Ok traces /\
    run_fs (main "/p" fs) !! output_path_of "/p" = Some text /\
    run_out (main "/p" fs)
    = Line_reading (html_path_of "/p") :: ls
      ++ [Line_saved (output_path_of "/p") (length text)
            (list_sum (map line_points ls))] /\
    length ls = length traces /\
    forallb is_trace_line ls = true.
Proof.
  intros fs. apply (run_report "/p" fs). vm_compute. reflexivity.
Defined.

(** ** What a run writes *)

Lemma html_output_differ (root : string) :
  html_path_of root <> output_path_of root.
Proof.
  unfold html_path_of, output_path_of.
  induction root as [|a root IH]; simpl; [discriminate|].
  intros [= H]. exact (IH H).
Qed.

(** X12.  Whatever the input, a run changes no path but the output path:
    every other file, the input file among them, keeps its contents; and a
    run that does not end with status 0 changes nothing at all, so no
    partial output is ever left behind. *)
Theorem main_writes_only_output_on_success (root : string) (fs : filesystem) :
  (forall p, p <> output_path_of root ->
             run_fs (main root fs) !! p = fs !! p) /\
  run_fs (main root fs) !! html_path_of root = fs !! html_path_of root /\
  (run_status (main root fs) <> Exited 0 -> run_fs (main root fs) = fs).
Proof.
  assert (H : forall p, p <> output_path_of root ->
                        run_fs (main root fs) !! p = fs !! p).
  { intros p Hp.
    destruct (main_cases root fs) as [(traces & st & _ & _ & ->)|[_ ->]];
      [|reflexivity].
    cbn [run_fs]. apply lookup_insert_ne. congruence. }
  split; [exact H|]. split; [apply H, html_output_differ|].
  intros Hs.
  destruct (main_cases root fs) as [(traces & st & _ & _ & Hm)|[_ Hf]];
    [|exact Hf].
  rewrite Hm in Hs. contradiction.
Qed.

Lemma main_writes_only_output_on_success_witness :
  let fs : filesystem :=
    {[ "/p/output/audio_classifier_3d.html"%string := page_null_y;
       "/p/portfolio_data.json"%string := lit "{}" ]} in
  run_fs (main "/p" fs) !! "/p/notes.txt"%string = fs !! "/p/notes.txt"%string /\
  run_fs (main "/p" fs) = fs.
Proof.
  intros fs.
  destruct (main_writes_only_output_on_success "/p" fs) as (H1 & _ & H3).
  split.
  - apply H1. vm_compute. discriminate.
  - apply H3. vm_compute. discriminate.
Defined.

Lemma extract_traces_insert (fs : filesystem) (p q : string) (text : str) :
  q <> p -> extract_traces (<[q := text]> fs) p = extract_traces fs p.
Proof.
  intros H. unfold extract_traces. rewrite lookup_insert_ne by exact H.
  reflexivity.
Qed.

(** A run on a file system whose output file holds [old]. *)
Lemma main_insert_output (root : string) (fs : filesystem) (old : str) :
  main root (<[output_path_of root := old]> fs)
  = mkRun (if succeeded (run_status (main root fs))
           then run_fs (main root fs)
           else <[output_path_of root := old]> fs)
          (run_out (main root fs)) (run_status (main root fs)).
Proof.
  pose proof (html_output_differ root) as Hd.
  unfold main.
  rewrite lookup_insert_ne by congruence.
  rewrite extract_traces_insert by congruence.
  destruct (fs !! html_path_of root) as [c|]; [|reflexivity].
  destruct (extract_traces fs (html_path_of root) ≫= py_iter) as [traces|e];
    [|reflexivity].
  destruct (loop traces _) as [st|out e]; [|reflexivity].
  cbn [run_fs run_out run_status succeeded].
  rewrite insert_insert_eq. reflexivity.
Qed.

(** X13.  The previous contents of the output file have no influence:
    with any text in its place the run ends the same way and prints the
    same lines, and when it ends with status 0 it leaves the same file
    system. *)
Theorem main_ignores_previous_output
    (root : string) (fs : filesystem) (old : str) :
  let r := main root fs in
  let r' := main root (<[output_path_of root := old]> fs) in
  run_status r' = run_status r /\
  run_out r' = run_out r /\
  (run_status r = Exited 0 -> run_fs r' = run_fs r).
Proof.
  intros r r'. unfold r'. rewrite main_insert_output. fold r.
  cbn [run_fs run_out run_status]. repeat split.
  intros Hs. rewrite Hs. reflexivity.
Qed.

Lemma main_ignores_previous_output_witness :
  let fs : filesystem :=
    {[ "/p/output/audio_classifier_3d.html"%string := cat_page ]} in
  run_fs (main "/p" (<[output_path_of "/p" := lit "stale"]> fs))
  = run_fs (main "/p" fs).
Proof.
  intros fs.
  apply (main_ignores_previous_output "/p" fs (lit "stale")).
  vm_compute. reflexivity.
Defined.

(** X14.  Running the script again on the file system that a run has
    left gives the same run: the same status, the same lines and the same
    file system. *)
Theorem main_idempotent (root : string) (fs : filesystem) :
  main root (run_fs (main root fs)) = main root fs.
Proof.
  destruct (main_cases root fs) as [(traces & st & _ & _ & Hm)|[_ Hf]].
  - rewrite Hm at 1. cbn [run_fs]. rewrite main_insert_output, Hm.
    reflexivity.
  - rewrite Hf. reflexivity.
Qed.

(** ** The last trace with a name wins *)

Lemma key_eqb_str_r (k : value) (n : str) :
  Dict.key_eqb k (VStr n) = true -> k = VStr n.
Proof.
  destruct k as [| b | z | f | s | l | d]; try destruct f; simpl;
    try discriminate.
  unfold str_eqb. intros H. apply bool_decide_eq_true in H. congruence.
Qed.

Lemma key_eqb_str_l (k : value) (n : str) :
  Dict.key_eqb (VStr n) k = true -> k = VStr n.
Proof.
  destruct k as [| b | z | f | s | l | d]; try destruct f; simpl;
    try discriminate.
  unfold str_eqb. intros H. apply bool_decide_eq_true in H. congruence.
Qed.

(** Assigning to a key leaves every other string key as it was. *)
Lemma dict_lookup_set_other (d : list (value * value)) (k v : value) (n : str) :
  k <> VStr n ->
  Dict.lookup (Dict.set d k v) (VStr n) = Dict.lookup d (VStr n).
Proof.
  intros Hk. induction d as [|[k' v'] d IH]; simpl.
  - destruct (Dict.key_eqb k (VStr n)) eqn:E; [|reflexivity].
    apply key_eqb_str_r in E. contradiction.
  - destruct (Dict.key_eqb k' k) eqn:E; simpl.
    + destruct (Dict.key_eqb k' (VStr n)) eqn:E'; [|reflexivity].
      apply key_eqb_str_r in E'. subst k'.
      apply key_eqb_str_l in E. contradiction.
    + rewrite IH. reflexivity.
Qed.

Lemma body_keeps_other_names (st st' : state) (t : value) (n : str) :
  trace_name t <> VStr n ->
  body st t = Next st' ->
  Dict.lookup (st_result st') (VStr n) = Dict.lookup (st_result st) (VStr n).
Proof.
  intros Hn. unfold body.
  destruct t as [| | | | | |d]; try discriminate.
  rewrite fields_dict. cbn [trace_name] in Hn.
  destruct (coordinates _ _ _) as [[[[cx cy] cz]|]|e]; [| |discriminate].
  - destruct (Dict.hashable _); [|discriminate].
    destruct (print_error _); [discriminate|].
    intros [= <-]. cbn [st_result]. apply dict_lookup_set_other, Hn.
  - destruct (print_error _); [discriminate|].
    intros [= <-]. reflexivity.
Qed.

Lemma loop_keeps_other_names (ts : list value) (st st' : state) (n : str) :
  Forall (fun t => trace_name t <> VStr n) ts ->
  loop ts st = Next st' ->
  Dict.lookup (st_result st') (VStr n) = Dict.lookup (st_result st) (VStr n).
Proof.
  intros H. revert st. induction H as [|t ts Ht Hts IH]; intros st; simpl.
  - intros [= <-]. reflexivity.
  - destruct (body st t) as [st1|] eqn:E; [|discriminate].
    intros Hl. rewrite (IH _ Hl). apply (body_keeps_other_names _ _ _ _ Ht E).
Qed.

Lemma body_stores_entry (st st' : state) (d : list (value * value))
    (n : str) (e : value) :
  trace_name (VDict d) = VStr n ->
  trace_entry (VDict d) = Some e ->
  body st (VDict d) = Next st' ->
  Dict.lookup (st_result st') (VStr n) = Some e.
Proof.
  intros Hn He. unfold body. unfold trace_entry in He.
  rewrite fields_dict in *. cbn [trace_name] in Hn. rewrite Hn.
  destruct (coordinates _ _ _) as [[[[cx cy] cz]|]|]; try discriminate.
  injection He as <-. cbn [Dict.hashable].
  destruct (print_error (VStr n)); [discriminate|].
  intros [= <-]. cbn [st_result]. apply dict_lookup_set.
  apply key_eqb_refl. reflexivity.
Qed.

(** X15.  The last trace with a name wins.  When the loop completes,
    the mapping holds, under the name of a trace that was processed, the
    entry of that trace, provided no trace behind it has the same name;
    the name may be a given string or the default ["unknown"]. *)
Theorem last_named_trace_wins
    (ts1 ts2 : list value) (d : list (value * value)) (n : str) (e : value)
    (st st' : state) :
  trace_name (VDict d) = VStr n ->
  trace_entry (VDict d) = Some e ->
  Forall (fun t => trace_name t <> VStr n) ts2 ->
  loop (ts1 ++ VDict d :: ts2) st = Next st' ->
  Dict.lookup (st_result st') (VStr n) = Some e.
Proof.
  intros Hn He Hts. rewrite loop_app.
  destruct (loop ts1 st) as [st1|]; [|discriminate].
  cbn [loop]. destruct (body st1 (VDict d)) as [st2|] eqn:Eb; [|discriminate].
  intros Hl. rewrite (loop_keeps_other_names ts2 st2 st' n Hts Hl).
  apply (body_stores_entry st1 st2 d n e Hn He Eb).
Qed.

Lemma last_named_trace_wins_witness :
  exists st',
    loop traces_a_b_a (mkState [] 0 []) = Next st' /\
    Dict.lookup (st_result st') (VStr (lit "a"))
    = Some (entry [VInt 4] [VInt 5] [VInt 6]).
Proof.
  assert (H : exists st', loop traces_a_b_a (mkState [] 0 []) = Next st').
  { eexists. vm_compute. reflexivity. }
  destruct H as [st' H]. exists st'. split; [exact H|].
  apply (last_named_trace_wins
           [VDict [(VStr (lit "name"), VStr (lit "a"));
                   (VStr (lit "x"), VList [VInt 1]);
                   (VStr (lit "y"), VList [VInt 2]);
                   (VStr (lit "z"), VList [VInt 3])]]
           [VDict [(VStr (lit "name"), VStr (lit "b"));
                   (VStr (lit "x"), VList [VInt 7]);
                   (VStr (lit "y"), VList [VInt 8]);
                   (VStr (lit "z"), VList [VInt 9])]]
           [(VStr (lit "name"), VStr (lit "a"));
            (VStr (lit "x"), VList [VInt 4]);
            (VStr (lit "y"), VList [VInt 5]);
            (VStr (lit "z"), VList [VInt 6])]
           (lit "a") _ (mkState [] 0 []) st').
  - reflexivity.
  - reflexivity.
  - constructor; [vm_compute; discriminate|constructor].
  - exact H.
Defined.

(** ** Traces that the loop takes *)

Lemma body_processable (st : state) (t : value) :
  processable t -> exists st', body st t = Next st'.
Proof.
  intros (d & -> & Hp & H). cbv zeta in H. cbn [trace_name] in Hp.
  destruct H as [Hu|(Hn & [H|H])].
  - rewrite (body_skip st d Hu Hp). eauto.
  - destruct H as (xs & ys & zs & Hx & Hy & Hz & Nx & Ny & Nz).
    destruct (round_all_numbers xs Nx) as (xs' & Rx & _).
    destruct (round_all_numbers ys Ny) as (ys' & Ry & _).
    destruct (round_all_numbers zs Nz) as (zs' & Rz & _).
    unfold body. rewrite fields_dict, Hx, Hy, Hz.
    unfold coordinates. rewrite Rx, Ry, Rz, !bind_Ok.
    cbn [trace_name] in Hn. rewrite Hn, Hp. eauto.
  - destruct H as (xs & ys & zs & Hx & Hy & Hz & Wx & Wy & Wz).
    unfold body. rewrite fields_dict, Hx, Hy, Hz.
    unfold coordinates. unfold packed at 1.
    change (Dict.mem _ (VStr (lit "bdata"))) with true. cbv iota.
    fold (packed xs).
    rewrite !decode_packed by assumption. rewrite !bind_Ok.
    cbn [trace_name] in Hn. rewrite Hn, Hp. eauto.
Qed.

Lemma loop_processable (ts : list value) (st : state) :
  Forall processable ts -> exists st', loop ts st = Next st'.
Proof.
  intros H. revert st. induction H as [|t ts Ht Hts IH]; intros st; simpl.
  - eauto.
  - destruct (body_processable st t Ht) as [st1 ->]. apply IH.
Qed.

(** X16.  A run never fails on well-formed traces: when every trace of
    the array is an object with a name that can be printed (no surrogate
    code point in a string, no integer beyond the limit of its decimal
    text), and either its [x] is of unknown form, or its name is hashable
    and it has three plain arrays of numbers or three packed sequences of
    float32 values, the run ends with status 0 and the output file
    exists. *)
Theorem processable_traces_complete
    (root : string) (fs : filesystem) (ts : list value) :
  extract_traces fs (html_path_of root) = Ok (VList ts) ->
  Forall processable ts ->
  run_status (main root fs) = Exited 0 /\
  exists text, run_fs (main root fs) !! output_path_of root = Some text.
Proof.
  intros Hx Hts.
  destruct (loop_processable ts
              (mkState [] 0 [Line_reading (html_path_of root)]) Hts)
    as [st Hl].
  rewrite (main_completes root fs ts st Hx Hl). cbn [run_status run_fs].
  split; [reflexivity|]. eexists. apply lookup_insert_eq.
Qed.

Lemma processable_traces_complete_witness :
  let fs : filesystem :=
    {[ "/p/output/audio_classifier_3d.html"%string := page_three_forms ]} in
  run_status (main "/p" fs) = Exited 0 /\
  exists text, run_fs (main "/p" fs) !! output_path_of "/p" = Some text.
Proof.
  intros fs. apply (processable_traces_complete "/p" fs three_forms).
  - vm_compute. reflexivity.
  - constructor; [|constructor; [|constructor; [|constructor]]].
    + eexists. split; [reflexivity|]. split; [reflexivity|].
      right. split; [reflexivity|]. left.
      exists [VInt 1; VInt 2], [VInt 3; VInt 4], [VInt 5; VInt 6].
      repeat split; reflexivity.
    + eexists. split; [reflexivity|]. split; [reflexivity|].
      right. split; [reflexivity|]. right.
      exists [0x3f800000], [0x3f800000], [0x3f800000].
      repeat split; try reflexivity; repeat constructor;
        unfold is_word32; lia.
    + eexists. split; [reflexivity|]. split; [reflexivity|].
      left. reflexivity.
Defined.

(** ** The output text *)

Section PrintableOutput.

Lemma printable_app (a b : str) :
  forallb printable (a ++ b) = forallb printable a && forallb printable b.
Proof. apply forallb_app. Qed.

Lemma printable_Forall (s : str) :
  forallb printable s = true <-> Forall (fun c => printable c = true) s.
Proof. rewrite forallb_forall, List.Forall_forall. reflexivity. Qed.

Lemma uint_digits_printable (u : Decimal.uint) :
  forallb printable (lit (NilEmpty.string_of_uint u)) = true.
Proof.
  induction u; cbn [NilEmpty.string_of_uint lit forallb];
    [reflexivity|rewrite IHu; reflexivity ..].
Qed.

Lemma uint_printable (u : Decimal.uint) :
  forallb printable (lit (NilZero.string_of_uint u)) = true.
Proof.
  destruct u; try reflexivity; apply uint_digits_printable.
Qed.

Lemma digits_of_printable (n : N) : forallb printable (Float.digits_of n) = true.
Proof. apply uint_printable. Qed.

Lemma int_repr_printable (z : Z) : forallb printable (JsonDump.int_repr z) = true.
Proof.
  unfold JsonDump.int_repr. destruct (Z.to_int z); simpl;
    apply uint_printable.
Qed.

Lemma zeros_printable (n : Z) : forallb printable (Float.zeros n) = true.
Proof.
  unfold Float.zeros. induction (Z.to_nat n); simpl; auto.
Qed.

Lemma take_printable (n : nat) (s : str) :
  forallb printable s = true -> forallb printable (take n s) = true.
Proof.
  rewrite !printable_Forall. apply Forall_take.
Qed.

Lemma drop_printable (n : nat) (s : str) :
  forallb printable s = true -> forallb printable (drop n s) = true.
Proof.
  rewrite !printable_Forall. apply Forall_drop.
Qed.

Lemma format_repr_printable (ds : str) (decpt : Z) :
  forallb printable ds = true ->
  forallb printable (Float.format_repr ds decpt) = true.
Proof.
  intros H. unfold Float.format_repr.
  destruct ((decpt <=? -4) || (16 <? decpt)).
  - rewrite !printable_app. apply andb_true_iff. split.
    + destruct ds as [|d [|d' rest]]; [reflexivity|exact H|].
      cbn [forallb] in *. apply andb_true_iff in H as [-> H]. exact H.
    + apply andb_true_iff. split.
      * destruct (decpt - 1 <? 0); reflexivity.
      * destruct (Z.abs (decpt - 1) <? 10); cbn [forallb];
          rewrite digits_of_printable; reflexivity.
  - destruct (decpt <=? 0).
    + rewrite !printable_app, zeros_printable, H. reflexivity.
    + destruct (Z.of_nat (length ds) <=? decpt).
      * rewrite !printable_app, zeros_printable, H. reflexivity.
      * rewrite !printable_app, take_printable, drop_printable by exact H.
        reflexivity.
Qed.

Lemma repr_printable (f : spec_float) :
  forallb printable (Float.repr f) = true.
Proof.
  destruct f as [s|s| |s m e]; cbn [Float.repr];
    [destruct s; reflexivity | destruct s; reflexivity | reflexivity |].
  destruct (Float.scaled m e 0) as [num den].
  destruct (Float.shortest _ _ _ _ _ _) as [c p].
  destruct (Float.strip_zeros _ _ _) as [c' p'].
  rewrite printable_app, format_repr_printable by apply digits_of_printable.
  destruct s; reflexivity.
Qed.

Lemma float_str_printable (f : spec_float) :
  forallb printable (JsonDump.float_str f) = true.
Proof.
  destruct f as [s|s| |s m e]; cbn [JsonDump.float_str];
    try apply repr_printable; try reflexivity.
  destruct s; reflexivity.
Qed.

Lemma hex_digit_printable (n : N) :
  printable (JsonDump.hex_digit (N.land n 15)) = true.
Proof.
  assert (H : (N.land n 15 < 16)%N).
  { change 15%N with (N.ones 4). rewrite N.land_ones.
    apply N.mod_lt. discriminate. }
  unfold JsonDump.hex_digit, printable.
  destruct (N.ltb (N.land n 15) 10) eqn:E.
  - apply N.ltb_lt in E. apply andb_true_iff.
    change (ch "0") with 48%N. split; apply N.leb_le; lia.
  - apply N.ltb_ge in E. apply andb_true_iff.
    change (ch "a") with 97%N. split; apply N.leb_le; lia.
Qed.

Lemma u_escape_printable (n : N) :
  forallb printable (JsonDump.u_escape n) = true.
Proof.
  unfold JsonDump.u_escape. cbn [forallb].
  rewrite !hex_digit_printable. reflexivity.
Qed.

Lemma escape_char_printable (c : N) :
  forallb printable (JsonDump.escape_char c) = true.
Proof.
  unfold JsonDump.escape_char.
  repeat match goal with
         | |- context [if N.eqb c ?k then _ else _] =>
             destruct (N.eqb c k); [reflexivity|]
         end.
  destruct (N.leb 32 c && N.leb c 126) eqn:E.
  - cbn [forallb]. unfold printable. rewrite E. reflexivity.
  - destruct (N.ltb c 65536); [apply u_escape_printable|].
    rewrite printable_app, !u_escape_printable. reflexivity.
Qed.

Lemma encode_string_printable (s : str) :
  forallb printable (JsonDump.encode_string s) = true.
Proof.
  unfold JsonDump.encode_string. rewrite !printable_app.
  assert (H : forallb printable (concat (map JsonDump.escape_char s)) = true).
  { induction s as [|c s IH]; [reflexivity|].
    cbn [map concat]. rewrite printable_app, escape_char_printable, IH.
    reflexivity. }
  rewrite H. reflexivity.
Qed.

Lemma join_printable (sep : str) (l : list str) :
  forallb printable sep = true ->
  Forall (fun s => forallb printable s = true) l ->
  forallb printable (JsonDump.join sep l) = true.
Proof.
  intros Hs H. induction H as [|a l Ha Hl IH]; [reflexivity|].
  cbn [JsonDump.join]. destruct l as [|b l]; [exact Ha|].
  rewrite !printable_app, Ha, Hs, IH. reflexivity.
Qed.

(** [json.dumps] writes printable ASCII only. *)
Lemma dumps_printable : forall v : value,
  forallb printable (JsonDump.dumps v) = true.
Proof.
  fix IH 1.
  intros [| b | z | f | s | l | d]; cbn [JsonDump.dumps].
  - reflexivity.
  - destruct b; reflexivity.
  - apply int_repr_printable.
  - apply float_str_printable.
  - apply encode_string_printable.
  - rewrite !printable_app. rewrite join_printable; [reflexivity..|].
    revert l. fix IHl 1. intros [|a l]; cbn [map]; constructor;
      [apply IH|apply IHl].
  - rewrite !printable_app. rewrite join_printable; [reflexivity..|].
    revert d. fix IHd 1. intros [|[k v] d]; cbn [map]; constructor;
      [|apply IHd].
    cbn [fst snd]. rewrite !printable_app, encode_string_printable, IH.
    reflexivity.
Qed.

End PrintableOutput.

(** X17.  The text that a run writes consists of printable ASCII
    characters only, without a line break: non-ASCII and control characters
    in trace names arrive as escapes.  So the size of the file in bytes,
    which the closing line reports in KB, is the number of characters of
    the text. *)
Theorem output_is_printable_ascii (root : string) (fs : filesystem) :
  run_status (main root fs) = Exited 0 ->
  exists text,
    run_fs (main root fs) !! output_path_of root = Some text /\
    forallb printable text = true /\
    forallb (fun c => N.ltb c 128) text = true.
Proof.
  intros Hs.
  destruct (main_cases root fs) as [(traces & st & _ & _ & Hm)|[Hn _]];
    [|contradiction].
  exists (JsonDump.dumps (VDict (st_result st))).
  rewrite Hm. cbn [run_fs]. split; [apply lookup_insert_eq|].
  pose proof (dumps_printable (VDict (st_result st))) as Hp.
  split; [exact Hp|].
  rewrite forallb_forall in *. intros c Hc. apply Hp in Hc.
  unfold printable in Hc. apply andb_true_iff in Hc as [_ Hc].
  apply N.leb_le in Hc. apply N.ltb_lt. lia.
Qed.

Lemma output_is_printable_ascii_witness :
  let fs : filesystem :=
    {[ "/p/output/audio_classifier_3d.html"%string := cat_page ]} in
  exists text,
    run_fs (main "/p" fs) !! output_path_of "/p" = Some text /\
    forallb printable text = true /\
    forallb (fun c => N.ltb c 128) text = true.
Proof.
  intros fs. apply (output_is_printable_ascii "/p" fs).
  vm_compute. reflexivity.
Defined.

(** ** The names in the mapping *)

(** An assignment keeps the keys and their order, and puts a new key
    last. *)
Lemma keys_set (d : list (value * value)) (k v : value) :
  keys (Dict.set d k v) = if Dict.mem d k then keys d else keys d ++ [k].
Proof.
  unfold Dict.mem, keys. induction d as [|[k' v'] d IH]; [reflexivity|].
  cbn [Dict.set Dict.lookup]. destruct (Dict.key_eqb k' k); [reflexivity|].
  cbn [map fst]. rewrite IH. destruct (Dict.lookup d k); reflexivity.
Qed.

Lemma mem_false_not_key (d : list (value * value)) (n : str) :
  Dict.mem d (VStr n) = false -> VStr n ∉ keys d.
Proof.
  unfold Dict.mem, keys. induction d as [|[k' v'] d IH]; cbn [map fst].
  - intros _. apply not_elem_of_nil.
  - cbn [Dict.lookup]. destruct (Dict.key_eqb k' (VStr n)) eqn:E;
      [discriminate|].
    intros H. apply not_elem_of_cons. split; [|apply IH, H].
    intros <-. rewrite key_eqb_refl in E by reflexivity. discriminate.
Qed.

Lemma set_string_keys (d : list (value * value)) (n : str) (v : value) :
  forallb is_string (keys d) = true -> NoDup (keys d) ->
  forallb is_string (keys (Dict.set d (VStr n) v)) = true /\
  NoDup (keys (Dict.set d (VStr n) v)).
Proof.
  intros Hs Hd. rewrite keys_set.
  destruct (Dict.mem d (VStr n)) eqn:E; [auto|].
  split.
  - rewrite forallb_app, Hs. reflexivity.
  - apply NoDup_app. split; [exact Hd|]. split; [|apply NoDup_singleton].
    intros k Hk Hin. apply list_elem_of_singleton in Hin. subst k.
    apply (mem_false_not_key d n E Hk).
Qed.

Lemma body_string_keys (st st' : state) (t : value) :
  is_string (trace_name t) = true ->
  forallb is_string (keys (st_result st)) = true ->
  NoDup (keys (st_result st)) ->
  body st t = Next st' ->
  forallb is_string (keys (st_result st')) = true /\
  NoDup (keys (st_result st')).
Proof.
  intros Hn Hs Hd. unfold body.
  destruct t as [| | | | | |d]; try discriminate.
  rewrite fields_dict. cbn [trace_name] in Hn.
  destruct (Dict.get d (VStr (lit "name")) (VStr (lit "unknown")))
    as [| | | |n| |]; try discriminate.
  destruct (coordinates _ _ _) as [[[[cx cy] cz]|]|e]; [| |discriminate].
  - cbn [Dict.hashable]. destruct (print_error (VStr n)); [discriminate|].
    intros [= <-]. cbn [st_result].
    apply set_string_keys; assumption.
  - destruct (print_error (VStr n)); [discriminate|].
    intros [= <-]. auto.
Qed.

Lemma loop_string_keys (ts : list value) (st st' : state) :
  forallb (fun t => is_string (trace_name t)) ts = true ->
  forallb is_string (keys (st_result st)) = true ->
  NoDup (keys (st_result st)) ->
  loop ts st = Next st' ->
  forallb is_string (keys (st_result st')) = true /\
  NoDup (keys (st_result st')).
Proof.
  revert st. induction ts as [|t ts IH]; intros st Hn Hs Hd; cbn [loop].
  - intros [= <-]. auto.
  - cbn [forallb] in Hn. apply andb_true_iff in Hn as [Ht Hts].
    destruct (body st t) as [st1|] eqn:E; [|discriminate].
    destruct (body_string_keys st st1 t Ht Hs Hd E) as [Hs1 Hd1].
    apply IH; assumption.
Qed.

(** X18.  When the name of every trace is a string (given or the
    default), the mapping that a completed run writes has strings for keys
    and no key twice. *)
Theorem string_names_stay_distinct
    (root : string) (fs : filesystem) (ts : list value) :
  extract_traces fs (html_path_of root) = Ok (VList ts) ->
  forallb (fun t => is_string (trace_name t)) ts = true ->
  run_status (main root fs) = Exited 0 ->
  exists d,
    run_fs (main root fs) !! output_path_of root
    = Some (JsonDump.dumps (VDict d)) /\
    forallb is_string (keys d) = true /\
    NoDup (keys d).
Proof.
  intros Hx Hn Hs.
  destruct (main_cases root fs) as [(traces & st & Hx' & Hl & Hm)|[Hf _]];
    [|contradiction].
  rewrite Hx in Hx'. cbn in Hx'. injection Hx' as <-.
  exists (st_result st). rewrite Hm. cbn [run_fs].
  split; [apply lookup_insert_eq|].
  apply (loop_string_keys ts
           (mkState [] 0 [Line_reading (html_path_of root)]) st Hn);
    [reflexivity|constructor|exact Hl].
Qed.

Lemma string_names_stay_distinct_witness :
  let fs : filesystem :=
    {[ "/p/output/audio_classifier_3d.html"%string := page_three_forms ]} in
  exists d,
    run_fs (main "/p" fs) !! output_path_of "/p"
    = Some (JsonDump.dumps (VDict d)) /\
    forallb is_string (keys d) = true /\
    NoDup (keys d).
Proof.
  intros fs.
  assert (H : exists ts, extract_traces fs (html_path_of "/p") = Ok (VList ts)
                         /\ forallb (fun t => is_string (trace_name t)) ts
                            = true).
  { eexists. split; [vm_compute; reflexivity|]. vm_compute. reflexivity. }
  destruct H as (ts & Hx & Hn).
  apply (string_names_stay_distinct "/p" fs ts Hx Hn).
  vm_compute. reflexivity.
Defined.

(** ** The shape of the output *)

Lemma py_round_number (v v' : value) :
  py_round v 2 = Ok v' -> is_number v' = true.
Proof. destruct v; simpl; try discriminate; intros [= <-]; reflexivity. Qed.

Lemma mapM_round_numbers {A} (f : A -> result value) (l : list A)
    (l' : list value) :
  (forall v v', f v = Ok v' -> is_number v' = true) ->
  mapM_result f l = Ok l' -> forallb is_number l' = true.
Proof.
  intros Hf H. apply mapM_result_Forall2 in H.
  induction H as [|v v' l l' Hv Hl IH]; [reflexivity|].
  cbn [forallb]. rewrite (Hf _ _ Hv), IH. reflexivity.
Qed.

Lemma round_all_gives_numbers (raw : value) (l : list value) :
  round_all raw = Ok l -> forallb is_number l = true.
Proof.
  unfold round_all. destruct (py_iter raw) as [vs|e]; [|discriminate].
  rewrite bind_Ok. apply mapM_round_numbers. apply py_round_number.
Qed.

Lemma decode_binary_array_gives_numbers (data : value) (l : list value) :
  decode_binary_array data = Ok l -> forallb is_number l = true.
Proof.
  unfold decode_binary_array.
  destruct (py_getitem data (lit "bdata")) as [bdata|e]; [|discriminate].
  rewrite bind_Ok.
  destruct (Base64.b64decode bdata) as [raw|e]; [|discriminate].
  rewrite bind_Ok.
  destruct (Struct.unpack_f32_le _ raw) as [values|e]; [|discriminate].
  rewrite bind_Ok. apply mapM_round_numbers.
  intros v v'. apply (py_round_number (VFloat v)).
Qed.

Lemma coordinates_give_numbers (x_raw y_raw z_raw : value) x y z :
  coordinates x_raw y_raw z_raw = Ok (Some (x, y, z)) ->
  coordinate_entry (entry x y z) = true.
Proof.
  intros H.
  assert (Hn : forallb is_number x = true /\ forallb is_number y = true /\
               forallb is_number z = true).
  { unfold coordinates in H. destruct x_raw as [| | | | |l|d]; try discriminate.
    - destruct (round_all (VList l)) as [x0|] eqn:Ex; [|discriminate].
      destruct (round_all y_raw) as [y0|] eqn:Ey; [|discriminate].
      destruct (round_all z_raw) as [z0|] eqn:Ez; [|discriminate].
      injection H as <- <- <-.
      repeat split; eauto using round_all_gives_numbers.
    - destruct (Dict.mem d (VStr (lit "bdata"))); [|discriminate].
      destruct (decode_binary_array (VDict d)) as [x0|] eqn:Ex; [|discriminate].
      destruct (decode_binary_array y_raw) as [y0|] eqn:Ey; [|discriminate].
      destruct (decode_binary_array z_raw) as [z0|] eqn:Ez; [|discriminate].
      injection H as <- <- <-.
      repeat split; eauto using decode_binary_array_gives_numbers. }
  destruct Hn as (Hx & Hy & Hz).
  unfold coordinate_entry, entry. rewrite Hx, Hy, Hz. reflexivity.
Qed.

Lemma set_coordinate_mapping (d : list (value * value)) (k v : value) :
  coordinate_mapping d = true ->
  Dict.hashable k = true -> coordinate_entry v = true ->
  coordinate_mapping (Dict.set d k v) = true.
Proof.
  intros Hd Hk Hv. unfold coordinate_mapping in *.
  induction d as [|[k' v'] d IH]; cbn [Dict.set forallb fst snd] in *.
  - rewrite Hk, Hv. reflexivity.
  - apply andb_true_iff in Hd as [H1 H2].
    apply andb_true_iff in H1 as [Hk' Hv'].
    destruct (Dict.key_eqb k' k); cbn [forallb fst snd].
    + rewrite Hk', Hv, H2. reflexivity.
    + rewrite Hk', Hv', (IH H2). reflexivity.
Qed.

Lemma body_coordinate_mapping (st st' : state) (t : value) :
  coordinate_mapping (st_result st) = true ->
  body st t = Next st' ->
  coordinate_mapping (st_result st') = true.
Proof.
  intros Hd. unfold body.
  destruct (fields t) as [[[[name x] y] z]|e]; [|discriminate].
  destruct (coordinates x y z) as [[[[cx cy] cz]|]|e] eqn:Ec;
    [| |discriminate].
  - destruct (Dict.hashable name) eqn:Hn; [|discriminate].
    destruct (print_error name); [discriminate|].
    intros [= <-]. cbn [st_result].
    apply set_coordinate_mapping; [exact Hd|exact Hn|].
    apply (coordinates_give_numbers _ _ _ _ _ _ Ec).
  - destruct (print_error name); [discriminate|].
    intros [= <-]. exact Hd.
Qed.

Lemma loop_coordinate_mapping (ts : list value) (st st' : state) :
  coordinate_mapping (st_result st) = true ->
  loop ts st = Next st' ->
  coordinate_mapping (st_result st') = true.
Proof.
  revert st. induction ts as [|t ts IH]; intros st Hd; cbn [loop].
  - intros [= <-]. exact Hd.
  - destruct (body st t) as [st1|] eqn:E; [|discriminate].
    apply IH. apply (body_coordinate_mapping st st1 t Hd E).
Qed.

(** X19.  The mapping that a completed run writes has one shape: every
    key is a hashable name and every value is an object with exactly the
    keys [x], [y] and [z], in this order, each holding a list of integers
    and floats; nothing of a trace but its name and its three coordinate
    lists reaches the output. *)
Theorem output_is_coordinate_mapping (root : string) (fs : filesystem) :
  run_status (main root fs) = Exited 0 ->
  exists d,
    run_fs (main root fs) !! output_path_of root
    = Some (JsonDump.dumps (VDict d)) /\
    coordinate_mapping d = true.
Proof.
  intros Hs.
  destruct (main_cases root fs) as [(traces & st & _ & Hl & Hm)|[Hf _]];
    [|contradiction].
  exists (st_result st). rewrite Hm. cbn [run_fs].
  split; [apply lookup_insert_eq|].
  apply (loop_coordinate_mapping traces
           (mkState [] 0 [Line_reading (html_path_of root)]) st);
    [reflexivity|exact Hl].
Qed.

Lemma output_is_coordinate_mapping_witness :
  let fs : filesystem :=
    {[ "/p/output/audio_classifier_3d.html"%string := page_three_forms ]} in
  exists d,
    run_fs (main "/p" fs) !! output_path_of "/p"
    = Some (JsonDump.dumps (VDict d)) /\
    coordinate_mapping d = true.
Proof.
  intros fs. apply (output_is_coordinate_mapping "/p" fs).
  vm_compute. reflexivity.
Defined.

(** ** Names written and read back *)
Section NameRoundTrip.

Import Json.

#[local] Arguments N.eqb : simpl never.
#[local] Arguments N.leb : simpl never.
#[local] Arguments N.ltb : simpl never.
#[local] Arguments ch : simpl never.

Lemma nibble (n : N) : (N.land n 15 < 16)%N.
Proof.
  change 15%N with (N.ones 4). rewrite N.land_ones.
  apply N.mod_lt. discriminate.
Qed.

Lemma hex_val_digit (d : N) :
  (d < 16)%N -> hex_val (JsonDump.hex_digit d) = Some d.
Proof.
  intros H.
  assert (E : forallb (fun a => match hex_val (JsonDump.hex_digit (Z.to_N a)) with
                                | Some d' => N.eqb d' (Z.to_N a)
                                | None => false
                                end) (below 16) = true)
    by (vm_compute; reflexivity).
  pose proof (forallb_below 16 _ E (Z.of_N d)) as Hd. cbv beta in Hd.
  rewrite N2Z.id in Hd.
  destruct (hex_val (JsonDump.hex_digit d)) as [d'|]; [|lia].
  f_equal. apply N.eqb_eq. apply Hd. lia.
Qed.

Lemma hex_value (n : N) :
  (n < 65536)%N ->
  (((N.land (N.shiftr n 12) 15 * 16 + N.land (N.shiftr n 8) 15) * 16
    + N.land (N.shiftr n 4) 15) * 16 + N.land n 15)%N = n.
Proof.
  intros H. change 15%N with (N.ones 4).
  rewrite !N.land_ones, !N.shiftr_div_pow2.
  change (2 ^ 4)%N with 16%N. change (2 ^ 12)%N with 4096%N.
  change (2 ^ 8)%N with 256%N.
  zify. Z.to_euclidean_division_equations. lia.
Qed.

(** The four digits of an escape read back as the code unit. *)
Lemma unicode_escape_u_escape (n : N) (s3 : str) :
  (n < 65536)%N ->
  escaped (drop 1 (JsonDump.u_escape n) ++ s3) = after_unit n s3.
Proof.
  intros H. unfold JsonDump.u_escape. cbn [drop app]. unfold escaped.
  rewrite (eq_refl : N.eqb (ch "u") (ch "u") = true).
  unfold unicode_escape, hex4.
  rewrite !hex_val_digit by apply nibble.
  rewrite (hex_value n H). reflexivity.
Qed.

Lemma after_unit_plain (n : N) (s3 : str) :
  is_high_surrogate n = false ->
  after_unit n s3 = cons_char n (scanstring s3).
Proof.
  intros H. unfold after_unit. rewrite H.
  destruct s3 as [|b [|u s4]]; reflexivity.
Qed.

Lemma scanstring_u_escape (n : N) (s3 : str) :
  (n < 65536)%N ->
  scanstring (JsonDump.u_escape n ++ s3) = after_unit n s3.
Proof.
  intros H. rewrite <- (unicode_escape_u_escape n s3 H).
  unfold JsonDump.u_escape. cbn [app drop]. rewrite scanstring_cons.
  reflexivity.
Qed.

Lemma ten_bits (n : N) : (N.land n 1023 < 1024)%N.
Proof.
  change 1023%N with (N.ones 10). rewrite N.land_ones.
  apply N.mod_lt. discriminate.
Qed.

Lemma lor_high (a : N) :
  (a < 1024)%N -> N.lor 0xd800 a = (0xd800 + a)%N.
Proof.
  intros H.
  assert (E : forallb (fun a => N.eqb (N.lor 0xd800 (Z.to_N a))
                                  (0xd800 + Z.to_N a))
                (below 1024) = true) by (vm_compute; reflexivity).
  pose proof (forallb_below 1024 _ E (Z.of_N a)) as Ha. cbv beta in Ha.
  rewrite N2Z.id in Ha. apply N.eqb_eq, Ha. lia.
Qed.

Lemma lor_low (a : N) :
  (a < 1024)%N -> N.lor 0xdc00 a = (0xdc00 + a)%N.
Proof.
  intros H.
  assert (E : forallb (fun a => N.eqb (N.lor 0xdc00 (Z.to_N a))
                                  (0xdc00 + Z.to_N a))
                (below 1024) = true) by (vm_compute; reflexivity).
  pose proof (forallb_below 1024 _ E (Z.of_N a)) as Ha. cbv beta in Ha.
  rewrite N2Z.id in Ha. apply N.eqb_eq, Ha. lia.
Qed.

(** The two halves of a code point beyond the basic plane join again. *)
Lemma halves_join (n : N) :
  (n < 2 ^ 20)%N ->
  N.lor (N.shiftl (N.land (N.shiftr n 10) 1023) 10) (N.land n 1023) = n.
Proof.
  intros H. apply N.bits_inj. intros i.
  rewrite N.lor_spec, N.land_spec.
  change 1023%N with (N.ones 10).
  destruct (N.ltb i 10) eqn:E.
  - apply N.ltb_lt in E.
    rewrite N.shiftl_spec_low by exact E.
    rewrite N.ones_spec_low by exact E.
    rewrite andb_true_r. reflexivity.
  - apply N.ltb_ge in E.
    rewrite N.shiftl_spec_high by lia.
    rewrite N.land_spec, N.shiftr_spec by lia.
    replace (i - 10 + 10)%N with i by lia.
    rewrite (N.ones_spec_high 10 i) by exact E.
    rewrite andb_false_r, orb_false_r.
    destruct (N.ltb (i - 10) 10) eqn:E2.
    + apply N.ltb_lt in E2. rewrite N.ones_spec_low by exact E2.
      apply andb_true_r.
    + apply N.ltb_ge in E2. rewrite N.ones_spec_high by exact E2.
      rewrite andb_false_r. symmetry.
      rewrite <- (N.mod_small n (2 ^ 20)) by exact H.
      apply N.mod_pow2_bits_high. lia.
Qed.

(** A character written by [escape_char] reads back as itself. *)
Lemma scanstring_escape_char (c : N) (rest : str) :
  scalar c = true ->
  scanstring (JsonDump.escape_char c ++ rest) = cons_char c (scanstring rest).
Proof.
  intros Hc. unfold scalar in Hc. apply andb_true_iff in Hc as [Hmax Hsur].
  apply N.ltb_lt in Hmax. apply negb_true_iff in Hsur.
  unfold JsonDump.escape_char.
  destruct (N.eqb c quote) eqn:E1.
  { apply N.eqb_eq in E1. subst c. reflexivity. }
  destruct (N.eqb c (ch "\")) eqn:E2.
  { apply N.eqb_eq in E2. subst c. reflexivity. }
  destruct (N.eqb c 10) eqn:E3.
  { apply N.eqb_eq in E3. subst c. reflexivity. }
  destruct (N.eqb c 13) eqn:E4.
  { apply N.eqb_eq in E4. subst c. reflexivity. }
  destruct (N.eqb c 9) eqn:E5.
  { apply N.eqb_eq in E5. subst c. reflexivity. }
  destruct (N.eqb c 8) eqn:E6.
  { apply N.eqb_eq in E6. subst c. reflexivity. }
  destruct (N.eqb c 12) eqn:E7.
  { apply N.eqb_eq in E7. subst c. reflexivity. }
  destruct (N.leb 32 c && N.leb c 126) eqn:E8.
  { cbn [app]. rewrite scanstring_cons, E1, E2.
    apply andb_true_iff in E8 as [E8 _]. apply N.leb_le in E8.
    destruct (N.ltb c 32) eqn:E9; [apply N.ltb_lt in E9; lia|reflexivity]. }
  destruct (N.ltb c 65536) eqn:E9.
  { apply N.ltb_lt in E9. rewrite scanstring_u_escape by exact E9.
    apply after_unit_plain. unfold is_high_surrogate.
    destruct (N.leb 55296 c) eqn:L1; [|reflexivity].
    destruct (N.leb c 56319) eqn:L2; [|reflexivity].
    apply N.leb_le in L2.
    assert (N.leb c 57343 = true) as L3 by (apply N.leb_le; lia).
    rewrite L3 in Hsur. discriminate. }
  apply N.ltb_ge in E9.
  set (n := (c - 65536)%N).
  assert (Hn : (n < 2 ^ 20)%N) by (unfold n; change (2 ^ 20)%N with 1048576%N; lia).
  set (a := N.land (N.shiftr n 10) 1023).
  set (b := N.land n 1023).
  pose proof (ten_bits (N.shiftr n 10)) as Ha. fold a in Ha.
  pose proof (ten_bits n) as Hb. fold b in Hb.
  rewrite (lor_high a Ha), (lor_low b Hb), <- app_assoc.
  rewrite scanstring_u_escape by lia.
  unfold after_unit, JsonDump.u_escape at 1. cbn [app].
  assert (Hh : is_high_surrogate (55296 + a) = true).
  { unfold is_high_surrogate. apply andb_true_iff.
    split; apply N.leb_le; lia. }
  rewrite Hh, (eq_refl : N.eqb (ch "\") (ch "\") = true),
    (eq_refl : N.eqb (ch "u") (ch "u") = true).
  cbn [andb]. unfold low_unit, hex4.
  rewrite !hex_val_digit by apply nibble.
  rewrite (hex_value (56320 + b)) by lia.
  assert (Hl : is_low_surrogate (56320 + b) = true).
  { unfold is_low_surrogate. apply andb_true_iff.
    split; apply N.leb_le; lia. }
  rewrite Hl. unfold join_surrogates.
  replace (55296 + a - 55296)%N with a by lia.
  replace (56320 + b - 56320)%N with b by lia.
  unfold a, b. rewrite (halves_join n Hn). unfold n.
  replace (65536 + (c - 65536))%N with c by lia. reflexivity.
Qed.

Lemma scanstring_encoded (s rest : str) :
  forallb scalar s = true ->
  scanstring (concat (map JsonDump.escape_char s) ++ quote :: rest)
  = Ok (s, rest).
Proof.
  induction s as [|c s IH]; intros H.
  - reflexivity.
  - cbn [forallb] in H. apply andb_true_iff in H as [Hc Hs].
    cbn [map concat]. rewrite <- app_assoc.
    rewrite (scanstring_escape_char c _ Hc), (IH Hs). reflexivity.
Qed.

End NameRoundTrip.

(** X20.  A name survives the output: the text that [json.dump] writes
    for a string of Unicode scalar values (escapes for quotes, backslashes,
    control and non-ASCII characters, surrogate pairs beyond the basic
    plane) is read back by the decoder that [extract_traces] uses as the
    same string, to the last character of the text. *)
Theorem encoded_name_decodes_to_itself (s : str) :
  forallb scalar s = true ->
  Json.raw_decode (JsonDump.encode_string s)
  = Ok (VStr s, len (JsonDump.encode_string s)).
Proof.
  intros H. unfold Json.raw_decode, JsonDump.encode_string, Json.fuel_for.
  cbn [app Json.scan_once]. unfold Json.scan_once_body.
  rewrite (eq_refl : N.eqb quote quote = true).
  rewrite (scanstring_encoded s [] H).
  change (len (A:=N) []) with 0. rewrite Z.sub_0_r. reflexivity.
Qed.

Lemma encoded_name_decodes_to_itself_witness :
  JsonDump.encode_string [ch "a"; quote; 233%N; 0x1f600%N]
  = qlit "'a\'\u00e9\ud83d\ude00'" /\
  Json.raw_decode (JsonDump.encode_string [ch "a"; quote; 233%N; 0x1f600%N])
  = Ok (VStr [ch "a"; quote; 233%N; 0x1f600%N], 23).
Proof.
  split; [vm_compute; reflexivity|].
  apply (encoded_name_decodes_to_itself [ch "a"; quote; 233%N; 0x1f600%N]).
  vm_compute. reflexivity.
Defined.
